(** * Segmentation metrics of [metric.py] (class [Measurement])

    A shallow embedding of the confusion-matrix construction and of the
    metric readers built on it, together with the properties stated for
    them.

    Modelling conventions.
    - An [ndarray] is a rectangular nested list, outermost axis first:
      a prediction tensor of shape (N, C, H, W) is a
      [list (list (list (list Q)))], a label tensor of shape (N, H, W) a
      [list (list (list Z))].  The functions are total on nested lists;
      the theorems state the shapes they are about.
    - Integer arrays (int64) are lists of [Z].  The counts a confusion
      matrix built from images holds are bounded by the number of pixels;
      the readers also accept any matrix, so they are given twice: on exact
      integers, and on int64 with its wrap-around written out ([wrap64]).
      The range theorems are stated for the int64 readers, under a bound
      on the row and column sums that excludes wrap-around.
    - float64 values are idealised as [fval]: a finite value is an exact
      rational (rounding is not modelled), and IEEE's two infinities and
      not-a-number are kept, so that a division by zero behaves as numpy's
      does.  The literals [1e-8] and [1e-7] are the rationals 1/10^8 and
      1/10^7.  Zero is the positive zero (the only one an integer converts
      to).
    - A Python exception is a value [Raise e] of the [result] type. *)

From Stdlib Require Import List ZArith QArith Bool Arith Lia Lqa.
Import ListNotations.

Set Implicit Arguments.

(** ** Exceptions *)

Inductive exn : Type :=
| AssertionError
| ValueError
| IndexError.

Inductive result (A : Type) : Type :=
| Ok (a : A)
| Raise (e : exn).

Arguments Ok {A} a.
Arguments Raise {A} e.

Definition bind {A B : Type} (c : result A) (k : A -> result B) : result B :=
  match c with
  | Ok a => k a
  | Raise e => Raise e
  end.

Notation "x <- c ;; k" := (bind c (fun x => k))
  (at level 61, c at next level, right associativity).

Fixpoint mapM {A B : Type} (f : A -> result B) (l : list A) : result (list B) :=
  match l with
  | [] => Ok []
  | x :: t => y <- f x ;; ys <- mapM f t ;; Ok (y :: ys)
  end.

(** ** Idealised float64 values *)

Inductive fval : Type :=
| Fin (q : Q)
| PInf
| NInf
| NaN.

Definition eps8 : Q := 1 # 100000000.
Definition eps7 : Q := 1 # 10000000.

Definition of_Z (z : Z) : fval := Fin (inject_Z z).
Definition of_nat (n : nat) : fval := of_Z (Z.of_nat n).

Definition fadd (a b : fval) : fval :=
  match a, b with
  | NaN, _ | _, NaN => NaN
  | Fin x, Fin y => Fin (x + y)
  | PInf, NInf | NInf, PInf => NaN
  | PInf, _ | _, PInf => PInf
  | NInf, _ | _, NInf => NInf
  end.

(** An infinity times a finite [x]: the sign of [x] decides, and a zero
    gives not-a-number. *)
Definition inf_times (pos : bool) (x : Q) : fval :=
  match x ?= 0 with
  | Eq => NaN
  | Gt => if pos then PInf else NInf
  | Lt => if pos then NInf else PInf
  end.

Definition fmul (a b : fval) : fval :=
  match a, b with
  | NaN, _ | _, NaN => NaN
  | Fin x, Fin y => Fin (x * y)
  | Fin x, PInf | PInf, Fin x => inf_times true x
  | Fin x, NInf | NInf, Fin x => inf_times false x
  | PInf, PInf | NInf, NInf => PInf
  | PInf, NInf | NInf, PInf => NInf
  end.

Definition fdiv (a b : fval) : fval :=
  match a, b with
  | NaN, _ | _, NaN => NaN
  | Fin x, Fin y =>
      match y ?= 0 with
      | Eq => match x ?= 0 with
              | Eq => NaN
              | Gt => PInf
              | Lt => NInf
              end
      | _ => Fin (x / y)
      end
  | Fin _, _ => Fin 0
  | PInf, Fin y => match y ?= 0 with Lt => NInf | _ => PInf end
  | NInf, Fin y => match y ?= 0 with Lt => PInf | _ => NInf end
  | _, _ => NaN
  end.

(** Two values are the same float: the same rational, or the same special
    value. *)
Definition feq (a b : fval) : Prop :=
  match a, b with
  | Fin x, Fin y => x == y
  | PInf, PInf | NInf, NInf | NaN, NaN => True
  | _, _ => False
  end.

Definition is_finite (a : fval) : bool :=
  match a with
  | Fin _ => true
  | _ => false
  end.

(** ** numpy primitives *)

Definition zsum (l : list Z) : Z := fold_right Z.add 0%Z l.

Definition fsum (l : list fval) : fval := fold_right fadd (Fin 0) l.

(** [np.mean] of a one-dimensional float array: the sum divided by the
    number of elements; on an empty array this is 0/0. *)
Definition np_mean (l : list fval) : fval :=
  fdiv (fsum l) (of_nat (length l)).

Fixpoint map2 {A B C : Type} (f : A -> B -> C) (l : list A) (l' : list B) : list C :=
  match l, l' with
  | x :: t, y :: t' => f x y :: map2 f t t'
  | _, _ => []
  end.

(** [l.argmax()] of a one-dimensional array: a left-to-right scan that keeps
    the position of the largest value seen so far and moves only on a
    strictly larger one. *)
Fixpoint argmax_from (best : Q) (bi i : nat) (l : list Q) : nat :=
  match l with
  | [] => bi
  | x :: t =>
      if Qle_bool x best then argmax_from best bi (S i) t
      else argmax_from x i (S i) t
  end.

Definition argmax (l : list Q) : nat :=
  match l with
  | [] => 0%nat
  | x :: t => argmax_from x 0 1 t
  end.

(** [item.argmax(axis=0)] of one batch item of shape (C, H, W): the grid of
    shape (H, W) of the per-pixel arg-max over the channels.  numpy refuses
    an empty channel axis. *)
Definition argmax_channels (p : list (list (list Q))) : result (list (list Z)) :=
  match p with
  | [] => Raise ValueError
  | ch0 :: _ =>
      let H := length ch0 in
      let W := length (hd [] ch0) in
      Ok (map (fun h =>
            map (fun w =>
              Z.of_nat (argmax (map (fun ch => nth w (nth h ch []) 0) p)))
              (seq 0 W))
            (seq 0 H))
  end.

(** [pred.argmax(axis=1)] of a tensor of shape (N, C, H, W). *)
Definition argmax_axis1 (pred : list (list (list (list Q)))) : result (list (list (list Z))) :=
  mapM argmax_channels pred.

(** [np.reshape(a, (N, -1))] of an array of shape (N, H, W) whose first
    axis has length [N]: each item is laid out row after row.  With [N = 0]
    the unknown dimension cannot be inferred and numpy raises. *)
Definition reshape_rows {A : Type} (N : nat) (a : list (list (list A))) : result (list (list A)) :=
  match N with
  | O => Raise ValueError
  | S _ => Ok (map (@concat A) a)
  end.

(** Elementwise binary operation on two rows with numpy's broadcasting of
    a row of length one. *)
Definition broadcast_row {A : Type} (f : A -> A -> A) (a b : list A) : result (list A) :=
  if (length a =? length b)%nat then Ok (map2 f a b)
  else match a, b with
       | [x], _ => Ok (map (f x) b)
       | _, [y] => Ok (map (fun x => f x y) a)
       | _, _ => Raise ValueError
       end.

Fixpoint broadcast2 {A : Type} (f : A -> A -> A) (a b : list (list A)) : result (list (list A)) :=
  match a, b with
  | r :: t, r' :: t' =>
      x <- broadcast_row f r r' ;; xs <- broadcast2 f t t' ;; Ok (x :: xs)
  | _, _ => Ok []
  end.

Definition count_eqb (k : Z) (x : list Z) : Z :=
  Z.of_nat (length (filter (Z.eqb k) x)).

Definition list_maxZ (x : list Z) : Z := fold_right Z.max 0%Z x.

(** [np.bincount(x, minlength=m)]: negative values are refused; the result
    has [max m (max x + 1)] bins, bin [k] holding the number of occurrences
    of [k]. *)
Definition bincount (x : list Z) (minlength : nat) : result (list Z) :=
  if existsb (fun v => v <? 0)%Z x then Raise ValueError
  else
    let bins := match x with
                | [] => minlength
                | _ => Nat.max minlength (S (Z.to_nat (list_maxZ x)))
                end in
    Ok (map (fun k => count_eqb (Z.of_nat k) x) (seq 0 bins)).

(** [np.apply_along_axis(f, axis=-1, arr)] of a two-dimensional array: [f]
    is applied to every row; there must be a row, and every result must
    have the length of the first one. *)
Definition apply_along_axis {A B : Type} (f : list A -> result (list B))
    (arr : list (list A)) : result (list (list B)) :=
  match arr with
  | [] => Raise ValueError
  | _ =>
      rows <- mapM f arr ;;
      if forallb (fun r => (length r =? length (hd [] rows))%nat) rows
      then Ok rows else Raise ValueError
  end.

(** The [k] consecutive pieces of length [c] of a row-major buffer. *)
Definition chunks {A : Type} (k c : nat) (l : list A) : list (list A) :=
  map (fun i => firstn c (skipn (i * c) l)) (seq 0 k).

(** [np.reshape(a, (N, C, C))] of an array of shape (N, L) with [N] rows:
    the sizes must agree. *)
Definition reshape_square {A : Type} (N C : nat) (a : list (list A)) : result (list (list (list A))) :=
  if (N * length (hd [] a) =? N * C * C)%nat
  then Ok (map (chunks C C) a)
  else Raise ValueError.

(** [np.sum(m, -1)] and [np.sum(m, -2)] of one item of shape (R, K). *)
Definition sum_axis_m1 (m : list (list Z)) : list Z := map zsum m.

Definition sum_axis_m2 (m : list (list Z)) : list Z :=
  map (fun j => zsum (map (fun r => nth j r 0%Z) m)) (seq 0 (length (hd [] m))).

(** [a[:, i]] and [a[:, i, j]] with numpy's bounds check. *)
Definition index1 {A : Type} (a : list (list A)) (i : nat) : result (list A) :=
  mapM (fun r => match nth_error r i with
                 | Some v => Ok v
                 | None => Raise IndexError
                 end) a.

Definition index2 {A : Type} (a : list (list (list A))) (i j : nat) : result (list A) :=
  rows <- index1 a i ;; index1 rows j.

(** [np.where(a != v)] of a two-dimensional array: the positions, in
    row-major order, of the entries different from [v]. *)
Definition np_where_ne (a : list (list Z)) (v : Z) : list (nat * nat) :=
  concat (map (fun rr : nat * list Z =>
                 map (pair (fst rr))
                     (filter (fun c => negb (nth c (snd rr) 0 =? v)%Z)
                             (seq 0 (length (snd rr)))))
              (combine (seq 0 (length a)) a)).

(** [a[(rows, cols)]]: the one-dimensional array of the entries of [a] at
    the given positions. *)
Definition take_at {A : Type} (a : list (list A)) (idxs : list (nat * nat)) : result (list A) :=
  mapM (fun rc : nat * nat =>
          match nth_error a (fst rc) with
          | Some row => match nth_error row (snd rc) with
                        | Some v => Ok v
                        | None => Raise IndexError
                        end
          | None => Raise IndexError
          end) idxs.

(** [np.sum(p == t, axis=-1)] of two rows of equal length. *)
Definition count_equal (p t : list Z) : Z :=
  Z.of_nat (length (filter (fun b : bool => b) (map2 Z.eqb p t))).

(** ** The class [Measurement] *)

Record Measurement : Type := {
  num_classes : nat;
  ignore_idx : option Z
}.

Section Methods.

Variable self : Measurement.

Definition _make_confusion_matrix
    (pred : list (list (list (list Q)))) (target : list (list (list Z)))
    : result (list (list (list Z))) :=
  if negb (length pred =? length target)%nat then Raise AssertionError
  else
    let N := length pred in
    pred_label <- argmax_axis1 pred ;;
    pred_1d <- reshape_rows N pred_label ;;
    target_1d <- reshape_rows N target ;;
    cats <- broadcast2 (fun t p => Z.of_nat (num_classes self) * t + p)%Z
                       target_1d pred_1d ;;
    conf_mat <- apply_along_axis
                  (fun x => bincount x (num_classes self * num_classes self))
                  cats ;;
    reshape_square N (num_classes self) conf_mat.

Definition no_bg_miou (conf_mat : list (list (list Z))) : result fval :=
  let sum_col := map sum_axis_m2 conf_mat in
  let sum_row := map sum_axis_m1 conf_mat in
  tp1 <- index2 conf_mat 1 1 ;;
  tp2 <- index2 conf_mat 2 2 ;;
  sc1 <- index1 sum_col 1 ;;
  sr1 <- index1 sum_row 1 ;;
  sc2 <- index1 sum_col 2 ;;
  sr2 <- index1 sum_row 2 ;;
  let num := map2 Z.add tp1 tp2 in
  let den := map2 Z.sub
               (map2 Z.add (map2 Z.add (map2 Z.sub (map2 Z.add sc1 sr1) tp1) sc2) sr2)
               tp2 in
  let miou_nbg :=
    np_mean (map2 (fun a d => fdiv (of_Z a) (fadd (of_Z d) (Fin eps8))) num den) in
  Ok (np_mean [miou_nbg]).

Definition accuracy
    (pred : list (list (list (list Q)))) (target : list (list (list Z)))
    : result fval :=
  pred_label <- argmax_axis1 pred ;;
  let pred2 := map (@concat Z) pred_label in
  let target2 := map (@concat Z) target in
  match ignore_idx self with
  | Some ig =>
      let not_ignore_idxs := np_where_ne target2 ig in
      pred1 <- take_at pred2 not_ignore_idxs ;;
      target1 <- take_at target2 not_ignore_idxs ;;
      Ok (np_mean [fdiv (of_Z (count_equal pred1 target1)) (of_nat (length pred1))])
  | None =>
      let cols := length (hd [] pred2) in
      Ok (np_mean (map (fun c => fdiv (of_Z c) (of_nat cols))
                       (map2 count_equal pred2 target2)))
  end.

(** One pass of the loop of [miou]: the batch mean of the IoU of class [i]. *)
Definition batch_mean_iou (conf_mat : list (list (list Z)))
    (sum_col sum_row : list (list Z)) (i : nat) : result fval :=
  tp <- index2 conf_mat i i ;;
  sc <- index1 sum_col i ;;
  sr <- index1 sum_row i ;;
  Ok (np_mean (map2 (fun a d => fdiv (of_Z a) (fadd (of_Z d) (Fin eps8)))
                    tp (map2 Z.sub (map2 Z.add sc sr) tp))).

Definition miou (conf_mat : list (list (list Z))) : result (list fval * fval) :=
  let sum_col := map sum_axis_m2 conf_mat in
  let sum_row := map sum_axis_m1 conf_mat in
  iou_list <- mapM (batch_mean_iou conf_mat sum_col sum_row)
                   (seq 0 (num_classes self)) ;;
  Ok (iou_list, np_mean iou_list).

Definition precision (conf_mat : list (list (list Z))) : result fval :=
  let sum_col := map sum_axis_m2 conf_mat in
  per_class <- mapM (fun i =>
                       tp <- index2 conf_mat i i ;;
                       sc <- index1 sum_col i ;;
                       Ok (map2 (fun a s => fdiv (of_Z a) (fadd (of_Z s) (Fin eps7)))
                                tp sc))
                    (seq 1 (num_classes self - 1)) ;;
  let precision_per_class := map np_mean per_class in
  Ok (np_mean precision_per_class).

Definition recall (conf_mat : list (list (list Z))) : result fval :=
  let sum_row := map sum_axis_m1 conf_mat in
  per_class <- mapM (fun i =>
                       tp <- index2 conf_mat i i ;;
                       sr <- index1 sum_row i ;;
                       Ok (map2 (fun a s => fdiv (of_Z a) (of_Z s)) tp sr))
                    (seq 1 (num_classes self - 1)) ;;
  let recall_per_class := map np_mean per_class in
  Ok (np_mean recall_per_class).

Definition f1score (recall precision : fval) : fval :=
  fdiv (fmul (fmul (Fin 2) recall) precision)
       (fadd (fadd recall precision) (Fin eps8)).

Record metrics : Type := {
  m_acc : fval;
  m_miou : fval;
  m_iou_list : list fval;
  m_precision : fval;
  m_recall : fval;
  m_f1score : fval;
  m_cwmiou : fval
}.

Definition measure
    (pred : list (list (list (list Q)))) (target : list (list (list Z)))
    : result metrics :=
  conf_mat <- _make_confusion_matrix pred target ;;
  acc <- accuracy pred target ;;
  im <- miou conf_mat ;;
  cwmiou <- no_bg_miou conf_mat ;;
  p <- precision conf_mat ;;
  r <- recall conf_mat ;;
  let f := f1score r p in
  Ok {| m_acc := acc; m_miou := snd im; m_iou_list := fst im;
        m_precision := p; m_recall := r; m_f1score := f; m_cwmiou := cwmiou |}.

Definition __call__ := measure.

End Methods.

(** ** Shapes and the quantities the properties are stated with *)

Definition shape2 {A : Type} (R K : nat) (m : list (list A)) : Prop :=
  length m = R /\ Forall (fun r => length r = K) m.

Definition shape3 {A : Type} (N R K : nat) (a : list (list (list A))) : Prop :=
  length a = N /\ Forall (shape2 R K) a.

Definition shape4 {A : Type} (N C H W : nat) (a : list (list (list (list A)))) : Prop :=
  length a = N /\ Forall (shape3 C H W) a.

(** [conf_mat[n, i, j]]. *)
Definition entry (conf_mat : list (list (list Z))) (n i j : nat) : Z :=
  nth j (nth i (nth n conf_mat []) []) 0%Z.

(** [sum_row[n,i]] is the sum over j of [conf_mat[n,i,j]], [sum_col[n,i]]
    the sum over j of [conf_mat[n,j,i]]. *)
Definition sum_row (conf_mat : list (list (list Z))) (C n i : nat) : Z :=
  zsum (map (fun j => entry conf_mat n i j) (seq 0 C)).

Definition sum_col (conf_mat : list (list (list Z))) (C n i : nat) : Z :=
  zsum (map (fun j => entry conf_mat n j i) (seq 0 C)).

(** The mean over [k = 0 .. K-1] of [f k]. *)
Definition mean_over (K : nat) (f : nat -> fval) : fval :=
  np_mean (map f (seq 0 K)).

(** The mean over [k = 1 .. K-1] of [f k]. *)
Definition mean_from1 (K : nat) (f : nat -> fval) : fval :=
  np_mean (map f (seq 1 (K - 1))).

Definition nonneg_entries (conf_mat : list (list (list Z))) : Prop :=
  forall n i j, (0 <= entry conf_mat n i j)%Z.

(** A finite value between 0 and 1. *)
Definition in_unit (a : fval) : Prop :=
  match a with
  | Fin q => 0 <= q <= 1
  | _ => False
  end.

(** The per-item quantities the metric readers average. *)
Definition iou_of (conf_mat : list (list (list Z))) (C n i : nat) : fval :=
  fdiv (of_Z (entry conf_mat n i i))
       (fadd (of_Z (sum_col conf_mat C n i + sum_row conf_mat C n i
                    - entry conf_mat n i i))
             (Fin eps8)).


Definition precision_of (conf_mat : list (list (list Z))) (C n i : nat) : fval :=
  fdiv (of_Z (entry conf_mat n i i))
       (fadd (of_Z (sum_col conf_mat C n i)) (Fin eps7)).

Definition recall_of (conf_mat : list (list (list Z))) (C n i : nat) : fval :=
  fdiv (of_Z (entry conf_mat n i i)) (of_Z (sum_row conf_mat C n i)).


(** [pred[n, c, h, w]] and [target[n, h, w]]. *)
Definition score (pred : list (list (list (list Q)))) (n c h w : nat) : Q :=
  nth w (nth h (nth c (nth n pred []) []) []) 0.

Definition label (target : list (list (list Z))) (n h w : nat) : Z :=
  nth w (nth h (nth n target []) []) 0%Z.

(** [j] is the first position of [l] that attains the maximum of [l]. *)
Definition first_max (l : list Q) (j : nat) : Prop :=
  (j < length l)%nat /\
  (forall k, (k < length l)%nat -> nth k l 0 <= nth j l 0) /\
  (forall k, (k < j)%nat -> nth k l 0 < nth j l 0).

(** The first index attaining the maximum, by search: the least [j] such
    that no element exceeds [l[j]]. *)
Definition first_max_index (l : list Q) : nat :=
  match find (fun j => forallb (fun x => Qle_bool x (nth j l 0)) l)
             (seq 0 (length l)) with
  | Some j => j
  | None => 0%nat
  end.

(** The predicted label of pixel (h, w) of item n: the first class whose
    score is maximal. *)
Definition predicted_label (pred : list (list (list (list Q))))
    (C n h w : nat) : Z :=
  Z.of_nat (first_max_index (map (fun c => score pred n c h w) (seq 0 C))).

Definition pixels (H W : nat) : list (nat * nat) :=
  list_prod (seq 0 H) (seq 0 W).

(** The number of pixels (h, w) of an H x W grid that satisfy [P]. *)
Definition count_pixels (H W : nat) (P : nat -> nat -> bool) : Z :=
  Z.of_nat (length (filter (fun hw => P (fst hw) (snd hw)) (pixels H W))).

(** Every label lies in [0, C). *)
Definition valid_labels (target : list (list (list Z))) (N C H W : nat) : Prop :=
  forall n h w, (n < N)%nat -> (h < H)%nat -> (w < W)%nat ->
    (0 <= label target n h w < Z.of_nat C)%Z.

(** The category code of a pixel. *)
Definition category (pred : list (list (list (list Q))))
    (target : list (list (list Z))) (C n h w : nat) : Z :=
  (Z.of_nat C * label target n h w + predicted_label pred C n h w)%Z.

(** The array of shape (N, H, W) whose entry [n, h, w] is [f n h w], and
    its flattening to shape (N, H*W). *)
Definition tabulate3 {A : Type} (N H W : nat) (f : nat -> nat -> nat -> A)
    : list (list (list A)) :=
  map (fun n => map (fun h => map (fun w => f n h w) (seq 0 W)) (seq 0 H))
      (seq 0 N).

Definition tabulate_flat {A : Type} (N H W : nat) (f : nat -> nat -> nat -> A)
    : list (list A) :=
  map (fun n => map (fun hw => f n (fst hw) (snd hw)) (pixels H W)) (seq 0 N).

(** The category codes of the pixels of item [n], in row-major order, and
    their histogram with [C * C] bins. *)
Definition codes (pred : list (list (list (list Q))))
    (target : list (list (list Z))) (C H W n : nat) : list Z :=
  map (fun hw => category pred target C n (fst hw) (snd hw)) (pixels H W).

Definition histogram (C : nat) (x : list Z) : list Z :=
  map (fun k => count_eqb (Z.of_nat k) x) (seq 0 (C * C)).

(** The sum over [i] and [j] of [conf_mat[n, i, j]]. *)
Definition total_count (conf_mat : list (list (list Z))) (C n : nat) : Z :=
  zsum (map (fun i => zsum (map (fun j => entry conf_mat n i j) (seq 0 C)))
            (seq 0 C)).

(** Pixel (h, w) of item [n] is classified correctly; it is kept by the
    filter on [ignore_idx = ig]. *)
Definition correct (pred : list (list (list (list Q))))
    (target : list (list (list Z))) (C n h w : nat) : bool :=
  (predicted_label pred C n h w =? label target n h w)%Z.

Definition kept (target : list (list (list Z))) (ig : Z) (n h w : nat) : bool :=
  negb (label target n h w =? ig)%Z.

(** The number of pixels (n, h, w) of the whole batch that satisfy [P]. *)
Definition count_batch (N H W : nat) (P : nat -> nat -> nat -> bool) : Z :=
  zsum (map (fun n => count_pixels H W (P n)) (seq 0 N)).

(** The fraction of correctly classified pixels of item [n]. *)
Definition item_accuracy (pred : list (list (list (list Q))))
    (target : list (list (list Z))) (C H W n : nat) : fval :=
  fdiv (of_Z (count_pixels H W (correct pred target C n))) (of_nat (H * W)).

(** The fraction of correctly classified pixels among the kept pixels of
    item [n], and among the kept pixels of the whole batch. *)
Definition item_accuracy_kept (pred : list (list (list (list Q))))
    (target : list (list (list Z))) (ig : Z) (C H W n : nat) : fval :=
  fdiv (of_Z (count_pixels H W
                (fun h w => kept target ig n h w && correct pred target C n h w)))
       (of_Z (count_pixels H W (kept target ig n))).

Definition pooled_accuracy (pred : list (list (list (list Q))))
    (target : list (list (list Z))) (ig : Z) (N C H W : nat) : fval :=
  fdiv (of_Z (count_batch N H W
                (fun n h w => kept target ig n h w && correct pred target C n h w)))
       (of_Z (count_batch N H W (kept target ig))).

(** Entry [n, c] of the flattening to shape (N, H*W) of the array whose
    entry [n, h, w] is [f n h w]. *)
Definition flat_at (H W : nat) (f : nat -> nat -> nat -> Z) (n c : nat) : Z :=
  nth c (map (fun hw => f n (fst hw) (snd hw)) (pixels H W)) 0%Z.

(** The matrix of shape (N, C, C) built from the histograms of the
    category codes of every item. *)
Definition conf_mat_of (pred : list (list (list (list Q))))
    (target : list (list (list Z))) (N C H W : nat) : list (list (list Z)) :=
  map (fun n => chunks C C (histogram C (codes pred target C H W n))) (seq 0 N).

(** The sum of the diagonal of item [n]. *)
Definition trace (conf_mat : list (list (list Z))) (C n : nat) : Z :=
  zsum (map (fun i => entry conf_mat n i i) (seq 0 C)).

(** The union IoU of classes 1 and 2 of item [n] of a matrix with [C]
    classes. *)
Definition union_iou_at (conf_mat : list (list (list Z))) (C n : nat) : fval :=
  fdiv (of_Z (entry conf_mat n 1 1 + entry conf_mat n 2 2))
       (fadd (of_Z (sum_col conf_mat C n 1 + sum_row conf_mat C n 1
                    - entry conf_mat n 1 1
                    + sum_col conf_mat C n 2 + sum_row conf_mat C n 2
                    - entry conf_mat n 2 2))
             (Fin eps8)).

(** ** The readers on int64 arrays

    The readers above take the integers of the confusion matrix as exact.
    numpy holds them as int64 and wraps around silently: an int64 result
    is the exact result reduced to [-2^63, 2^63).  Addition modulo 2^64 is
    associative and commutative, so the int64 sum of a row or a column is
    the exact sum wrapped once, whatever the order of accumulation.  The
    definitions below are the same readers with every integer operation
    done in int64. *)

Definition wrap64 (z : Z) : Z := ((z + 2 ^ 63) mod 2 ^ 64 - 2 ^ 63)%Z.

Definition add64 (a b : Z) : Z := wrap64 (a + b).

Definition sub64 (a b : Z) : Z := wrap64 (a - b).

(** [np.sum(m, -1)] and [np.sum(m, -2)] of one int64 item. *)
Definition sum64_axis_m1 (m : list (list Z)) : list Z :=
  map wrap64 (sum_axis_m1 m).

Definition sum64_axis_m2 (m : list (list Z)) : list Z :=
  map wrap64 (sum_axis_m2 m).

Section Int64Readers.

Variable self : Measurement.

Definition no_bg_miou_int64 (conf_mat : list (list (list Z))) : result fval :=
  let sum_col := map sum64_axis_m2 conf_mat in
  let sum_row := map sum64_axis_m1 conf_mat in
  tp1 <- index2 conf_mat 1 1 ;;
  tp2 <- index2 conf_mat 2 2 ;;
  sc1 <- index1 sum_col 1 ;;
  sr1 <- index1 sum_row 1 ;;
  sc2 <- index1 sum_col 2 ;;
  sr2 <- index1 sum_row 2 ;;
  let num := map2 add64 tp1 tp2 in
  let den := map2 sub64
               (map2 add64 (map2 add64 (map2 sub64 (map2 add64 sc1 sr1) tp1) sc2) sr2)
               tp2 in
  let miou_nbg :=
    np_mean (map2 (fun a d => fdiv (of_Z a) (fadd (of_Z d) (Fin eps8))) num den) in
  Ok (np_mean [miou_nbg]).

Definition batch_mean_iou_int64 (conf_mat : list (list (list Z)))
    (sum_col sum_row : list (list Z)) (i : nat) : result fval :=
  tp <- index2 conf_mat i i ;;
  sc <- index1 sum_col i ;;
  sr <- index1 sum_row i ;;
  Ok (np_mean (map2 (fun a d => fdiv (of_Z a) (fadd (of_Z d) (Fin eps8)))
                    tp (map2 sub64 (map2 add64 sc sr) tp))).

Definition miou_int64 (conf_mat : list (list (list Z))) : result (list fval * fval) :=
  let sum_col := map sum64_axis_m2 conf_mat in
  let sum_row := map sum64_axis_m1 conf_mat in
  iou_list <- mapM (batch_mean_iou_int64 conf_mat sum_col sum_row)
                   (seq 0 (num_classes self)) ;;
  Ok (iou_list, np_mean iou_list).

Definition precision_int64 (conf_mat : list (list (list Z))) : result fval :=
  let sum_col := map sum64_axis_m2 conf_mat in
  per_class <- mapM (fun i =>
                       tp <- index2 conf_mat i i ;;
                       sc <- index1 sum_col i ;;
                       Ok (map2 (fun a s => fdiv (of_Z a) (fadd (of_Z s) (Fin eps7)))
                                tp sc))
                    (seq 1 (num_classes self - 1)) ;;
  let precision_per_class := map np_mean per_class in
  Ok (np_mean precision_per_class).

Definition recall_int64 (conf_mat : list (list (list Z))) : result fval :=
  let sum_row := map sum64_axis_m1 conf_mat in
  per_class <- mapM (fun i =>
                       tp <- index2 conf_mat i i ;;
                       sr <- index1 sum_row i ;;
                       Ok (map2 (fun a s => fdiv (of_Z a) (of_Z s)) tp sr))
                    (seq 1 (num_classes self - 1)) ;;
  let recall_per_class := map np_mean per_class in
  Ok (np_mean recall_per_class).

End Int64Readers.

(** Every row sum and every column sum of the matrix is below 2^61: with
    non-negative entries no int64 operation of the readers wraps. *)
Definition int64_bounded (conf_mat : list (list (list Z))) (N C : nat) : Prop :=
  forall n i, (n < N)%nat -> (i < C)%nat ->
    (sum_row conf_mat C n i < 2 ^ 61)%Z /\ (sum_col conf_mat C n i < 2 ^ 61)%Z.

(** ** The float model *)

Lemma feq_refl (a : fval) : feq a a.
Proof. destruct a; simpl; auto. reflexivity. Qed.

Lemma feq_sym (a b : fval) : feq a b -> feq b a.
Proof. destruct a, b; simpl; auto. intros H; symmetry; exact H. Qed.

Lemma feq_trans (a b c : fval) : feq a b -> feq b c -> feq a c.
Proof.
  destruct a, b, c; simpl; auto; try contradiction.
  intros H1 H2. rewrite H1. exact H2.
Qed.

Lemma fdiv_pos (x y : Q) : 0 < y -> fdiv (Fin x) (Fin y) = Fin (x / y).
Proof.
  intros Hy. simpl.
  destruct (Qcompare_spec y 0) as [E | L | G]; try reflexivity.
  rewrite E in Hy. exfalso. apply (Qlt_irrefl 0). exact Hy.
Qed.

Lemma of_nat_pos (n : nat) : (0 < n)%nat -> 0 < inject_Z (Z.of_nat n).
Proof.
  intros H. change 0 with (inject_Z 0). rewrite <- Zlt_Qlt. lia.
Qed.

Lemma np_mean_single (a : fval) : feq (np_mean [a]) a.
Proof.
  destruct a; simpl; auto.
  change (inject_Z 1) with 1. field.
Qed.

Lemma fsum_unit (l : list fval) :
  Forall in_unit l ->
  exists s, fsum l = Fin s /\ 0 <= s <= inject_Z (Z.of_nat (length l)).
Proof.
  induction 1 as [| a l Ha _ IH].
  - exists 0. simpl. split; [reflexivity | split; apply Qle_refl].
  - destruct IH as [s [Es Hs]].
    destruct a as [q | | |]; simpl in Ha; try contradiction.
    exists (q + s). split.
    + simpl. fold (fsum l). rewrite Es. reflexivity.
    + cbn [length]. rewrite Nat2Z.inj_succ. unfold Z.succ.
      rewrite inject_Z_plus. change (inject_Z 1) with 1. lra.
Qed.

Lemma np_mean_unit (l : list fval) :
  l <> [] -> Forall in_unit l -> in_unit (np_mean l).
Proof.
  intros Hne Hall.
  destruct (fsum_unit Hall) as [s [Es Hs]].
  assert (Hlen : 0 < inject_Z (Z.of_nat (length l))).
  { apply of_nat_pos. destruct l; [congruence | simpl; lia]. }
  unfold np_mean, of_nat, of_Z. rewrite Es, (fdiv_pos _ Hlen). simpl.
  split.
  - apply Qle_shift_div_l; [exact Hlen | lra].
  - apply Qle_shift_div_r; [exact Hlen | lra].
Qed.



(** Not-a-number is absorbing for the sum and for the mean. *)
Lemma fadd_NaN_r (a : fval) : fadd a NaN = NaN.
Proof. destruct a; reflexivity. Qed.

Lemma fsum_NaN (l : list fval) : In NaN l -> fsum l = NaN.
Proof.
  induction l as [| a l IH]; simpl; [contradiction |].
  intros [E | Hin].
  - subst a. reflexivity.
  - fold (fsum l). rewrite (IH Hin). apply fadd_NaN_r.
Qed.

Lemma np_mean_NaN (l : list fval) : In NaN l -> np_mean l = NaN.
Proof. intros H. unfold np_mean. rewrite (fsum_NaN _ H). reflexivity. Qed.

(** ** Lists and the error monad *)

Lemma mapM_ok_map {A B : Type} (f : A -> result B) (g : A -> B) (l : list A) :
  (forall x, In x l -> f x = Ok (g x)) -> mapM f l = Ok (map g l).
Proof.
  induction l as [| x t IH]; intros H; simpl.
  - reflexivity.
  - rewrite (H x (or_introl eq_refl)). simpl.
    rewrite IH by (intros y Hy; apply H; right; exact Hy).
    reflexivity.
Qed.

Lemma map_as_seq {A B : Type} (f : A -> B) (l : list A) (d : A) :
  map f l = map (fun n => f (nth n l d)) (seq 0 (length l)).
Proof.
  induction l as [| x t IH]; simpl.
  - reflexivity.
  - f_equal. rewrite IH, <- seq_shift, map_map. reflexivity.
Qed.

Lemma list_as_seq {A : Type} (l : list A) (d : A) :
  l = map (fun n => nth n l d) (seq 0 (length l)).
Proof.
  rewrite <- (map_as_seq (fun x => x) l d). symmetry. apply map_id.
Qed.

Lemma nth_map_seq {A : Type} (f : nat -> A) (K i : nat) (d : A) :
  (i < K)%nat -> nth i (map f (seq 0 K)) d = f i.
Proof.
  intros Hi. rewrite (nth_indep _ d (f 0%nat)) by (rewrite length_map, length_seq; exact Hi).
  rewrite map_nth, seq_nth by exact Hi. reflexivity.
Qed.

Lemma map2_map {A B C D : Type} (f : B -> C -> D) (g : A -> B) (h : A -> C)
    (l : list A) :
  map2 f (map g l) (map h l) = map (fun x => f (g x) (h x)) l.
Proof.
  induction l as [| x t IH]; simpl; [reflexivity | now rewrite IH].
Qed.

Lemma index1_shape {A : Type} (a : list (list A)) (K i : nat) (d : A) :
  Forall (fun r => length r = K) a -> (i < K)%nat ->
  index1 a i = Ok (map (fun r => nth i r d) a).
Proof.
  intros Hall Hi. unfold index1. apply mapM_ok_map.
  intros r Hr. rewrite Forall_forall in Hall.
  rewrite (nth_error_nth' r d); [reflexivity |].
  rewrite (Hall r Hr). exact Hi.
Qed.

Lemma zsum_nonneg (l : list Z) : Forall (fun z => 0 <= z)%Z l -> (0 <= zsum l)%Z.
Proof. induction 1; simpl; [lia | fold (zsum l); lia]. Qed.

Lemma zsum_ge_term (f : nat -> Z) (K i : nat) :
  (forall j, 0 <= f j)%Z -> (i < K)%nat ->
  (f i <= zsum (map f (seq 0 K)))%Z.
Proof.
  intros Hf. induction K as [| K IH]; intros Hi; [lia |].
  rewrite seq_S, map_app. simpl.
  assert (Happ : forall l l', zsum (l ++ l') = (zsum l + zsum l')%Z).
  { induction l; intros; simpl; [reflexivity |].
    fold (zsum (l ++ l')). fold (zsum l). rewrite IHl. lia. }
  rewrite Happ. simpl.
  assert (H0 : (0 <= zsum (map f (seq 0 K)))%Z).
  { apply zsum_nonneg. rewrite Forall_forall. intros z Hz.
    apply in_map_iff in Hz. destruct Hz as [j [<- _]]. apply Hf. }
  destruct (Nat.eq_dec i K) as [-> | Hne].
  - lia.
  - assert (Hi' : (i < K)%nat) by lia. specialize (IH Hi').
    pose proof (Hf K). lia.
Qed.

(** ** Reading a confusion matrix of shape (N, C, C) *)

Section ConfusionMatrixShape.

Variables (conf_mat : list (list (list Z))) (N C : nat).
Hypothesis Hshape : shape3 N C C conf_mat.

Lemma item_shape (m : list (list Z)) :
  In m conf_mat -> length m = C /\ forall r, In r m -> length r = C.
Proof.
  intros Hm. destruct Hshape as [_ Hall]. rewrite Forall_forall in Hall.
  destruct (Hall m Hm) as [Hl Hr]. rewrite Forall_forall in Hr. auto.
Qed.

Lemma row_length (m : list (list Z)) (i : nat) :
  In m conf_mat -> (i < C)%nat -> length (nth i m []) = C.
Proof.
  intros Hm Hi. destruct (item_shape m Hm) as [Hl Hr].
  apply Hr. apply nth_In. lia.
Qed.

Lemma index2_entries (i j : nat) :
  (i < C)%nat -> (j < C)%nat ->
  index2 conf_mat i j = Ok (map (fun n => entry conf_mat n i j) (seq 0 N)).
Proof.
  intros Hi Hj. unfold index2.
  rewrite (@index1_shape _ conf_mat C i []); [| | exact Hi].
  - simpl. rewrite (@index1_shape _ _ C j 0%Z); [| | exact Hj].
    + rewrite map_map. f_equal.
      rewrite (map_as_seq _ conf_mat []). destruct Hshape as [-> _].
      reflexivity.
    + rewrite Forall_forall. intros r Hr. apply in_map_iff in Hr.
      destruct Hr as [m [<- Hm]]. apply row_length; assumption.
  - rewrite Forall_forall. intros m Hm. apply item_shape. exact Hm.
Qed.

Lemma sum_row_entries (i : nat) :
  (i < C)%nat ->
  index1 (map sum_axis_m1 conf_mat) i
  = Ok (map (fun n => sum_row conf_mat C n i) (seq 0 N)).
Proof.
  intros Hi.
  rewrite (@index1_shape _ _ C i 0%Z); [| | exact Hi].
  - f_equal. rewrite map_map.
    rewrite (map_as_seq _ conf_mat []). destruct Hshape as [HN Hall].
    rewrite HN. apply map_ext_in. intros n Hn. apply in_seq in Hn.
    assert (Hm : In (nth n conf_mat []) conf_mat) by (apply nth_In; lia).
    unfold sum_axis_m1, sum_row, entry.
    change 0%Z with (zsum []) at 1. rewrite map_nth. f_equal.
    rewrite (list_as_seq (nth i (nth n conf_mat []) []) 0%Z) at 1.
    rewrite (row_length _ Hm Hi). reflexivity.
  - rewrite Forall_forall. intros r Hr. apply in_map_iff in Hr.
    destruct Hr as [m [<- Hm]]. unfold sum_axis_m1. rewrite length_map.
    apply item_shape. exact Hm.
Qed.

Lemma sum_axis_m2_length (m : list (list Z)) :
  In m conf_mat -> (0 < C)%nat -> length (sum_axis_m2 m) = C.
Proof.
  intros Hm HC. unfold sum_axis_m2. rewrite length_map, length_seq.
  destruct (item_shape m Hm) as [Hl Hr].
  destruct m as [| r0 m']; [simpl in Hl; lia |].
  simpl. apply Hr. left. reflexivity.
Qed.

Lemma sum_col_entries (i : nat) :
  (i < C)%nat ->
  index1 (map sum_axis_m2 conf_mat) i
  = Ok (map (fun n => sum_col conf_mat C n i) (seq 0 N)).
Proof.
  intros Hi.
  rewrite (@index1_shape _ _ C i 0%Z); [| | exact Hi].
  - f_equal. rewrite map_map.
    rewrite (map_as_seq _ conf_mat []). destruct Hshape as [HN Hall].
    rewrite HN. apply map_ext_in. intros n Hn. apply in_seq in Hn.
    assert (Hm : In (nth n conf_mat []) conf_mat) by (apply nth_In; lia).
    pose proof (sum_axis_m2_length _ Hm ltac:(lia)) as Hlen.
    unfold sum_axis_m2 in *. rewrite length_map, length_seq in Hlen.
    rewrite Hlen.
    rewrite nth_map_seq by exact Hi.
    unfold sum_col, entry.
    rewrite (map_as_seq _ (nth n conf_mat []) []).
    destruct (item_shape _ Hm) as [-> _]. reflexivity.
  - rewrite Forall_forall. intros r Hr. apply in_map_iff in Hr.
    destruct Hr as [m [<- Hm]]. apply sum_axis_m2_length; [exact Hm | lia].
Qed.

End ConfusionMatrixShape.

Lemma nth_Forall {A : Type} (P : A -> Prop) (l : list A) (d : A) (n : nat) :
  Forall P l -> P d -> P (nth n l d).
Proof.
  intros Hall Hd. revert n. induction Hall; intros [| n]; simpl; auto.
Qed.

Lemma nonneg_entries_Forall (conf_mat : list (list (list Z))) :
  Forall (Forall (Forall (fun z => 0 <= z)%Z)) conf_mat ->
  nonneg_entries conf_mat.
Proof.
  intros H n i j. unfold entry.
  apply nth_Forall; [| lia].
  apply nth_Forall; [| constructor].
  apply nth_Forall; [exact H | constructor].
Qed.

(** ** Mean IoU *)

Lemma eps8_pos : 0 < eps8.
Proof. reflexivity. Qed.

Lemma eps7_pos : 0 < eps7.
Proof. reflexivity. Qed.

Lemma ratio_in_unit (tp d : Z) (e : Q) :
  (0 <= tp <= d)%Z -> 0 < e ->
  in_unit (fdiv (of_Z tp) (fadd (of_Z d) (Fin e))).
Proof.
  intros [H0 Hd] He. unfold of_Z. simpl fadd.
  assert (Q0 : 0 <= inject_Z tp).
  { change 0 with (inject_Z 0). rewrite <- Zle_Qle. exact H0. }
  assert (Qd : inject_Z tp <= inject_Z d) by (rewrite <- Zle_Qle; exact Hd).
  assert (Hpos : 0 < inject_Z d + e) by lra.
  rewrite (fdiv_pos _ Hpos). simpl. split.
  - apply Qle_shift_div_l; [exact Hpos | lra].
  - apply Qle_shift_div_r; [exact Hpos | lra].
Qed.

Lemma batch_mean_iou_ok (conf_mat : list (list (list Z))) (N C i : nat) :
  shape3 N C C conf_mat -> (i < C)%nat ->
  batch_mean_iou conf_mat (map sum_axis_m2 conf_mat) (map sum_axis_m1 conf_mat) i
  = Ok (mean_over N (fun n => iou_of conf_mat C n i)).
Proof.
  intros Hs Hi. unfold batch_mean_iou.
  rewrite (index2_entries Hs Hi Hi). simpl.
  rewrite (sum_col_entries Hs Hi). simpl.
  rewrite (sum_row_entries Hs Hi). simpl.
  rewrite !map2_map. reflexivity.
Qed.

Lemma iou_of_in_unit (conf_mat : list (list (list Z))) (C n i : nat) :
  nonneg_entries conf_mat -> (i < C)%nat -> in_unit (iou_of conf_mat C n i).
Proof.
  intros Hnn Hi. unfold iou_of. apply ratio_in_unit; [| exact eps8_pos].
  pose proof (Hnn n i i) as H0.
  pose proof (@zsum_ge_term (fun j => entry conf_mat n j i) C i
                (fun j => Hnn n j i) Hi) as Hc.
  pose proof (@zsum_ge_term (fun j => entry conf_mat n i j) C i
                (fun j => Hnn n i j) Hi) as Hr.
  unfold sum_col, sum_row. simpl in Hc, Hr. lia.
Qed.

(** *** int64 sums that do not wrap *)

Lemma wrap64_small (z : Z) :
  (- 2 ^ 63 <= z < 2 ^ 63)%Z -> wrap64 z = z.
Proof.
  intros Hz. unfold wrap64. rewrite Z.mod_small; lia.
Qed.

Lemma index1_map {A B : Type} (f : A -> B) (a : list (list A)) (i : nat) :
  index1 (map (map f) a) i
  = match index1 a i with
    | Ok l => Ok (map f l)
    | Raise e => Raise e
    end.
Proof.
  unfold index1. induction a as [| r t IH]; simpl; [reflexivity |].
  rewrite nth_error_map. destruct (nth_error r i) as [v |]; simpl; [| reflexivity].
  rewrite IH. destruct (mapM _ t); reflexivity.
Qed.

Lemma mapM_ext_in {A B : Type} (f g : A -> result B) (l : list A) :
  (forall x, In x l -> f x = g x) -> mapM f l = mapM g l.
Proof.
  induction l as [| x t IH]; intros H; simpl; [reflexivity |].
  rewrite (H x (or_introl eq_refl)).
  rewrite IH by (intros y Hy; apply H; right; exact Hy).
  reflexivity.
Qed.

Lemma sum64_col_entries (conf_mat : list (list (list Z))) (N C i : nat) :
  shape3 N C C conf_mat -> (i < C)%nat ->
  index1 (map sum64_axis_m2 conf_mat) i
  = Ok (map (fun n => wrap64 (sum_col conf_mat C n i)) (seq 0 N)).
Proof.
  intros Hs Hi. unfold sum64_axis_m2.
  rewrite <- (map_map sum_axis_m2 (map wrap64)).
  rewrite index1_map, (sum_col_entries Hs Hi), map_map. reflexivity.
Qed.

Lemma sum64_row_entries (conf_mat : list (list (list Z))) (N C i : nat) :
  shape3 N C C conf_mat -> (i < C)%nat ->
  index1 (map sum64_axis_m1 conf_mat) i
  = Ok (map (fun n => wrap64 (sum_row conf_mat C n i)) (seq 0 N)).
Proof.
  intros Hs Hi. unfold sum64_axis_m1.
  rewrite <- (map_map sum_axis_m1 (map wrap64)).
  rewrite index1_map, (sum_row_entries Hs Hi), map_map. reflexivity.
Qed.

(** With non-negative entries and bounded sums, the diagonal entry and the
    two sums of a class lie in [0, 2^61). *)
Lemma bounded_class (conf_mat : list (list (list Z))) (N C n i : nat) :
  nonneg_entries conf_mat -> int64_bounded conf_mat N C ->
  (n < N)%nat -> (i < C)%nat ->
  (0 <= entry conf_mat n i i <= sum_col conf_mat C n i)%Z /\
  (entry conf_mat n i i <= sum_row conf_mat C n i)%Z /\
  (sum_col conf_mat C n i < 2 ^ 61)%Z /\ (sum_row conf_mat C n i < 2 ^ 61)%Z.
Proof.
  intros Hnn Hb Hn Hi.
  pose proof (Hnn n i i) as H0.
  pose proof (@zsum_ge_term (fun j => entry conf_mat n j i) C i
                (fun j => Hnn n j i) Hi) as Hc.
  pose proof (@zsum_ge_term (fun j => entry conf_mat n i j) C i
                (fun j => Hnn n i j) Hi) as Hr.
  destruct (Hb n i Hn Hi) as [Br Bc].
  unfold sum_col, sum_row in *. simpl in Hc, Hr. repeat split; lia.
Qed.

Lemma batch_mean_iou_int64_exact (conf_mat : list (list (list Z))) (N C i : nat) :
  shape3 N C C conf_mat -> nonneg_entries conf_mat ->
  int64_bounded conf_mat N C -> (i < C)%nat ->
  batch_mean_iou_int64 conf_mat (map sum64_axis_m2 conf_mat)
                       (map sum64_axis_m1 conf_mat) i
  = Ok (mean_over N (fun n => iou_of conf_mat C n i)).
Proof.
  intros Hs Hnn Hb Hi. unfold batch_mean_iou_int64.
  rewrite (index2_entries Hs Hi Hi). cbn [bind].
  rewrite (sum64_col_entries Hs Hi). cbn [bind].
  rewrite (sum64_row_entries Hs Hi). cbn [bind].
  rewrite !map2_map. f_equal. unfold mean_over. f_equal.
  apply map_ext_in. intros n Hn. apply in_seq in Hn.
  destruct (@bounded_class conf_mat N C n i Hnn Hb ltac:(lia) Hi)
    as [[H0 H1] [H2 [H3 H4]]].
  unfold iou_of, add64, sub64.
  rewrite (@wrap64_small (sum_col conf_mat C n i)) by lia.
  rewrite (@wrap64_small (sum_row conf_mat C n i)) by lia.
  rewrite (@wrap64_small (sum_col conf_mat C n i + sum_row conf_mat C n i)) by lia.
  rewrite wrap64_small by lia. reflexivity.
Qed.

(** C3, as the code has it.  On an int64 confusion matrix of shape
    (N, C, C) with non-negative entries whose row and column sums stay
    below 2^61, [miou] returns the list of the C per-class values, class 0
    included, where the value of class [i] is the mean over the batch items
    [n] of
    [conf_mat[n,i,i] / (sum_col[n,i] + sum_row[n,i] - conf_mat[n,i,i] + 1e-8)],
    and the mean of that list; no int64 operation wraps, so the reader on
    int64 and the reader on exact integers agree.  With at least one item
    and one class the mean IoU is a finite value between 0 and 1 (the
    all-zero matrix included). *)
Theorem miou_values_and_range (self : Measurement) (conf_mat : list (list (list Z))) (N C : nat) :
  shape3 N C C conf_mat -> num_classes self = C ->
  nonneg_entries conf_mat -> int64_bounded conf_mat N C ->
  exists iou_list m,
    miou_int64 self conf_mat = Ok (iou_list, m) /\
    miou self conf_mat = Ok (iou_list, m) /\
    length iou_list = C /\
    (forall i, (i < C)%nat ->
       nth i iou_list NaN = mean_over N (fun n => iou_of conf_mat C n i)) /\
    m = mean_over C (fun i => nth i iou_list NaN) /\
    ((0 < N)%nat -> (0 < C)%nat ->
     exists q, m = Fin q /\ 0 <= q <= 1).
Proof.
  intros Hs HC Hnn Hb.
  set (l := map (fun i => mean_over N (fun n => iou_of conf_mat C n i)) (seq 0 C)).
  assert (Hl : length l = C) by (unfold l; rewrite length_map, length_seq; reflexivity).
  exists l, (np_mean l). repeat split.
  - unfold miou_int64. rewrite HC.
    rewrite (@mapM_ok_map _ _ _
               (fun i => mean_over N (fun n => iou_of conf_mat C n i))).
    + reflexivity.
    + intros i Hin. apply in_seq in Hin.
      apply batch_mean_iou_int64_exact; [exact Hs | exact Hnn | exact Hb | lia].
  - unfold miou. rewrite HC.
    rewrite (@mapM_ok_map _ _ _
               (fun i => mean_over N (fun n => iou_of conf_mat C n i))).
    + reflexivity.
    + intros i Hin. apply in_seq in Hin.
      apply batch_mean_iou_ok; [exact Hs | lia].
  - exact Hl.
  - intros i Hi. unfold l.
    exact (nth_map_seq (fun i => mean_over N (fun n => iou_of conf_mat C n i)) NaN Hi).
  - unfold mean_over. rewrite <- Hl. rewrite <- (list_as_seq l NaN). reflexivity.
  - intros HN HC0.
    assert (Hu : in_unit (np_mean l)).
    { apply np_mean_unit.
      - intros E. rewrite E in Hl. simpl in Hl. lia.
      - unfold l. rewrite Forall_forall. intros a Ha.
        apply in_map_iff in Ha. destruct Ha as [i [<- Hin]]. apply in_seq in Hin.
        unfold mean_over. apply np_mean_unit.
        + destruct N; [lia | discriminate].
        + rewrite Forall_forall. intros b Hb'.
          apply in_map_iff in Hb'. destruct Hb' as [n [<- _]].
          apply iou_of_in_unit; [exact Hnn | lia]. }
    destruct (np_mean l) as [q | | |]; simpl in Hu; try contradiction.
    exists q. split; [reflexivity | exact Hu].
Qed.

Lemma int64_bounded_small (conf_mat : list (list (list Z))) (N C : nat) :
  (forall n i, (n < N)%nat -> (i < C)%nat ->
     (sum_row conf_mat C n i <? 2 ^ 61)%Z && (sum_col conf_mat C n i <? 2 ^ 61)%Z
     = true) ->
  int64_bounded conf_mat N C.
Proof.
  intros H n i Hn Hi. specialize (H n i Hn Hi).
  apply andb_true_iff in H. destruct H as [H1 H2].
  apply Z.ltb_lt in H1. apply Z.ltb_lt in H2. split; assumption.
Qed.

(** The all-zero matrix of shape (2, 3, 3) has a finite mean IoU in [0,1]. *)
Lemma miou_values_and_range_witness :
  exists iou_list m,
    miou_int64 {| num_classes := 3; ignore_idx := None |}
         (repeat (repeat (repeat 0%Z 3) 3) 2) = Ok (iou_list, m) /\
    exists q, m = Fin q /\ 0 <= q <= 1.
Proof.
  destruct (@miou_values_and_range {| num_classes := 3; ignore_idx := None |}
              (repeat (repeat (repeat 0%Z 3) 3) 2) 2 3)
    as [l [m [H1 [_ [_ [_ [_ H5]]]]]]].
  - split; [reflexivity |]. repeat constructor.
  - reflexivity.
  - apply nonneg_entries_Forall. repeat constructor; lia.
  - apply int64_bounded_small. intros n i Hn Hi.
    destruct n as [| [| n]]; try lia;
      destruct i as [| [| [| i]]]; try lia; reflexivity.
  - exists l, m. split; [exact H1 |]. apply H5; lia.
Defined.

(** One item whose class 1 has 4*10^18 pixels on the diagonal and as many
    in each of the two confusions with class 2: every entry and every row
    and column sum fits in int64, the int64 sum [sum_col + sum_row] of
    class 1 wraps to a negative value, and the mean IoU is negative. *)
Lemma miou_int64_wraps_counterexample :
  nonneg_entries
    [[[0; 0; 0];
      [0; 4000000000000000000; 4000000000000000000];
      [0; 4000000000000000000; 0]]]%Z /\
  (sum_col [[[0; 0; 0];
             [0; 4000000000000000000; 4000000000000000000];
             [0; 4000000000000000000; 0]]]%Z 3 0 1 < 2 ^ 63)%Z /\
  (sum_row [[[0; 0; 0];
             [0; 4000000000000000000; 4000000000000000000];
             [0; 4000000000000000000; 0]]]%Z 3 0 1 < 2 ^ 63)%Z /\
  exists iou_list q,
    miou_int64 {| num_classes := 3; ignore_idx := None |}
      [[[0; 0; 0];
        [0; 4000000000000000000; 4000000000000000000];
        [0; 4000000000000000000; 0]]]%Z = Ok (iou_list, Fin q) /\
    q < 0.
Proof.
  split; [apply nonneg_entries_Forall; repeat constructor; lia |].
  split; [reflexivity |]. split; [reflexivity |].
  eexists. eexists. split; [vm_compute; reflexivity |].
  reflexivity.
Qed.

(** ** Foreground-only mean IoU *)






(** ** Precision and recall *)

Lemma precision_ok (self : Measurement) (conf_mat : list (list (list Z))) (N C : nat) :
  shape3 N C C conf_mat -> num_classes self = C ->
  precision self conf_mat
  = Ok (mean_from1 C (fun i => mean_over N (fun n => precision_of conf_mat C n i))).
Proof.
  intros Hs HC. unfold precision. rewrite HC.
  rewrite (@mapM_ok_map _ _ _
             (fun i => map (fun n => precision_of conf_mat C n i) (seq 0 N))).
  - simpl. unfold mean_from1. rewrite map_map. reflexivity.
  - intros i Hin. apply in_seq in Hin.
    assert (Hi : (i < C)%nat) by lia.
    rewrite (index2_entries Hs Hi Hi). simpl.
    rewrite (sum_col_entries Hs Hi). simpl.
    rewrite map2_map. reflexivity.
Qed.

Lemma recall_ok (self : Measurement) (conf_mat : list (list (list Z))) (N C : nat) :
  shape3 N C C conf_mat -> num_classes self = C ->
  recall self conf_mat
  = Ok (mean_from1 C (fun i => mean_over N (fun n => recall_of conf_mat C n i))).
Proof.
  intros Hs HC. unfold recall. rewrite HC.
  rewrite (@mapM_ok_map _ _ _
             (fun i => map (fun n => recall_of conf_mat C n i) (seq 0 N))).
  - simpl. unfold mean_from1. rewrite map_map. reflexivity.
  - intros i Hin. apply in_seq in Hin.
    assert (Hi : (i < C)%nat) by lia.
    rewrite (index2_entries Hs Hi Hi). simpl.
    rewrite (sum_row_entries Hs Hi). simpl.
    rewrite map2_map. reflexivity.
Qed.



(** ** F1 score *)

(** C9. For all real scalars [r] and [p],
    [f1score(r, p) = 2*r*p / (r + p + 1e-8)] has the same value as
    [f1score(p, r)]. *)
Theorem f1score_symmetric (r p : Q) :
  feq (f1score (Fin r) (Fin p)) (f1score (Fin p) (Fin r)).
Proof.
  unfold f1score. simpl fmul. simpl fadd.
  assert (Ed : p + r + eps8 == r + p + eps8) by ring.
  assert (En : 2 * p * r == 2 * r * p) by ring.
  unfold fdiv. rewrite Ed, En.
  destruct (r + p + eps8 ?= 0); try (simpl; rewrite Ed, En; reflexivity).
  destruct (2 * r * p ?= 0); simpl; exact I.
Qed.

(** ** The batch-size assertion *)

(** C7. When the first dimensions of [pred] and [target] differ,
    [_make_confusion_matrix] raises the assertion error whatever else the
    arrays contain, and so does [measure], whose first step it is: no
    other step is reached. *)
Theorem batch_size_mismatch_asserts (self : Measurement)
    (pred : list (list (list (list Q)))) (target : list (list (list Z))) :
  length pred <> length target ->
  _make_confusion_matrix self pred target = Raise AssertionError /\
  measure self pred target = Raise AssertionError.
Proof.
  intros Hne.
  assert (E : _make_confusion_matrix self pred target = Raise AssertionError).
  { unfold _make_confusion_matrix.
    destruct (Nat.eqb_spec (length pred) (length target)) as [Heq | _].
    - contradiction.
    - reflexivity. }
  split; [exact E |].
  unfold measure. rewrite E. reflexivity.
Qed.

Lemma batch_size_mismatch_asserts_witness :
  _make_confusion_matrix {| num_classes := 3; ignore_idx := None |}
    [[[[1; 0]]; [[0; 1]]; [[0; 0]]]] [[[0; 1]]; [[2; 2]]]%Z
  = Raise AssertionError /\
  measure {| num_classes := 3; ignore_idx := None |}
    [[[[1; 0]]; [[0; 1]]; [[0; 0]]]] [[[0; 1]]; [[2; 2]]]%Z
  = Raise AssertionError.
Proof.
  apply batch_size_mismatch_asserts. simpl. lia.
Defined.

(** ** Arg-max *)

Lemma first_max_single (x : Q) : first_max [x] 0.
Proof.
  repeat split; simpl.
  - lia.
  - intros [| k] Hk; [apply Qle_refl | lia].
  - intros k Hk. lia.
Qed.

Lemma first_max_snoc_keep (pre : list Q) (bi : nat) (x : Q) :
  first_max pre bi -> x <= nth bi pre 0 -> first_max (pre ++ [x]) bi.
Proof.
  intros [Hb [Hmax Hfirst]] Hx. repeat split.
  - rewrite length_app. simpl. lia.
  - intros k Hk. rewrite length_app in Hk. simpl in Hk.
    rewrite (app_nth1 pre [x] 0 Hb).
    destruct (Nat.eq_dec k (length pre)) as [-> | Hne].
    + rewrite app_nth2, Nat.sub_diag by lia. exact Hx.
    + rewrite app_nth1 by lia. apply Hmax. lia.
  - intros k Hk. rewrite !app_nth1 by lia. apply Hfirst. exact Hk.
Qed.

Lemma first_max_snoc_new (pre : list Q) (bi : nat) (x : Q) :
  first_max pre bi -> nth bi pre 0 < x -> first_max (pre ++ [x]) (length pre).
Proof.
  intros [Hb [Hmax Hfirst]] Hx.
  assert (Ex : nth (length pre) (pre ++ [x]) 0 = x).
  { rewrite app_nth2, Nat.sub_diag by lia. reflexivity. }
  repeat split.
  - rewrite length_app. simpl. lia.
  - intros k Hk. rewrite length_app in Hk. simpl in Hk. rewrite Ex.
    destruct (Nat.eq_dec k (length pre)) as [-> | Hne].
    + rewrite Ex. apply Qle_refl.
    + rewrite app_nth1 by lia.
      apply Qle_trans with (nth bi pre 0); [apply Hmax; lia | apply Qlt_le_weak; exact Hx].
  - intros k Hk. rewrite Ex, app_nth1 by lia.
    apply Qle_lt_trans with (nth bi pre 0); [apply Hmax; lia | exact Hx].
Qed.

Lemma argmax_from_first_max (t pre : list Q) (bi : nat) :
  first_max pre bi ->
  first_max (pre ++ t) (argmax_from (nth bi pre 0) bi (length pre) t).
Proof.
  revert pre bi. induction t as [| x t IH]; intros pre bi Hfm; simpl.
  - rewrite app_nil_r. exact Hfm.
  - assert (Eapp : (pre ++ [x]) ++ t = pre ++ x :: t)
      by (rewrite <- app_assoc; reflexivity).
    assert (Elen : length (pre ++ [x]) = S (length pre))
      by (rewrite length_app; simpl; lia).
    destruct (Qle_bool x (nth bi pre 0)) eqn:Hle.
    + apply Qle_bool_iff in Hle.
      pose proof (IH _ _ (first_max_snoc_keep Hfm Hle)) as H.
      rewrite Eapp, Elen in H.
      rewrite (app_nth1 pre [x] 0) in H by apply Hfm.
      exact H.
    + assert (Hlt : nth bi pre 0 < x).
      { apply Qnot_le_lt. intros Hc. apply Qle_bool_iff in Hc. congruence. }
      pose proof (IH _ _ (first_max_snoc_new Hfm Hlt)) as H.
      rewrite Eapp, Elen in H.
      rewrite app_nth2, Nat.sub_diag in H by lia.
      exact H.
Qed.

Lemma argmax_first_max (l : list Q) : l <> [] -> first_max l (argmax l).
Proof.
  destruct l as [| x t]; [congruence | intros _].
  exact (argmax_from_first_max t (first_max_single x)).
Qed.

Lemma find_seq_first (P : nat -> bool) (n s j : nat) :
  (s <= j < s + n)%nat -> P j = true ->
  (forall k, (s <= k < j)%nat -> P k = false) ->
  find P (seq s n) = Some j.
Proof.
  revert s. induction n as [| n IH]; intros s Hj Pj Hlt; [lia |].
  simpl. destruct (Nat.eq_dec s j) as [-> | Hne].
  - rewrite Pj. reflexivity.
  - rewrite (Hlt s) by lia. apply IH; [lia | exact Pj |].
    intros k Hk. apply Hlt. lia.
Qed.

Lemma first_max_index_unique (l : list Q) (j : nat) :
  first_max l j -> first_max_index l = j.
Proof.
  intros [Hj [Hmax Hfirst]]. unfold first_max_index.
  rewrite (@find_seq_first _ (length l) 0 j); [reflexivity | lia | |].
  - apply forallb_forall. intros x Hx.
    destruct (In_nth l x 0 Hx) as [k [Hk <-]].
    apply Qle_bool_iff. apply Hmax. exact Hk.
  - intros k Hk.
    destruct (forallb (fun x => Qle_bool x (nth k l 0)) l) eqn:E; [| reflexivity].
    exfalso. rewrite forallb_forall in E.
    specialize (E (nth j l 0) (nth_In l 0 Hj)).
    apply Qle_bool_iff in E.
    apply (Qlt_not_le _ _ (Hfirst k ltac:(lia))). exact E.
Qed.

(** The scan of [argmax] returns the first index attaining the maximum. *)
Lemma argmax_is_first_max_index (l : list Q) :
  l <> [] -> argmax l = first_max_index l.
Proof.
  intros Hne. symmetry. apply first_max_index_unique.
  apply argmax_first_max. exact Hne.
Qed.

Lemma argmax_lt_length (l : list Q) : l <> [] -> (argmax l < length l)%nat.
Proof. intros Hne. apply (argmax_first_max Hne). Qed.

(** ** Tensors as tables *)

Lemma grid_concat {A : Type} (f : nat -> nat -> A) (lh lw : list nat) :
  concat (map (fun h => map (f h) lw) lh)
  = map (fun hw => f (fst hw) (snd hw)) (list_prod lh lw).
Proof.
  induction lh as [| h lh IH]; simpl.
  - reflexivity.
  - rewrite IH, map_app, map_map. reflexivity.
Qed.

Lemma concat_tabulate3 {A : Type} (N H W : nat) (f : nat -> nat -> nat -> A) :
  map (@concat A) (tabulate3 N H W f) = tabulate_flat N H W f.
Proof.
  unfold tabulate3, tabulate_flat. rewrite map_map.
  apply map_ext. intros n. apply (grid_concat (f n)).
Qed.

Lemma shape2_tabulate {A : Type} (H W : nat) (g : list (list A)) (d : A) :
  shape2 H W g ->
  g = map (fun h => map (fun w => nth w (nth h g []) d) (seq 0 W)) (seq 0 H).
Proof.
  intros [HH HW]. rewrite (list_as_seq g []) at 1. rewrite HH.
  apply map_ext_in. intros h Hh. apply in_seq in Hh.
  rewrite (list_as_seq (nth h g []) d) at 1.
  rewrite Forall_forall in HW. rewrite (HW (nth h g [])); [reflexivity |].
  apply nth_In. lia.
Qed.

Lemma shape3_tabulate {A : Type} (N H W : nat) (a : list (list (list A))) (d : A) :
  shape3 N H W a ->
  a = tabulate3 N H W (fun n h w => nth w (nth h (nth n a []) []) d).
Proof.
  intros [HN Hall]. unfold tabulate3. rewrite (list_as_seq a []) at 1. rewrite HN.
  apply map_ext_in. intros n Hn. apply in_seq in Hn.
  apply shape2_tabulate. rewrite Forall_forall in Hall.
  apply Hall. apply nth_In. lia.
Qed.

Lemma argmax_channels_ok (p : list (list (list Q))) (C H W : nat) :
  shape3 C H W p -> (0 < C)%nat ->
  argmax_channels p
  = Ok (map (fun h =>
          map (fun w =>
            Z.of_nat (first_max_index
                        (map (fun c => nth w (nth h (nth c p []) []) 0) (seq 0 C))))
            (seq 0 W))
          (seq 0 H)).
Proof.
  intros [HC Hall] Hpos.
  destruct p as [| ch0 p']; [simpl in HC; lia |].
  unfold argmax_channels. f_equal.
  assert (Hch0 : shape2 H W ch0) by (inversion Hall; assumption).
  destruct Hch0 as [HH HW]. rewrite HH.
  apply map_ext_in. intros h Hh. apply in_seq in Hh.
  assert (EW : length (hd [] ch0) = W).
  { destruct ch0 as [| r0 ch0']; [simpl in HH; lia |].
    inversion HW; assumption. }
  rewrite EW. apply map_ext. intros w. f_equal.
  rewrite argmax_is_first_max_index by discriminate.
  f_equal. rewrite (map_as_seq _ (ch0 :: p') []). rewrite HC. reflexivity.
Qed.

Lemma argmax_axis1_ok (pred : list (list (list (list Q)))) (N C H W : nat) :
  shape4 N C H W pred -> (0 < C)%nat ->
  argmax_axis1 pred = Ok (tabulate3 N H W (predicted_label pred C)).
Proof.
  intros [HN Hall] Hpos. unfold argmax_axis1, tabulate3.
  rewrite (@mapM_ok_map _ _ _
             (fun p => map (fun h =>
                map (fun w =>
                  Z.of_nat (first_max_index
                     (map (fun c => nth w (nth h (nth c p []) []) 0) (seq 0 C))))
                  (seq 0 W)) (seq 0 H))).
  - f_equal. rewrite (map_as_seq _ pred []). rewrite HN. reflexivity.
  - intros p Hp. rewrite Forall_forall in Hall.
    apply argmax_channels_ok; [apply Hall; exact Hp | exact Hpos].
Qed.

Lemma predicted_label_range (pred : list (list (list (list Q)))) (C n h w : nat) :
  (0 < C)%nat -> (0 <= predicted_label pred C n h w < Z.of_nat C)%Z.
Proof.
  intros Hpos. unfold predicted_label.
  set (l := map (fun c => score pred n c h w) (seq 0 C)).
  assert (Hl : length l = C) by (unfold l; rewrite length_map, length_seq; reflexivity).
  assert (Hne : l <> []) by (intros E; rewrite E in Hl; simpl in Hl; lia).
  rewrite <- (argmax_is_first_max_index Hne).
  pose proof (argmax_lt_length Hne). lia.
Qed.

Lemma length_pixels (H W : nat) : length (pixels H W) = (H * W)%nat.
Proof. unfold pixels. rewrite length_prod, !length_seq. reflexivity. Qed.

Lemma in_pixels (H W : nat) (hw : nat * nat) :
  In hw (pixels H W) -> (fst hw < H)%nat /\ (snd hw < W)%nat.
Proof.
  destruct hw as [h w]. unfold pixels. rewrite in_prod_iff, !in_seq. simpl. lia.
Qed.

(** ** Histograms *)

Lemma broadcast_row_same {A B : Type} (f : A -> A -> A) (g h : B -> A) (l : list B) :
  broadcast_row f (map g l) (map h l) = Ok (map (fun x => f (g x) (h x)) l).
Proof.
  unfold broadcast_row. rewrite !length_map, Nat.eqb_refl, map2_map. reflexivity.
Qed.

Lemma broadcast2_map {A B : Type} (f : A -> A -> A) (g h k : B -> list A) (l : list B) :
  (forall x, In x l -> broadcast_row f (g x) (h x) = Ok (k x)) ->
  broadcast2 f (map g l) (map h l) = Ok (map k l).
Proof.
  induction l as [| x t IH]; intros Hrow; simpl.
  - reflexivity.
  - rewrite (Hrow x (or_introl eq_refl)). simpl.
    rewrite IH by (intros y Hy; apply Hrow; right; exact Hy).
    reflexivity.
Qed.

Lemma broadcast2_tabulate (f : Z -> Z -> Z) (N H W : nat) (a b : nat -> nat -> nat -> Z) :
  broadcast2 f (tabulate_flat N H W a) (tabulate_flat N H W b)
  = Ok (tabulate_flat N H W (fun n h w => f (a n h w) (b n h w))).
Proof.
  unfold tabulate_flat. apply broadcast2_map.
  intros n _. apply broadcast_row_same.
Qed.

Lemma list_maxZ_lt (x : list Z) (M : Z) :
  (0 < M)%Z -> Forall (fun v => v < M)%Z x -> (list_maxZ x < M)%Z.
Proof.
  intros HM. induction 1 as [| v x Hv _ IH]; simpl.
  - exact HM.
  - fold (list_maxZ x). lia.
Qed.

Lemma bincount_in_range (x : list Z) (M : nat) :
  Forall (fun v => 0 <= v < Z.of_nat M)%Z x ->
  bincount x M = Ok (map (fun k => count_eqb (Z.of_nat k) x) (seq 0 M)).
Proof.
  intros Hall. unfold bincount.
  assert (Hneg : existsb (fun v => (v <? 0)%Z) x = false).
  { destruct (existsb _ x) eqn:E; [| reflexivity].
    apply existsb_exists in E. destruct E as [v [Hv Hlt]].
    rewrite Forall_forall in Hall. specialize (Hall v Hv).
    apply Z.ltb_lt in Hlt. lia. }
  rewrite Hneg. destruct x as [| v x']; [reflexivity |].
  assert (HM : (0 < Z.of_nat M)%Z) by (inversion Hall; lia).
  assert (Hmax : (list_maxZ (v :: x') < Z.of_nat M)%Z).
  { apply list_maxZ_lt; [exact HM |].
    eapply Forall_impl; [| exact Hall]. simpl. intros; lia. }
  assert (H0 : (0 <= list_maxZ (v :: x'))%Z).
  { clear. induction (v :: x') as [| a l IH]; simpl; [lia | fold (list_maxZ l); lia]. }
  rewrite Nat.max_l by lia. reflexivity.
Qed.

Lemma apply_along_axis_ok {A B : Type} (f : list A -> result (list B))
    (g : list A -> list B) (arr : list (list A)) (L : nat) :
  arr <> [] ->
  (forall r, In r arr -> f r = Ok (g r)) ->
  (forall r, In r arr -> length (g r) = L) ->
  apply_along_axis f arr = Ok (map g arr).
Proof.
  intros Hne Hf HL. unfold apply_along_axis.
  destruct arr as [| r0 arr']; [congruence |].
  rewrite (mapM_ok_map f g (r0 :: arr') Hf). unfold bind.
  assert (Hall : forallb (fun r => (length r =? length (hd [] (map g (r0 :: arr'))))%nat)
                         (map g (r0 :: arr')) = true).
  { apply forallb_forall. intros r Hr. apply in_map_iff in Hr.
    destruct Hr as [r' [<- Hr']]. simpl hd.
    rewrite (HL r' Hr'), (HL r0 (or_introl eq_refl)). apply Nat.eqb_refl. }
  rewrite Hall. reflexivity.
Qed.

Lemma nth_chunks {A : Type} (k c i j : nat) (l : list A) (d : A) :
  (i < k)%nat -> (j < c)%nat ->
  nth j (nth i (chunks k c l) []) d = nth (i * c + j) l d.
Proof.
  intros Hi Hj. unfold chunks.
  rewrite (nth_map_seq (fun i => firstn c (skipn (i * c) l)) [] Hi).
  rewrite nth_firstn.
  destruct (Nat.ltb_spec j c) as [_ | Hge]; [| lia].
  apply nth_skipn.
Qed.

Lemma shape2_chunks {A : Type} (k c : nat) (l : list A) :
  length l = (k * c)%nat -> shape2 k c (chunks k c l).
Proof.
  intros Hl. unfold chunks. split.
  - rewrite length_map, length_seq. reflexivity.
  - rewrite Forall_forall. intros r Hr. apply in_map_iff in Hr.
    destruct Hr as [i [<- Hi]]. apply in_seq in Hi.
    rewrite length_firstn, length_skipn, Hl. nia.
Qed.

Lemma concat_chunks {A : Type} (k c : nat) (l : list A) :
  length l = (k * c)%nat -> concat (chunks k c l) = l.
Proof.
  revert l. induction k as [| k IH]; intros l Hl.
  - destruct l; [reflexivity | simpl in Hl; lia].
  - unfold chunks. simpl seq. simpl map. simpl concat.
    rewrite <- seq_shift, map_map.
    transitivity (firstn c l ++ skipn c l); [| apply firstn_skipn].
    f_equal.
    rewrite <- (IH (skipn c l)) by (rewrite length_skipn, Hl; simpl; lia).
    unfold chunks. f_equal. apply map_ext. intros i.
    rewrite skipn_skipn. do 2 f_equal. lia.
Qed.

Lemma count_eqb_map {A : Type} (k : Z) (f : A -> Z) (l : list A) :
  count_eqb k (map f l) = Z.of_nat (length (filter (fun a => Z.eqb k (f a)) l)).
Proof.
  unfold count_eqb. f_equal.
  induction l as [| a l IH]; simpl; [reflexivity |].
  destruct (Z.eqb k (f a)); simpl; rewrite IH; reflexivity.
Qed.

Lemma length_histogram (C : nat) (x : list Z) : length (histogram C x) = (C * C)%nat.
Proof. unfold histogram. rewrite length_map, length_seq. reflexivity. Qed.

Lemma reshape_rows_ok {A : Type} (N : nat) (a : list (list (list A))) :
  (0 < N)%nat -> reshape_rows N a = Ok (map (@concat A) a).
Proof. intros HN. destruct N; [lia | reflexivity]. Qed.

Lemma hd_map_seq {A : Type} (f : nat -> list A) (N : nat) :
  (0 < N)%nat -> hd [] (map f (seq 0 N)) = f 0%nat.
Proof. intros HN. destruct N; [lia | reflexivity]. Qed.

(** ** The confusion matrix *)

Section ConfusionMatrix.

Variables (self : Measurement).
Variables (pred : list (list (list (list Q)))) (target : list (list (list Z))).
Variables (N C H W : nat).
Hypothesis Hpred : shape4 N C H W pred.
Hypothesis Htarget : shape3 N H W target.
Hypothesis Hvalid : valid_labels target N C H W.
Hypothesis Hclasses : num_classes self = C.
Hypothesis HN : (0 < N)%nat.
Hypothesis HC : (0 < C)%nat.

Lemma target_flat : map (@concat Z) target = tabulate_flat N H W (label target).
Proof.
  rewrite <- concat_tabulate3. f_equal.
  exact (shape3_tabulate 0%Z Htarget).
Qed.

Lemma codes_in_range (n : nat) :
  (n < N)%nat ->
  Forall (fun v => 0 <= v < Z.of_nat (C * C))%Z (codes pred target C H W n).
Proof.
  clear Hclasses Hpred Htarget HN.
  intros Hn. unfold codes. rewrite Forall_forall. intros v Hv.
  apply in_map_iff in Hv. destruct Hv as [hw [<- Hhw]].
  apply in_pixels in Hhw. destruct Hhw as [Hh Hw].
  pose proof (Hvalid Hn Hh Hw) as Hl.
  pose proof (predicted_label_range pred n (fst hw) (snd hw) HC) as Hp.
  unfold category. nia.
Qed.

Lemma make_confusion_matrix_ok :
  _make_confusion_matrix self pred target
  = Ok (map (fun n => chunks C C (histogram C (codes pred target C H W n)))
            (seq 0 N)).
Proof.
  unfold _make_confusion_matrix.
  destruct Hpred as [HNp _]. destruct Htarget as [HNt _].
  rewrite HNp, HNt, Nat.eqb_refl. cbn [negb].
  rewrite (argmax_axis1_ok Hpred HC). cbn [bind].
  rewrite !(reshape_rows_ok _ HN). cbn [bind].
  rewrite concat_tabulate3, target_flat, Hclasses.
  rewrite broadcast2_tabulate. cbn [bind].
  fold (category pred target C). unfold tabulate_flat.
  rewrite (@apply_along_axis_ok _ _ _ (histogram C) _ (C * C)).
  - cbn [bind]. unfold reshape_square. rewrite !map_map.
    rewrite hd_map_seq by exact HN.
    rewrite length_histogram, Nat.mul_assoc, Nat.eqb_refl. reflexivity.
  - intros E. apply (f_equal (@length _)) in E.
    rewrite length_map, length_seq in E. simpl in E. lia.
  - intros r Hr. apply in_map_iff in Hr. destruct Hr as [n [<- Hn]].
    apply in_seq in Hn. apply bincount_in_range.
    apply codes_in_range. lia.
  - intros r _. apply length_histogram.
Qed.

End ConfusionMatrix.

Lemma category_eqb (C i j : nat) (l p : Z) :
  (0 <= l < Z.of_nat C)%Z -> (0 <= p < Z.of_nat C)%Z -> (j < C)%nat ->
  (Z.of_nat (i * C + j) =? Z.of_nat C * l + p)%Z
  = ((l =? Z.of_nat i)%Z && (p =? Z.of_nat j)%Z).
Proof.
  intros Hl Hp Hj.
  destruct (Z.eqb_spec (Z.of_nat (i * C + j)) (Z.of_nat C * l + p)) as [E | E];
    destruct (Z.eqb_spec l (Z.of_nat i)) as [El | El];
    destruct (Z.eqb_spec p (Z.of_nat j)) as [Ep | Ep];
    simpl; try reflexivity; exfalso; nia.
Qed.

(** C1. For [pred] of shape (N, C, H, W) and [target] of shape (N, H, W)
    with every label in [0, C), [_make_confusion_matrix] returns a matrix
    of shape (N, C, C); the matrix of item [n], read row after row, is the
    histogram with C*C bins of the codes [C * true_label + predicted_label]
    of the pixels of item [n], and its entry [i, j] is the number of pixels
    of item [n] whose true label is [i] and whose predicted label (the
    first class attaining the maximal score) is [j]. *)
Theorem confusion_matrix_counts (self : Measurement)
    (pred : list (list (list (list Q)))) (target : list (list (list Z)))
    (N C H W : nat) :
  shape4 N C H W pred -> shape3 N H W target ->
  valid_labels target N C H W -> num_classes self = C ->
  (0 < N)%nat -> (0 < C)%nat ->
  exists conf_mat,
    _make_confusion_matrix self pred target = Ok conf_mat /\
    shape3 N C C conf_mat /\
    (forall n, (n < N)%nat ->
       concat (nth n conf_mat []) = histogram C (codes pred target C H W n)) /\
    (forall n i j, (n < N)%nat -> (i < C)%nat -> (j < C)%nat ->
       entry conf_mat n i j
       = count_pixels H W (fun h w =>
           (label target n h w =? Z.of_nat i)%Z
           && (predicted_label pred C n h w =? Z.of_nat j)%Z)).
Proof.
  intros Hp Ht Hv Hcl HN HC.
  exists (map (fun n => chunks C C (histogram C (codes pred target C H W n)))
              (seq 0 N)).
  split; [apply make_confusion_matrix_ok; assumption |].
  split; [| split].
  - split; [rewrite length_map, length_seq; reflexivity |].
    rewrite Forall_forall. intros m Hm. apply in_map_iff in Hm.
    destruct Hm as [n [<- _]]. apply shape2_chunks. apply length_histogram.
  - intros n Hn.
    rewrite (nth_map_seq (fun n => chunks C C (histogram C (codes pred target C H W n)))
               [] Hn).
    apply concat_chunks. apply length_histogram.
  - intros n i j Hn Hi Hj. unfold entry.
    rewrite (nth_map_seq (fun n => chunks C C (histogram C (codes pred target C H W n)))
               [] Hn).
    rewrite (nth_chunks _ 0%Z Hi Hj). unfold histogram.
    rewrite (nth_map_seq (fun k => count_eqb (Z.of_nat k) (codes pred target C H W n))
               0%Z) by nia.
    unfold codes. rewrite count_eqb_map. unfold count_pixels. do 2 f_equal.
    apply filter_ext_in. intros hw Hhw. apply in_pixels in Hhw.
    destruct Hhw as [Hh Hw]. unfold category.
    apply category_eqb;
      [apply Hv; assumption | apply predicted_label_range; exact HC | exact Hj].
Qed.

Lemma confusion_matrix_counts_witness :
  exists conf_mat,
    _make_confusion_matrix {| num_classes := 3; ignore_idx := None |}
      [[[[1; 0]; [0; 1]]; [[1; 1]; [0; 0]]; [[0; 0]; [1 # 2; 1]]]]
      [[[0; 1]; [2; 0]]]%Z = Ok conf_mat /\
    entry conf_mat 0 0 0 = 2%Z /\ entry conf_mat 0 1 1 = 1%Z /\
    entry conf_mat 0 2 2 = 1%Z.
Proof.
  destruct (@confusion_matrix_counts {| num_classes := 3; ignore_idx := None |}
              [[[[1; 0]; [0; 1]]; [[1; 1]; [0; 0]]; [[0; 0]; [1 # 2; 1]]]]
              [[[0; 1]; [2; 0]]]%Z 1 3 2 2)
    as [cm [H1 [_ [_ H4]]]].
  - split; [reflexivity |]. repeat constructor.
  - split; [reflexivity |]. repeat constructor.
  - intros n h w Hn Hh Hw.
    destruct n as [| n]; [| lia].
    destruct h as [| [| h]]; try lia; destruct w as [| [| w]]; try lia;
      unfold label; simpl; lia.
  - reflexivity.
  - lia.
  - lia.
  - exists cm. split; [exact H1 |].
    rewrite !H4 by lia. repeat split; reflexivity.
Defined.

(** ** Every pixel is counted once *)

Lemma zsum_app (l l' : list Z) : zsum (l ++ l') = (zsum l + zsum l')%Z.
Proof.
  induction l as [| a l IH]; simpl; [reflexivity |].
  fold (zsum (l ++ l')). fold (zsum l). rewrite IH. lia.
Qed.

Lemma zsum_concat (m : list (list Z)) : zsum (concat m) = zsum (map zsum m).
Proof.
  induction m as [| r m IH]; simpl; [reflexivity |].
  rewrite zsum_app, IH. reflexivity.
Qed.

Lemma zsum_map_add {A : Type} (f g : A -> Z) (l : list A) :
  zsum (map (fun a => f a + g a)%Z l) = (zsum (map f l) + zsum (map g l))%Z.
Proof.
  induction l as [| a l IH]; simpl; [reflexivity |].
  fold (zsum (map (fun a => f a + g a)%Z l)).
  fold (zsum (map f l)). fold (zsum (map g l)). rewrite IH. lia.
Qed.

Lemma zsum_indicator (a : Z) (M : nat) :
  (0 <= a)%Z ->
  zsum (map (fun k => if (Z.of_nat k =? a)%Z then 1 else 0)%Z (seq 0 M))
  = (if (a <? Z.of_nat M)%Z then 1 else 0)%Z.
Proof.
  intros Ha. induction M as [| M IH].
  - simpl. destruct (Z.ltb_spec a 0); [lia | reflexivity].
  - rewrite seq_S, map_app, zsum_app, IH.
    cbn [Nat.add map zsum fold_right].
    destruct (Z.eqb_spec (Z.of_nat M) a) as [E | E];
      destruct (Z.ltb_spec a (Z.of_nat M));
      destruct (Z.ltb_spec a (Z.of_nat (S M))); lia.
Qed.

Lemma count_eqb_cons (k a : Z) (x : list Z) :
  count_eqb k (a :: x) = ((if (k =? a)%Z then 1 else 0) + count_eqb k x)%Z.
Proof.
  unfold count_eqb. simpl. destruct (k =? a)%Z; simpl length; lia.
Qed.

Lemma zsum_histogram (x : list Z) (M : nat) :
  Forall (fun v => 0 <= v < Z.of_nat M)%Z x ->
  zsum (map (fun k => count_eqb (Z.of_nat k) x) (seq 0 M)) = Z.of_nat (length x).
Proof.
  induction 1 as [| a x Ha _ IH].
  - simpl length. induction (seq 0 M) as [| k l IHl]; simpl; [reflexivity |].
    fold (zsum (map (fun k => count_eqb (Z.of_nat k) []) l)). rewrite IHl.
    reflexivity.
  - rewrite (map_ext _ (fun k => (if (Z.of_nat k =? a)%Z then 1 else 0)
                                 + count_eqb (Z.of_nat k) x)%Z)
      by (intros k; apply count_eqb_cons).
    rewrite (zsum_map_add (fun k => if (Z.of_nat k =? a)%Z then 1 else 0)%Z
                          (fun k => count_eqb (Z.of_nat k) x)).
    rewrite IH, zsum_indicator by lia.
    destruct (Z.ltb_spec a (Z.of_nat M)); [| lia].
    simpl length. lia.
Qed.

Lemma total_count_concat (conf_mat : list (list (list Z))) (N C n : nat) :
  shape3 N C C conf_mat -> (n < N)%nat ->
  total_count conf_mat C n = zsum (concat (nth n conf_mat [])).
Proof.
  intros [HN Hall] Hn. rewrite zsum_concat. unfold total_count, entry.
  rewrite Forall_forall in Hall.
  assert (Hm : shape2 C C (nth n conf_mat [])) by (apply Hall; apply nth_In; lia).
  remember (nth n conf_mat []) as m eqn:Em. clear Em.
  symmetry. rewrite (shape2_tabulate 0%Z Hm) at 1.
  rewrite map_map. reflexivity.
Qed.

(** C2. For a valid input and every batch item [n], the entries of the
    confusion matrix of item [n] add up to H*W.  [ignore_idx] plays no
    part: the matrix is the one obtained without it, and pixels labelled
    [ignore_idx] are counted like the others. *)
Theorem confusion_matrix_total (ig : option Z)
    (pred : list (list (list (list Q)))) (target : list (list (list Z)))
    (N C H W n : nat) :
  shape4 N C H W pred -> shape3 N H W target ->
  valid_labels target N C H W -> (0 < C)%nat -> (n < N)%nat ->
  exists conf_mat,
    _make_confusion_matrix {| num_classes := C; ignore_idx := ig |} pred target
    = Ok conf_mat /\
    _make_confusion_matrix {| num_classes := C; ignore_idx := None |} pred target
    = Ok conf_mat /\
    total_count conf_mat C n = Z.of_nat (H * W).
Proof.
  intros Hp Ht Hv HC Hn.
  assert (HN : (0 < N)%nat) by lia.
  pose (cm := map (fun n => chunks C C (histogram C (codes pred target C H W n)))
                  (seq 0 N)).
  assert (Hok : forall self, num_classes self = C ->
                  _make_confusion_matrix self pred target = Ok cm).
  { intros self Hcl. apply make_confusion_matrix_ok; assumption. }
  exists cm. split; [apply Hok; reflexivity |]. split; [apply Hok; reflexivity |].
  assert (Hs : shape3 N C C cm).
  { split; [unfold cm; rewrite length_map, length_seq; reflexivity |].
    rewrite Forall_forall. intros m Hm. apply in_map_iff in Hm.
    destruct Hm as [k [<- _]]. apply shape2_chunks. apply length_histogram. }
  rewrite (total_count_concat Hs Hn). unfold cm.
  rewrite (nth_map_seq (fun n => chunks C C (histogram C (codes pred target C H W n)))
             [] Hn).
  rewrite concat_chunks by apply length_histogram.
  unfold histogram. rewrite zsum_histogram.
  - unfold codes. rewrite length_map, length_pixels. reflexivity.
  - apply (@codes_in_range pred target N C H W); assumption.
Qed.

(** Two items of 2 x 2 pixels, with [ignore_idx = 1] configured. *)
Lemma confusion_matrix_total_witness :
  exists conf_mat,
    _make_confusion_matrix {| num_classes := 2; ignore_idx := Some 1%Z |}
      [[[[1; 0]; [0; 1]]; [[0; 1]; [0; 0]]];
       [[[0; 0]; [0; 0]]; [[1; 1]; [1; 1]]]]
      [[[0; 1]; [1; 1]]; [[1; 1]; [1; 1]]]%Z = Ok conf_mat /\
    total_count conf_mat 2 1 = 4%Z.
Proof.
  destruct (@confusion_matrix_total (Some 1%Z)
              [[[[1; 0]; [0; 1]]; [[0; 1]; [0; 0]]];
               [[[0; 0]; [0; 0]]; [[1; 1]; [1; 1]]]]
              [[[0; 1]; [1; 1]]; [[1; 1]; [1; 1]]]%Z 2 2 2 2 1)
    as [cm [H1 [_ H3]]].
  - split; [reflexivity |]. repeat constructor.
  - split; [reflexivity |]. repeat constructor.
  - intros n h w Hn Hh Hw.
    destruct n as [| [| n]]; try lia;
      destruct h as [| [| h]]; try lia; destruct w as [| [| w]]; try lia;
      unfold label; simpl; lia.
  - lia.
  - lia.
  - exists cm. split; [exact H1 | exact H3].
Defined.

(** ** Pixel accuracy without [ignore_idx] *)

Lemma count_equal_map {A : Type} (f g : A -> Z) (l : list A) :
  count_equal (map f l) (map g l)
  = Z.of_nat (length (filter (fun a => (f a =? g a)%Z) l)).
Proof.
  unfold count_equal. rewrite map2_map. f_equal.
  rewrite (filter_map_swap (fun b : bool => b)), length_map. reflexivity.
Qed.

Lemma filter_length_le {A : Type} (P : A -> bool) (l : list A) :
  (length (filter P l) <= length l)%nat.
Proof.
  induction l as [| a l IH]; simpl; [lia |].
  destruct (P a); simpl; lia.
Qed.

Lemma filter_all_length {A : Type} (P : A -> bool) (l : list A) :
  (forall a, In a l -> P a = true) -> length (filter P l) = length l.
Proof.
  intros H. rewrite forallb_filter_id; [reflexivity |].
  apply forallb_forall. exact H.
Qed.

Lemma count_pixels_bounds (H W : nat) (P : nat -> nat -> bool) :
  (0 <= count_pixels H W P <= Z.of_nat (H * W))%Z.
Proof.
  unfold count_pixels.
  pose proof (filter_length_le (fun hw => P (fst hw) (snd hw)) (pixels H W)) as Hle.
  rewrite length_pixels in Hle. lia.
Qed.

Lemma count_pixels_all (H W : nat) (P : nat -> nat -> bool) :
  (forall h w, (h < H)%nat -> (w < W)%nat -> P h w = true) ->
  count_pixels H W P = Z.of_nat (H * W).
Proof.
  intros HP. unfold count_pixels. rewrite filter_all_length, length_pixels.
  - reflexivity.
  - intros hw Hhw. apply in_pixels in Hhw. apply HP; apply Hhw.
Qed.

Lemma fsum_all_one (l : list fval) :
  Forall (fun a => feq a (Fin 1)) l ->
  exists s, fsum l = Fin s /\ s == inject_Z (Z.of_nat (length l)).
Proof.
  induction 1 as [| a l Ha _ IH].
  - exists 0. split; reflexivity.
  - destruct IH as [s [Es Hs]].
    destruct a as [q | | |]; simpl in Ha; try contradiction.
    exists (q + s). split.
    + simpl. fold (fsum l). rewrite Es. reflexivity.
    + cbn [length]. rewrite Nat2Z.inj_succ. unfold Z.succ.
      rewrite inject_Z_plus, Ha, Hs. change (inject_Z 1) with 1. ring.
Qed.

Lemma np_mean_all_one (l : list fval) :
  l <> [] -> Forall (fun a => feq a (Fin 1)) l -> feq (np_mean l) (Fin 1).
Proof.
  intros Hne Hall.
  destruct (fsum_all_one Hall) as [s [Es Hs]].
  assert (Hlen : 0 < inject_Z (Z.of_nat (length l))).
  { apply of_nat_pos. destruct l; [congruence | simpl; lia]. }
  unfold np_mean, of_nat, of_Z. rewrite Es, (fdiv_pos _ Hlen). simpl.
  rewrite Hs. field. intros E. rewrite E in Hlen. apply (Qlt_irrefl 0). exact Hlen.
Qed.

Lemma accuracy_plain_ok (self : Measurement)
    (pred : list (list (list (list Q)))) (target : list (list (list Z)))
    (N C H W : nat) :
  ignore_idx self = None ->
  shape4 N C H W pred -> shape3 N H W target -> (0 < C)%nat ->
  accuracy self pred target
  = Ok (mean_over N (item_accuracy pred target C H W)).
Proof.
  intros Hig Hp Ht HC. unfold accuracy.
  rewrite (argmax_axis1_ok Hp HC). cbn [bind].
  rewrite Hig, concat_tabulate3, (target_flat Ht). f_equal.
  unfold mean_over. f_equal. unfold tabulate_flat.
  rewrite map2_map, map_map.
  destruct N as [| N']; [reflexivity |].
  rewrite hd_map_seq by lia. rewrite length_map, length_pixels.
  apply map_ext. intros n. unfold item_accuracy. f_equal. f_equal.
  rewrite count_equal_map. reflexivity.
Qed.

Lemma item_accuracy_in_unit (pred : list (list (list (list Q))))
    (target : list (list (list Z))) (C H W n : nat) :
  (0 < H * W)%nat -> in_unit (item_accuracy pred target C H W n).
Proof.
  intros Hpos. unfold item_accuracy, of_nat, of_Z.
  pose proof (count_pixels_bounds H W (correct pred target C n)) as [H0 H1].
  assert (Hlen : 0 < inject_Z (Z.of_nat (H * W))) by (apply of_nat_pos; exact Hpos).
  rewrite (fdiv_pos _ Hlen). simpl.
  assert (Q0 : 0 <= inject_Z (count_pixels H W (correct pred target C n))).
  { change 0 with (inject_Z 0). rewrite <- Zle_Qle. exact H0. }
  assert (Q1 : inject_Z (count_pixels H W (correct pred target C n))
               <= inject_Z (Z.of_nat (H * W))) by (rewrite <- Zle_Qle; exact H1).
  split.
  - apply Qle_shift_div_l; [exact Hlen | lra].
  - apply Qle_shift_div_r; [exact Hlen | lra].
Qed.

(** C6. Without [ignore_idx], [accuracy] on [pred] of shape (N, C, H, W)
    and [target] of shape (N, H, W) is the mean over the batch items of
    (number of pixels of the item whose arg-max equals the label) / (H*W);
    for a batch with at least one item and one pixel per item it is a
    value between 0 and 1, and it is 1 when the arg-max equals the label
    at every pixel. *)
Theorem accuracy_without_ignore (self : Measurement)
    (pred : list (list (list (list Q)))) (target : list (list (list Z)))
    (N C H W : nat) :
  ignore_idx self = None ->
  shape4 N C H W pred -> shape3 N H W target -> (0 < C)%nat ->
  exists v,
    accuracy self pred target = Ok v /\
    v = mean_over N (item_accuracy pred target C H W) /\
    ((0 < N)%nat -> (0 < H * W)%nat ->
     (exists q, v = Fin q /\ 0 <= q <= 1) /\
     ((forall n h w, (n < N)%nat -> (h < H)%nat -> (w < W)%nat ->
         predicted_label pred C n h w = label target n h w) ->
      feq v (Fin 1))).
Proof.
  intros Hig Hp Ht HC.
  exists (mean_over N (item_accuracy pred target C H W)).
  split; [apply accuracy_plain_ok; assumption |].
  split; [reflexivity |].
  intros HN HHW.
  assert (Hne : map (item_accuracy pred target C H W) (seq 0 N) <> []).
  { destruct N; [lia | discriminate]. }
  split.
  - assert (Hu : in_unit (mean_over N (item_accuracy pred target C H W))).
    { unfold mean_over. apply np_mean_unit; [exact Hne |].
      rewrite Forall_forall. intros a Ha. apply in_map_iff in Ha.
      destruct Ha as [n [<- _]]. apply item_accuracy_in_unit. exact HHW. }
    destruct (mean_over N (item_accuracy pred target C H W)) as [q | | |];
      simpl in Hu; try contradiction.
    exists q. split; [reflexivity | exact Hu].
  - intros Hall. unfold mean_over. apply np_mean_all_one; [exact Hne |].
    rewrite Forall_forall. intros a Ha. apply in_map_iff in Ha.
    destruct Ha as [n [<- Hn]]. apply in_seq in Hn.
    unfold item_accuracy. rewrite count_pixels_all.
    + unfold of_nat, of_Z.
      assert (Hlen : 0 < inject_Z (Z.of_nat (H * W))) by (apply of_nat_pos; exact HHW).
      rewrite (fdiv_pos _ Hlen). simpl. field.
      intros E. rewrite E in Hlen. apply (Qlt_irrefl 0). exact Hlen.
    + intros h w Hh Hw. unfold correct. apply Z.eqb_eq. apply Hall; [lia | exact Hh | exact Hw].
Qed.

(** The 2 x 2 grid with labels 0, 1, 2, 0 and a matching prediction. *)
Lemma accuracy_without_ignore_witness :
  exists v,
    accuracy {| num_classes := 3; ignore_idx := None |}
      [[[[1; 0]; [0; 1]]; [[0; 1]; [0; 0]]; [[0; 0]; [1; 0]]]]
      [[[0; 1]; [2; 0]]]%Z = Ok v /\
    (exists q, v = Fin q /\ 0 <= q <= 1) /\ feq v (Fin 1).
Proof.
  destruct (@accuracy_without_ignore {| num_classes := 3; ignore_idx := None |}
              [[[[1; 0]; [0; 1]]; [[0; 1]; [0; 0]]; [[0; 0]; [1; 0]]]]
              [[[0; 1]; [2; 0]]]%Z 1 3 2 2)
    as [v [H1 [_ H3]]].
  - reflexivity.
  - split; [reflexivity |]. repeat constructor.
  - split; [reflexivity |]. repeat constructor.
  - lia.
  - exists v. split; [exact H1 |].
    destruct H3 as [Hb Hone]; [lia | simpl; lia |].
    split; [exact Hb |]. apply Hone.
    intros n h w Hn Hh Hw.
    destruct n as [| n]; [| lia].
    destruct h as [| [| h]]; try lia; destruct w as [| [| w]]; try lia;
      reflexivity.
Defined.

(** ** Pixel accuracy with [ignore_idx] *)

Lemma combine_seq_map {A : Type} (F : nat -> A) (N s : nat) :
  combine (seq s N) (map F (seq s N)) = map (fun n => (n, F n)) (seq s N).
Proof.
  revert s. induction N as [| N IH]; intros s; simpl; [reflexivity |].
  rewrite IH. reflexivity.
Qed.

Lemma np_where_tabulate (N H W : nat) (f : nat -> nat -> nat -> Z) (ig : Z) :
  np_where_ne (tabulate_flat N H W f) ig
  = concat (map (fun n =>
                   map (pair n)
                       (filter (fun c => negb (flat_at H W f n c =? ig)%Z)
                               (seq 0 (H * W))))
                (seq 0 N)).
Proof.
  unfold np_where_ne, tabulate_flat.
  rewrite length_map, length_seq, combine_seq_map, map_map. f_equal.
  apply map_ext. intros n. cbn [fst snd].
  rewrite length_map, length_pixels. reflexivity.
Qed.

Lemma nth_error_map_seq {A : Type} (F : nat -> A) (N n : nat) :
  (n < N)%nat -> nth_error (map F (seq 0 N)) n = Some (F n).
Proof.
  intros Hn. rewrite (nth_error_nth' _ (F 0%nat))
    by (rewrite length_map, length_seq; exact Hn).
  rewrite (nth_map_seq F (F 0%nat) Hn). reflexivity.
Qed.

Lemma take_at_tabulate (N H W : nat) (f : nat -> nat -> nat -> Z)
    (idxs : list (nat * nat)) :
  (forall rc, In rc idxs -> (fst rc < N)%nat /\ (snd rc < H * W)%nat) ->
  take_at (tabulate_flat N H W f) idxs
  = Ok (map (fun rc => flat_at H W f (fst rc) (snd rc)) idxs).
Proof.
  intros Hin. unfold take_at, tabulate_flat. apply mapM_ok_map.
  intros rc Hrc. destruct (Hin rc Hrc) as [Hr Hc].
  rewrite (nth_error_map_seq _ Hr).
  rewrite (nth_error_nth' _ 0%Z) by (rewrite length_map, length_pixels; exact Hc).
  reflexivity.
Qed.

Lemma in_where_range (N H W : nat) (f : nat -> nat -> nat -> Z) (ig : Z)
    (rc : nat * nat) :
  In rc (np_where_ne (tabulate_flat N H W f) ig) ->
  (fst rc < N)%nat /\ (snd rc < H * W)%nat.
Proof.
  rewrite np_where_tabulate. intros Hin.
  apply in_concat in Hin. destruct Hin as [l [Hl Hrc]].
  apply in_map_iff in Hl. destruct Hl as [n [<- Hn]]. apply in_seq in Hn.
  apply in_map_iff in Hrc. destruct Hrc as [c [<- Hc]].
  apply filter_In in Hc. destruct Hc as [Hc _]. apply in_seq in Hc.
  simpl. lia.
Qed.

Lemma length_concat_zsum {A : Type} (g : nat -> list A) (l : list nat) :
  Z.of_nat (length (concat (map g l)))
  = zsum (map (fun n => Z.of_nat (length (g n))) l).
Proof.
  induction l as [| n l IH]; simpl; [reflexivity |].
  rewrite length_app, Nat2Z.inj_add, IH. reflexivity.
Qed.

Lemma filter_filter_andb {A : Type} (f g : A -> bool) (l : list A) :
  filter f (filter g l) = filter (fun a => g a && f a) l.
Proof.
  induction l as [| a l IH]; simpl; [reflexivity |].
  destruct (g a); simpl; [destruct (f a) |]; rewrite IH; reflexivity.
Qed.

Lemma filter_positions {A : Type} (f g : A -> Z) (Qb : Z -> Z -> bool) (l : list A) :
  length (filter (fun c => Qb (nth c (map f l) 0%Z) (nth c (map g l) 0%Z))
                 (seq 0 (length l)))
  = length (filter (fun a => Qb (f a) (g a)) l).
Proof.
  induction l as [| a l IH]; [reflexivity |].
  cbn [length seq filter map nth].
  rewrite <- seq_shift, filter_map_swap.
  destruct (Qb (f a) (g a)); cbn [length]; rewrite length_map; cbn beta iota;
    rewrite IH; reflexivity.
Qed.

Section AccuracyIgnore.

Variables (self : Measurement) (ig : Z).
Variables (pred : list (list (list (list Q)))) (target : list (list (list Z))).
Variables (N C H W : nat).
Hypothesis Hig : ignore_idx self = Some ig.
Hypothesis Hpred : shape4 N C H W pred.
Hypothesis Htarget : shape3 N H W target.
Hypothesis HC : (0 < C)%nat.

Lemma kept_count :
  Z.of_nat (length (np_where_ne (tabulate_flat N H W (label target)) ig)) = count_batch N H W (kept target ig).
Proof.
  rewrite np_where_tabulate, length_concat_zsum.
  unfold count_batch. f_equal. apply map_ext. intros n.
  rewrite length_map. unfold count_pixels. f_equal.
  rewrite <- length_pixels.
  exact (filter_positions (fun hw => (label target) n (fst hw) (snd hw))
           (fun hw => (label target) n (fst hw) (snd hw))
           (fun _ t => negb (t =? ig)%Z) (pixels H W)).
Qed.

Lemma kept_correct_count :
  Z.of_nat (length (filter (fun rc => (flat_at H W (predicted_label pred C) (fst rc) (snd rc)
                                       =? flat_at H W (label target) (fst rc) (snd rc))%Z)
                           (np_where_ne (tabulate_flat N H W (label target)) ig)))
  = count_batch N H W
      (fun n h w => kept target ig n h w && correct pred target C n h w).
Proof.
  rewrite np_where_tabulate.
  rewrite <- concat_filter_map, map_map, length_concat_zsum.
  unfold count_batch. f_equal. apply map_ext. intros n.
  rewrite filter_map_swap, length_map, filter_filter_andb. cbn [fst snd].
  unfold count_pixels. f_equal.
  rewrite <- length_pixels.
  exact (filter_positions (fun hw => (predicted_label pred C) n (fst hw) (snd hw))
           (fun hw => (label target) n (fst hw) (snd hw))
           (fun p t => negb (t =? ig)%Z && (p =? t)%Z) (pixels H W)).
Qed.

Lemma accuracy_ignore_ok :
  accuracy self pred target
  = Ok (np_mean [pooled_accuracy pred target ig N C H W]).
Proof.
  unfold accuracy.
  rewrite (argmax_axis1_ok Hpred HC). cbn [bind].
  rewrite Hig, concat_tabulate3, (target_flat Htarget).
  rewrite !take_at_tabulate by (intros rc Hrc; apply (in_where_range _ _ _ _ _ _ Hrc)).
  cbn [bind]. rewrite count_equal_map, length_map.
  rewrite kept_correct_count. unfold of_nat. rewrite kept_count.
  reflexivity.
Qed.

End AccuracyIgnore.

Lemma np_mean_single_fin (x : Q) : exists q, np_mean [Fin x] = Fin q /\ q == x.
Proof.
  exists ((x + 0) / inject_Z (Z.of_nat 1)). split; [reflexivity |].
  change (inject_Z (Z.of_nat 1)) with 1. field.
Qed.

Lemma filter_none_length {A : Type} (P : A -> bool) (l : list A) :
  (forall a, In a l -> P a = false) -> length (filter P l) = 0%nat.
Proof.
  induction l as [| a l IH]; intros HP; simpl; [reflexivity |].
  rewrite (HP a (or_introl eq_refl)). apply IH.
  intros b Hb. apply HP. right. exact Hb.
Qed.

Lemma count_pixels_none (H W : nat) (P : nat -> nat -> bool) :
  (forall h w, (h < H)%nat -> (w < W)%nat -> P h w = false) ->
  count_pixels H W P = 0%Z.
Proof.
  intros HP. unfold count_pixels. rewrite filter_none_length; [reflexivity |].
  intros hw Hhw. apply in_pixels in Hhw. apply HP; apply Hhw.
Qed.

Lemma count_pixels_pos (H W : nat) (P : nat -> nat -> bool) (h w : nat) :
  (h < H)%nat -> (w < W)%nat -> P h w = true -> (0 < count_pixels H W P)%Z.
Proof.
  intros Hh Hw HP. unfold count_pixels.
  assert (Hin : In (h, w) (filter (fun hw => P (fst hw) (snd hw)) (pixels H W))).
  { apply filter_In. split; [| exact HP].
    unfold pixels. apply in_prod_iff. rewrite !in_seq. lia. }
  destruct (filter _ (pixels H W)); [contradiction | simpl; lia].
Qed.

Lemma count_batch_zero (N H W : nat) (P : nat -> nat -> nat -> bool) :
  (forall n, (n < N)%nat -> count_pixels H W (P n) = 0%Z) ->
  count_batch N H W P = 0%Z.
Proof.
  intros HP. unfold count_batch.
  rewrite (map_ext_in _ (fun _ => 0%Z))
    by (intros n Hn; apply in_seq in Hn; apply HP; lia).
  induction (seq 0 N) as [| k l IH]; simpl; [reflexivity | exact IH].
Qed.

Lemma count_batch_pos (N H W : nat) (P : nat -> nat -> nat -> bool) (n h w : nat) :
  (n < N)%nat -> (h < H)%nat -> (w < W)%nat -> P n h w = true ->
  (0 < count_batch N H W P)%Z.
Proof.
  intros Hn Hh Hw HP. unfold count_batch.
  pose proof (@zsum_ge_term (fun n => count_pixels H W (P n)) N n
                (fun k => proj1 (count_pixels_bounds H W (P k))) Hn) as Hge.
  pose proof (@count_pixels_pos H W (P n) h w Hh Hw HP) as Hpos.
  simpl in Hge. lia.
Qed.

Lemma fdiv_of_Z_pos (a b : Z) :
  (0 < b)%Z -> fdiv (of_Z a) (of_Z b) = Fin (inject_Z a / inject_Z b).
Proof.
  intros Hb. unfold of_Z. apply fdiv_pos.
  change 0 with (inject_Z 0). rewrite <- Zlt_Qlt. exact Hb.
Qed.

Lemma fsum_ratios (c : nat -> Z) (k : Z) (l : list nat) :
  (0 < k)%Z ->
  exists s, fsum (map (fun n => fdiv (of_Z (c n)) (of_Z k)) l) = Fin s /\
            s == inject_Z (zsum (map c l)) / inject_Z k.
Proof.
  intros Hk.
  assert (Hk' : ~ inject_Z k == 0).
  { intros E. unfold Qeq in E. simpl in E. lia. }
  induction l as [| n l IH].
  - exists 0. split; [reflexivity |]. simpl. field. exact Hk'.
  - destruct IH as [s [Es Hs]].
    exists (inject_Z (c n) / inject_Z k + s). split.
    + cbn [map fsum fold_right]. fold (fsum (map (fun n => fdiv (of_Z (c n)) (of_Z k)) l)).
      rewrite Es, (fdiv_of_Z_pos _ Hk). reflexivity.
    + cbn [map zsum fold_right]. fold (zsum (map c l)).
      rewrite inject_Z_plus, Hs. field. exact Hk'.
Qed.

Lemma zsum_const {A : Type} (k : Z) (l : list A) :
  zsum (map (fun _ => k) l) = (Z.of_nat (length l) * k)%Z.
Proof.
  induction l as [| a l IH]; [reflexivity |].
  cbn [map zsum fold_right length]. fold (zsum (map (fun _ : A => k) l)).
  rewrite IH. lia.
Qed.

Lemma pooled_all_ignored (pred : list (list (list (list Q))))
    (target : list (list (list Z))) (ig : Z) (N C H W : nat) :
  (forall n h w, (n < N)%nat -> (h < H)%nat -> (w < W)%nat ->
     label target n h w = ig) ->
  pooled_accuracy pred target ig N C H W = NaN.
Proof.
  intros Hall. unfold pooled_accuracy.
  rewrite !count_batch_zero; [reflexivity | |].
  - intros n Hn. apply count_pixels_none. intros h w Hh Hw.
    unfold kept. rewrite (Hall n h w Hn Hh Hw), Z.eqb_refl. reflexivity.
  - intros n Hn. apply count_pixels_none. intros h w Hh Hw.
    unfold kept. rewrite (Hall n h w Hn Hh Hw), Z.eqb_refl. reflexivity.
Qed.

Lemma pooled_some_kept (pred : list (list (list (list Q))))
    (target : list (list (list Z))) (ig : Z) (N C H W : nat) :
  (exists n h w, (n < N)%nat /\ (h < H)%nat /\ (w < W)%nat /\
     label target n h w <> ig) ->
  (0 < count_batch N H W (kept target ig))%Z /\
  pooled_accuracy pred target ig N C H W
  = Fin (inject_Z (count_batch N H W
                     (fun n h w => kept target ig n h w && correct pred target C n h w))
         / inject_Z (count_batch N H W (kept target ig))).
Proof.
  intros [n [h [w [Hn [Hh [Hw Hne]]]]]].
  assert (Hpos : (0 < count_batch N H W (kept target ig))%Z).
  { apply (@count_batch_pos N H W (kept target ig) n h w Hn Hh Hw).
    unfold kept. apply negb_true_iff. apply Z.eqb_neq. exact Hne. }
  split; [exact Hpos |].
  unfold pooled_accuracy. apply fdiv_of_Z_pos. exact Hpos.
Qed.

(** C8, as the code has it.  With [ignore_idx] configured the filter pools
    the kept pixels of the whole batch: the division by zero happens when
    the filter removes every pixel of every item, and gives not-a-number;
    as soon as one pixel of one item is kept the result is finite,
    whatever the filter removed from the other items. *)
Theorem accuracy_division_by_zero (self : Measurement) (ig : Z)
    (pred : list (list (list (list Q)))) (target : list (list (list Z)))
    (N C H W : nat) :
  ignore_idx self = Some ig ->
  shape4 N C H W pred -> shape3 N H W target -> (0 < C)%nat ->
  ((forall n h w, (n < N)%nat -> (h < H)%nat -> (w < W)%nat ->
      label target n h w = ig) ->
   accuracy self pred target = Ok NaN) /\
  ((exists n h w, (n < N)%nat /\ (h < H)%nat /\ (w < W)%nat /\
      label target n h w <> ig) ->
   exists q, accuracy self pred target = Ok (Fin q)).
Proof.
  intros Hig Hp Ht HC.
  rewrite (@accuracy_ignore_ok self ig pred target N C H W Hig Hp Ht HC). split.
  - intros Hall. rewrite (@pooled_all_ignored pred target ig N C H W Hall). reflexivity.
  - intros Hex. destruct (@pooled_some_kept pred target ig N C H W Hex) as [_ ->].
    destruct (np_mean_single_fin
                (inject_Z (count_batch N H W
                   (fun n h w => kept target ig n h w && correct pred target C n h w))
                 / inject_Z (count_batch N H W (kept target ig)))) as [q [Eq _]].
    exists q. rewrite Eq. reflexivity.
Qed.

(** Every label of both items is the ignored one; then a single pixel of
    item 0 is not. *)
Lemma accuracy_division_by_zero_witness :
  accuracy {| num_classes := 2; ignore_idx := Some 1%Z |}
    [[[[1; 0]; [0; 1]]; [[0; 1]; [0; 0]]];
     [[[0; 0]; [0; 0]]; [[1; 1]; [1; 1]]]]
    [[[1; 1]; [1; 1]]; [[1; 1]; [1; 1]]]%Z = Ok NaN /\
  exists q,
    accuracy {| num_classes := 2; ignore_idx := Some 1%Z |}
      [[[[1; 0]; [0; 1]]; [[0; 1]; [0; 0]]];
       [[[0; 0]; [0; 0]]; [[1; 1]; [1; 1]]]]
      [[[0; 1]; [1; 1]]; [[1; 1]; [1; 1]]]%Z = Ok (Fin q).
Proof.
  split.
  - apply (@accuracy_division_by_zero {| num_classes := 2; ignore_idx := Some 1%Z |}
             1%Z _ _ 2 2 2 2).
    + reflexivity.
    + split; [reflexivity |]. repeat constructor.
    + split; [reflexivity |]. repeat constructor.
    + lia.
    + intros n h w Hn Hh Hw.
      destruct n as [| [| n]]; try lia;
        destruct h as [| [| h]]; try lia; destruct w as [| [| w]]; try lia;
        reflexivity.
  - apply (@accuracy_division_by_zero {| num_classes := 2; ignore_idx := Some 1%Z |}
             1%Z _ _ 2 2 2 2).
    + reflexivity.
    + split; [reflexivity |]. repeat constructor.
    + split; [reflexivity |]. repeat constructor.
    + lia.
    + exists 0%nat, 0%nat, 0%nat. repeat split; try lia. discriminate.
Defined.

(** Item 1 loses all its pixels to the filter, item 0 keeps one: the
    result is the finite value 1. *)
Lemma accuracy_emptied_item_counterexample :
  count_pixels 2 2 (kept [[[0; 1]; [1; 1]]; [[1; 1]; [1; 1]]]%Z 1 1) = 0%Z /\
  (0 < count_pixels 2 2 (kept [[[0; 1]; [1; 1]]; [[1; 1]; [1; 1]]]%Z 1 0))%Z /\
  accuracy {| num_classes := 2; ignore_idx := Some 1%Z |}
    [[[[1; 0]; [0; 1]]; [[0; 1]; [0; 0]]];
     [[[0; 0]; [0; 0]]; [[1; 1]; [1; 1]]]]
    [[[0; 1]; [1; 1]]; [[1; 1]; [1; 1]]]%Z = Ok (Fin 1).
Proof.
  split; [reflexivity |]. split; reflexivity.
Qed.

Lemma item_mean_uniform (pred : list (list (list (list Q))))
    (target : list (list (list Z))) (ig : Z) (N C H W : nat) (k : Z) :
  (0 < N)%nat -> (0 < k)%Z ->
  (forall n, (n < N)%nat -> count_pixels H W (kept target ig n) = k) ->
  feq (pooled_accuracy pred target ig N C H W)
      (mean_over N (item_accuracy_kept pred target ig C H W)).
Proof.
  intros HN Hk Hunif.
  set (c := fun n => count_pixels H W
                       (fun h w => kept target ig n h w && correct pred target C n h w)).
  assert (Ekept : count_batch N H W (kept target ig) = (Z.of_nat N * k)%Z).
  { unfold count_batch.
    rewrite (map_ext_in _ (fun _ => k))
      by (intros n Hn; apply in_seq in Hn; apply Hunif; lia).
    rewrite zsum_const, length_seq. reflexivity. }
  assert (Emean : map (item_accuracy_kept pred target ig C H W) (seq 0 N)
                  = map (fun n => fdiv (of_Z (c n)) (of_Z k)) (seq 0 N)).
  { apply map_ext_in. intros n Hn. apply in_seq in Hn.
    unfold item_accuracy_kept. rewrite Hunif by lia. reflexivity. }
  unfold mean_over, np_mean. rewrite Emean, length_map, length_seq.
  destruct (fsum_ratios c (seq 0 N) Hk) as [s [Es Hs]]. rewrite Es.
  assert (QN : 0 < inject_Z (Z.of_nat N)) by (apply of_nat_pos; exact HN).
  assert (Qk : 0 < inject_Z k).
  { change 0 with (inject_Z 0). rewrite <- Zlt_Qlt. exact Hk. }
  unfold of_nat, of_Z. rewrite (fdiv_pos _ QN).
  unfold pooled_accuracy. rewrite Ekept.
  rewrite fdiv_of_Z_pos by lia. simpl.
  fold c. change (count_batch N H W
                    (fun n h w => kept target ig n h w && correct pred target C n h w))
    with (zsum (map c (seq 0 N))).
  rewrite Hs, inject_Z_mult. field. split; lra.
Qed.

(** C10, as the code has it.  With [ignore_idx] configured and at least
    one pixel of the batch labelled otherwise, [accuracy] returns the
    pooled ratio: (kept pixels of the whole batch whose arg-max equals the
    label) / (kept pixels of the whole batch).  This is the mean of the
    per-item fractions when every item keeps the same positive number of
    pixels; when the kept pixels are unevenly spread over the items it can
    differ from that mean. *)
Theorem accuracy_with_ignore_pooled :
  (forall (self : Measurement) (ig : Z)
          (pred : list (list (list (list Q)))) (target : list (list (list Z)))
          (N C H W : nat),
     ignore_idx self = Some ig ->
     shape4 N C H W pred -> shape3 N H W target -> (0 < C)%nat ->
     (exists n h w, (n < N)%nat /\ (h < H)%nat /\ (w < W)%nat /\
        label target n h w <> ig) ->
     exists v,
       accuracy self pred target = Ok v /\
       feq v (pooled_accuracy pred target ig N C H W) /\
       is_finite v = true /\
       (forall k, (0 < k)%Z ->
          (forall n, (n < N)%nat -> count_pixels H W (kept target ig n) = k) ->
          feq v (mean_over N (item_accuracy_kept pred target ig C H W)))) /\
  (exists (ig : Z) (pred : list (list (list (list Q))))
          (target : list (list (list Z))) (v : fval),
     shape4 2 2 2 2 pred /\ shape3 2 2 2 target /\
     count_pixels 2 2 (kept target ig 0) <> count_pixels 2 2 (kept target ig 1) /\
     accuracy {| num_classes := 2; ignore_idx := Some ig |} pred target = Ok v /\
     ~ feq v (mean_over 2 (item_accuracy_kept pred target ig 2 2 2))).
Proof.
  split.
  - intros self ig pred target N C H W Hig Hp Ht HC Hex.
    exists (np_mean [pooled_accuracy pred target ig N C H W]).
    split; [apply accuracy_ignore_ok; assumption |].
    split; [apply np_mean_single |].
    destruct (@pooled_some_kept pred target ig N C H W Hex) as [Hpos Epool].
    split.
    + rewrite Epool. reflexivity.
    + intros k Hk Hunif.
      eapply feq_trans; [apply np_mean_single |].
      apply item_mean_uniform with (k := k); [| exact Hk | exact Hunif].
      destruct Hex as [n [_ [_ [Hn _]]]]. lia.
  - exists 255%Z,
      [[[[1; 1]; [1; 1]]; [[0; 0]; [0; 0]]];
       [[[1; 1]; [1; 1]]; [[0; 0]; [0; 0]]]],
      [[[255; 255]; [255; 0]]; [[0; 0]; [1; 1]]]%Z,
      (Fin (3 # 5)).
    split; [split; [reflexivity | repeat constructor] |].
    split; [split; [reflexivity | repeat constructor] |].
    split; [vm_compute; discriminate |].
    split; [vm_compute; reflexivity |].
    vm_compute. discriminate.
Qed.

(** Two items keeping three pixels each, two and one of them right. *)
Lemma accuracy_with_ignore_pooled_witness :
  exists v,
    accuracy {| num_classes := 2; ignore_idx := Some 255%Z |}
      [[[[1; 1]; [1; 1]]; [[0; 0]; [0; 0]]];
       [[[1; 1]; [1; 1]]; [[0; 0]; [0; 0]]]]
      [[[255; 0]; [0; 1]]; [[0; 255]; [1; 1]]]%Z = Ok v /\
    feq v (pooled_accuracy
             [[[[1; 1]; [1; 1]]; [[0; 0]; [0; 0]]];
              [[[1; 1]; [1; 1]]; [[0; 0]; [0; 0]]]]
             [[[255; 0]; [0; 1]]; [[0; 255]; [1; 1]]]%Z 255 2 2 2 2) /\
    is_finite v = true /\
    feq v (mean_over 2
             (item_accuracy_kept
                [[[[1; 1]; [1; 1]]; [[0; 0]; [0; 0]]];
                 [[[1; 1]; [1; 1]]; [[0; 0]; [0; 0]]]]
                [[[255; 0]; [0; 1]]; [[0; 255]; [1; 1]]]%Z 255 2 2 2)).
Proof.
  destruct (proj1 accuracy_with_ignore_pooled
              {| num_classes := 2; ignore_idx := Some 255%Z |} 255%Z
              [[[[1; 1]; [1; 1]]; [[0; 0]; [0; 0]]];
               [[[1; 1]; [1; 1]]; [[0; 0]; [0; 0]]]]
              [[[255; 0]; [0; 1]]; [[0; 255]; [1; 1]]]%Z 2%nat 2%nat 2%nat 2%nat)
    as [v [H1 [H2 [H3 H4]]]].
  - reflexivity.
  - split; [reflexivity |]. repeat constructor.
  - split; [reflexivity |]. repeat constructor.
  - lia.
  - exists 0%nat, 0%nat, 1%nat. repeat split; try lia. discriminate.
  - exists v. repeat split; try assumption.
    apply (H4 3%Z); [lia |].
    intros n Hn. destruct n as [| [| n]]; try lia; reflexivity.
Defined.

(** The kept pixels are unevenly spread (two in item 0, four in item 1),
    and the pooled ratio 3/6 is the mean of the per-item fractions 1/2 and
    2/4. *)
Lemma pooled_equals_item_mean_counterexample :
  count_pixels 2 2 (kept [[[255; 255]; [0; 1]]; [[0; 0]; [1; 1]]]%Z 255 0)
  <> count_pixels 2 2 (kept [[[255; 255]; [0; 1]]; [[0; 0]; [1; 1]]]%Z 255 1) /\
  exists v,
    accuracy {| num_classes := 2; ignore_idx := Some 255%Z |}
      [[[[1; 1]; [1; 1]]; [[0; 0]; [0; 0]]];
       [[[1; 1]; [1; 1]]; [[0; 0]; [0; 0]]]]
      [[[255; 255]; [0; 1]]; [[0; 0]; [1; 1]]]%Z = Ok v /\
    feq v (mean_over 2
             (item_accuracy_kept
                [[[[1; 1]; [1; 1]]; [[0; 0]; [0; 0]]];
                 [[[1; 1]; [1; 1]]; [[0; 0]; [0; 0]]]]
                [[[255; 255]; [0; 1]]; [[0; 0]; [1; 1]]]%Z 255 2 2 2)).
Proof.
  split; [vm_compute; discriminate |].
  exists (Fin (3 # 6)). split; vm_compute; reflexivity.
Qed.

(** ** Worked scenarios

    Three classes, one item, the 2 x 2 label grid 0 1 / 2 0. *)

Example scenario_perfect_prediction :
  exists m,
    measure {| num_classes := 3; ignore_idx := None |}
      [[[[1; 0]; [0; 1]]; [[0; 1]; [0; 0]]; [[0; 0]; [1; 0]]]]
      [[[0; 1]; [2; 0]]]%Z = Ok m /\
    _make_confusion_matrix {| num_classes := 3; ignore_idx := None |}
      [[[[1; 0]; [0; 1]]; [[0; 1]; [0; 0]]; [[0; 0]; [1; 0]]]]
      [[[0; 1]; [2; 0]]]%Z = Ok [[[2; 0; 0]; [0; 1; 0]; [0; 0; 1]]]%Z /\
    feq (m_acc m) (Fin 1) /\ feq (m_recall m) (Fin 1) /\
    feq (m_cwmiou m) (Fin (200000000 # 200000001)).
Proof.
  eexists. split; [vm_compute; reflexivity |].
  split; [vm_compute; reflexivity |].
  repeat split; vm_compute; reflexivity.
Qed.

Example scenario_all_background :
  exists m,
    measure {| num_classes := 3; ignore_idx := None |}
      [[[[1; 1]; [1; 1]]; [[0; 0]; [0; 0]]; [[0; 0]; [0; 0]]]]
      [[[0; 1]; [2; 0]]]%Z = Ok m /\
    feq (m_acc m) (Fin (1 # 2)) /\ feq (m_recall m) (Fin 0) /\
    feq (m_precision m) (Fin 0) /\ feq (m_f1score m) (Fin 0).
Proof.
  eexists. split; [vm_compute; reflexivity |].
  repeat split; vm_compute; reflexivity.
Qed.

(** ** Marginals of the confusion matrix *)

Lemma zsum_zeros {A : Type} (l : list A) : zsum (map (fun _ => 0%Z) l) = 0%Z.
Proof. rewrite zsum_const. lia. Qed.

Lemma zsum_indicator_sym (a : Z) (M : nat) :
  (0 <= a < Z.of_nat M)%Z ->
  zsum (map (fun k => if (a =? Z.of_nat k)%Z then 1 else 0)%Z (seq 0 M)) = 1%Z.
Proof.
  intros Ha.
  rewrite (map_ext _ (fun k => if (Z.of_nat k =? a)%Z then 1 else 0)%Z)
    by (intros k; rewrite Z.eqb_sym; reflexivity).
  rewrite zsum_indicator by lia.
  destruct (Z.ltb_spec a (Z.of_nat M)); [reflexivity | lia].
Qed.

Lemma zsum_filter_split {X : Type} (A : X -> bool) (v : X -> Z) (C : nat) (l : list X) :
  Forall (fun x => 0 <= v x < Z.of_nat C)%Z l ->
  zsum (map (fun k => Z.of_nat (length (filter
                        (fun x => A x && (v x =? Z.of_nat k)%Z) l)))
            (seq 0 C))
  = Z.of_nat (length (filter A l)).
Proof.
  induction 1 as [| x l Hx _ IH].
  - simpl. apply zsum_zeros.
  - rewrite (map_ext _
      (fun k => (if A x && (v x =? Z.of_nat k)%Z then 1 else 0)
                + Z.of_nat (length (filter
                     (fun y => A y && (v y =? Z.of_nat k)%Z) l)))%Z).
    + rewrite (zsum_map_add
                 (fun k => if A x && (v x =? Z.of_nat k)%Z then 1 else 0)%Z
                 (fun k => Z.of_nat (length (filter
                     (fun y => A y && (v y =? Z.of_nat k)%Z) l)))).
      rewrite IH. cbn [filter]. destruct (A x); cbn [andb].
      * rewrite (zsum_indicator_sym _ Hx). cbn [length]. lia.
      * rewrite zsum_zeros. lia.
    + intros k. cbn [filter].
      destruct (A x && (v x =? Z.of_nat k)%Z); cbn [length]; lia.
Qed.

Lemma count_pixels_split (H W C : nat) (A : nat -> nat -> bool)
    (v : nat -> nat -> Z) :
  (forall h w, (h < H)%nat -> (w < W)%nat -> (0 <= v h w < Z.of_nat C)%Z) ->
  zsum (map (fun k => count_pixels H W
                        (fun h w => A h w && (v h w =? Z.of_nat k)%Z))
            (seq 0 C))
  = count_pixels H W A.
Proof.
  intros Hv. unfold count_pixels.
  apply (zsum_filter_split (fun hw => A (fst hw) (snd hw))
           (fun hw => v (fst hw) (snd hw))).
  rewrite Forall_forall. intros hw Hhw. apply in_pixels in Hhw.
  apply Hv; apply Hhw.
Qed.

Lemma count_pixels_ext (H W : nat) (P P' : nat -> nat -> bool) :
  (forall h w, (h < H)%nat -> (w < W)%nat -> P h w = P' h w) ->
  count_pixels H W P = count_pixels H W P'.
Proof.
  intros HP. unfold count_pixels. do 2 f_equal.
  apply filter_ext_in. intros hw Hhw. apply in_pixels in Hhw.
  apply HP; apply Hhw.
Qed.

Lemma shape_conf_mat_of (pred : list (list (list (list Q))))
    (target : list (list (list Z))) (N C H W : nat) :
  shape3 N C C (conf_mat_of pred target N C H W).
Proof.
  unfold conf_mat_of. split; [rewrite length_map, length_seq; reflexivity |].
  rewrite Forall_forall. intros m Hm. apply in_map_iff in Hm.
  destruct Hm as [n [<- _]]. apply shape2_chunks. apply length_histogram.
Qed.

Lemma entry_conf_mat_of (pred : list (list (list (list Q))))
    (target : list (list (list Z))) (N C H W n i j : nat) :
  valid_labels target N C H W -> (0 < C)%nat ->
  (n < N)%nat -> (i < C)%nat -> (j < C)%nat ->
  entry (conf_mat_of pred target N C H W) n i j
  = count_pixels H W (fun h w =>
      (label target n h w =? Z.of_nat i)%Z
      && (predicted_label pred C n h w =? Z.of_nat j)%Z).
Proof.
  intros Hv HC Hn Hi Hj. unfold entry, conf_mat_of.
  rewrite (nth_map_seq (fun n => chunks C C (histogram C (codes pred target C H W n)))
             [] Hn).
  rewrite (nth_chunks _ 0%Z Hi Hj). unfold histogram.
  rewrite (nth_map_seq (fun k => count_eqb (Z.of_nat k) (codes pred target C H W n))
             0%Z) by nia.
  unfold codes. rewrite count_eqb_map. unfold count_pixels. do 2 f_equal.
  apply filter_ext_in. intros hw Hhw. apply in_pixels in Hhw.
  destruct Hhw as [Hh Hw]. unfold category.
  apply category_eqb;
    [apply Hv; assumption | apply predicted_label_range; exact HC | exact Hj].
Qed.

Lemma sum_row_conf_mat_of (pred : list (list (list (list Q))))
    (target : list (list (list Z))) (N C H W n i : nat) :
  valid_labels target N C H W -> (0 < C)%nat -> (n < N)%nat -> (i < C)%nat ->
  sum_row (conf_mat_of pred target N C H W) C n i
  = count_pixels H W (fun h w => (label target n h w =? Z.of_nat i)%Z).
Proof.
  intros Hv HC Hn Hi. unfold sum_row.
  rewrite (map_ext_in _ (fun j => count_pixels H W (fun h w =>
             (label target n h w =? Z.of_nat i)%Z
             && (predicted_label pred C n h w =? Z.of_nat j)%Z))).
  - apply count_pixels_split. intros h w _ _.
    apply predicted_label_range. exact HC.
  - intros j Hj. apply in_seq in Hj.
    apply entry_conf_mat_of; try assumption. lia.
Qed.

Lemma sum_col_conf_mat_of (pred : list (list (list (list Q))))
    (target : list (list (list Z))) (N C H W n j : nat) :
  valid_labels target N C H W -> (0 < C)%nat -> (n < N)%nat -> (j < C)%nat ->
  sum_col (conf_mat_of pred target N C H W) C n j
  = count_pixels H W (fun h w => (predicted_label pred C n h w =? Z.of_nat j)%Z).
Proof.
  intros Hv HC Hn Hj. unfold sum_col.
  rewrite (map_ext_in _ (fun i => count_pixels H W (fun h w =>
             (predicted_label pred C n h w =? Z.of_nat j)%Z
             && (label target n h w =? Z.of_nat i)%Z))).
  - apply count_pixels_split. intros h w Hh Hw. apply Hv; assumption.
  - intros i Hi. apply in_seq in Hi.
    rewrite entry_conf_mat_of by (try assumption; lia).
    apply count_pixels_ext. intros h w _ _. apply andb_comm.
Qed.

Lemma trace_conf_mat_of (pred : list (list (list (list Q))))
    (target : list (list (list Z))) (N C H W n : nat) :
  valid_labels target N C H W -> (0 < C)%nat -> (n < N)%nat ->
  trace (conf_mat_of pred target N C H W) C n
  = count_pixels H W (correct pred target C n).
Proof.
  intros Hv HC Hn. unfold trace.
  rewrite (map_ext_in _ (fun i => count_pixels H W (fun h w =>
             correct pred target C n h w
             && (label target n h w =? Z.of_nat i)%Z))).
  - apply count_pixels_split. intros h w Hh Hw. apply Hv; assumption.
  - intros i Hi. apply in_seq in Hi.
    rewrite entry_conf_mat_of by (try assumption; lia).
    apply count_pixels_ext. intros h w _ _. unfold correct.
    destruct (Z.eqb_spec (label target n h w) (Z.of_nat i)) as [E | E];
      destruct (Z.eqb_spec (predicted_label pred C n h w) (Z.of_nat i)) as [E' | E'];
      destruct (Z.eqb_spec (predicted_label pred C n h w) (label target n h w))
        as [E'' | E''];
      simpl; try reflexivity; exfalso; congruence.
Qed.

(** X1. For a valid input, the row sums and the column sums of the
    confusion matrix are the marginals the comments of the metric readers
    name: [sum_row[n,i]] is the number of pixels of item [n] whose true
    label is [i] (TP+FN) and [sum_col[n,i]] the number of pixels whose
    predicted label is [i] (TP+FP). *)
Theorem confusion_matrix_marginals (self : Measurement)
    (pred : list (list (list (list Q)))) (target : list (list (list Z)))
    (N C H W : nat) :
  shape4 N C H W pred -> shape3 N H W target ->
  valid_labels target N C H W -> num_classes self = C ->
  (0 < N)%nat -> (0 < C)%nat ->
  exists conf_mat,
    _make_confusion_matrix self pred target = Ok conf_mat /\
    forall n i, (n < N)%nat -> (i < C)%nat ->
      sum_row conf_mat C n i
      = count_pixels H W (fun h w => (label target n h w =? Z.of_nat i)%Z) /\
      sum_col conf_mat C n i
      = count_pixels H W (fun h w =>
          (predicted_label pred C n h w =? Z.of_nat i)%Z).
Proof.
  intros Hp Ht Hv Hcl HN HC.
  exists (conf_mat_of pred target N C H W).
  split; [apply make_confusion_matrix_ok; assumption |].
  intros n i Hn Hi. split.
  - apply sum_row_conf_mat_of; assumption.
  - apply sum_col_conf_mat_of; assumption.
Qed.

Lemma confusion_matrix_marginals_witness :
  exists conf_mat,
    _make_confusion_matrix {| num_classes := 3; ignore_idx := None |}
      [[[[1; 1]; [0; 1]]; [[0; 0]; [0; 0]]; [[0; 0]; [1; 0]]]]
      [[[0; 1]; [2; 0]]]%Z = Ok conf_mat /\
    sum_row conf_mat 3 0 0 = 2%Z /\ sum_row conf_mat 3 0 1 = 1%Z /\
    sum_col conf_mat 3 0 0 = 3%Z /\ sum_col conf_mat 3 0 1 = 0%Z.
Proof.
  destruct (@confusion_matrix_marginals {| num_classes := 3; ignore_idx := None |}
              [[[[1; 1]; [0; 1]]; [[0; 0]; [0; 0]]; [[0; 0]; [1; 0]]]]
              [[[0; 1]; [2; 0]]]%Z 1 3 2 2)
    as [cm [H1 H2]].
  - split; [reflexivity |]. repeat constructor.
  - split; [reflexivity |]. repeat constructor.
  - intros n h w Hn Hh Hw.
    destruct n as [| n]; [| lia].
    destruct h as [| [| h]]; try lia; destruct w as [| [| w]]; try lia;
      unfold label; simpl; lia.
  - reflexivity.
  - lia.
  - lia.
  - exists cm. split; [exact H1 |].
    destruct (H2 0%nat 0%nat) as [R0 C0]; try lia.
    destruct (H2 0%nat 1%nat) as [R1 C1]; try lia.
    rewrite R0, R1, C0, C1. repeat split; reflexivity.
Defined.

(** X2. Without [ignore_idx] and for a valid input, [accuracy] agrees with
    the confusion matrix: it is the mean over the batch items of
    (sum of the diagonal of the item's matrix) / (H*W). *)
Theorem accuracy_from_confusion_matrix (self : Measurement)
    (pred : list (list (list (list Q)))) (target : list (list (list Z)))
    (N C H W : nat) :
  ignore_idx self = None ->
  shape4 N C H W pred -> shape3 N H W target ->
  valid_labels target N C H W -> num_classes self = C ->
  (0 < N)%nat -> (0 < C)%nat ->
  exists conf_mat,
    _make_confusion_matrix self pred target = Ok conf_mat /\
    accuracy self pred target
    = Ok (mean_over N (fun n => fdiv (of_Z (trace conf_mat C n)) (of_nat (H * W)))).
Proof.
  intros Hig Hp Ht Hv Hcl HN HC.
  exists (conf_mat_of pred target N C H W).
  split; [apply make_confusion_matrix_ok; assumption |].
  rewrite (accuracy_plain_ok self Hig Hp Ht HC). f_equal.
  unfold mean_over. f_equal. apply map_ext_in. intros n Hn. apply in_seq in Hn.
  unfold item_accuracy. rewrite trace_conf_mat_of by (try assumption; lia).
  reflexivity.
Qed.

Lemma accuracy_from_confusion_matrix_witness :
  exists conf_mat,
    _make_confusion_matrix {| num_classes := 3; ignore_idx := None |}
      [[[[1; 1]; [0; 1]]; [[0; 0]; [0; 0]]; [[0; 0]; [1; 0]]]]
      [[[0; 1]; [2; 0]]]%Z = Ok conf_mat /\
    trace conf_mat 3 0 = 3%Z /\
    accuracy {| num_classes := 3; ignore_idx := None |}
      [[[[1; 1]; [0; 1]]; [[0; 0]; [0; 0]]; [[0; 0]; [1; 0]]]]
      [[[0; 1]; [2; 0]]]%Z
    = Ok (mean_over 1 (fun n => fdiv (of_Z (trace conf_mat 3 n)) (of_nat (2 * 2)))).
Proof.
  destruct (@accuracy_from_confusion_matrix
              {| num_classes := 3; ignore_idx := None |}
              [[[[1; 1]; [0; 1]]; [[0; 0]; [0; 0]]; [[0; 0]; [1; 0]]]]
              [[[0; 1]; [2; 0]]]%Z 1 3 2 2)
    as [cm [H1 H2]].
  - reflexivity.
  - split; [reflexivity |]. repeat constructor.
  - split; [reflexivity |]. repeat constructor.
  - intros n h w Hn Hh Hw.
    destruct n as [| n]; [| lia].
    destruct h as [| [| h]]; try lia; destruct w as [| [| w]]; try lia;
      unfold label; simpl; lia.
  - reflexivity.
  - lia.
  - lia.
  - exists cm. split; [exact H1 |]. split; [| exact H2].
    assert (E : Ok cm = Ok (conf_mat_of
                  [[[[1; 1]; [0; 1]]; [[0; 0]; [0; 0]]; [[0; 0]; [1; 0]]]]
                  [[[0; 1]; [2; 0]]]%Z 1 3 2 2)).
    { rewrite <- H1. reflexivity. }
    injection E as ->. reflexivity.
Defined.

(** X3. When the arg-max of [pred] equals the label at every pixel of a
    valid input, the confusion matrix is diagonal: every off-diagonal entry
    is 0 and the diagonal entry of class [i] is the number of pixels of
    class [i]. *)
Theorem confusion_matrix_diagonal_when_perfect (self : Measurement)
    (pred : list (list (list (list Q)))) (target : list (list (list Z)))
    (N C H W : nat) :
  shape4 N C H W pred -> shape3 N H W target ->
  valid_labels target N C H W -> num_classes self = C ->
  (0 < N)%nat -> (0 < C)%nat ->
  (forall n h w, (n < N)%nat -> (h < H)%nat -> (w < W)%nat ->
     predicted_label pred C n h w = label target n h w) ->
  exists conf_mat,
    _make_confusion_matrix self pred target = Ok conf_mat /\
    forall n i j, (n < N)%nat -> (i < C)%nat -> (j < C)%nat ->
      entry conf_mat n i j
      = if (i =? j)%nat
        then count_pixels H W (fun h w => (label target n h w =? Z.of_nat i)%Z)
        else 0%Z.
Proof.
  intros Hp Ht Hv Hcl HN HC Hperfect.
  exists (conf_mat_of pred target N C H W).
  split; [apply make_confusion_matrix_ok; assumption |].
  intros n i j Hn Hi Hj.
  rewrite entry_conf_mat_of by assumption.
  destruct (Nat.eqb_spec i j) as [-> | Hne].
  - apply count_pixels_ext. intros h w Hh Hw.
    rewrite (Hperfect n h w Hn Hh Hw).
    destruct (label target n h w =? Z.of_nat j)%Z; reflexivity.
  - apply count_pixels_none. intros h w Hh Hw.
    rewrite (Hperfect n h w Hn Hh Hw).
    destruct (Z.eqb_spec (label target n h w) (Z.of_nat i)) as [E | E];
      destruct (Z.eqb_spec (label target n h w) (Z.of_nat j)) as [E' | E'];
      simpl; try reflexivity.
    exfalso. apply Hne. lia.
Qed.

Lemma confusion_matrix_diagonal_when_perfect_witness :
  exists conf_mat,
    _make_confusion_matrix {| num_classes := 3; ignore_idx := None |}
      [[[[1; 0]; [0; 1]]; [[0; 1]; [0; 0]]; [[0; 0]; [1; 0]]]]
      [[[0; 1]; [2; 0]]]%Z = Ok conf_mat /\
    entry conf_mat 0 0 0 = 2%Z /\ entry conf_mat 0 0 1 = 0%Z /\
    entry conf_mat 0 2 1 = 0%Z.
Proof.
  destruct (@confusion_matrix_diagonal_when_perfect
              {| num_classes := 3; ignore_idx := None |}
              [[[[1; 0]; [0; 1]]; [[0; 1]; [0; 0]]; [[0; 0]; [1; 0]]]]
              [[[0; 1]; [2; 0]]]%Z 1 3 2 2)
    as [cm [H1 H2]].
  - split; [reflexivity |]. repeat constructor.
  - split; [reflexivity |]. repeat constructor.
  - intros n h w Hn Hh Hw.
    destruct n as [| n]; [| lia].
    destruct h as [| [| h]]; try lia; destruct w as [| [| w]]; try lia;
      unfold label; simpl; lia.
  - reflexivity.
  - lia.
  - lia.
  - intros n h w Hn Hh Hw.
    destruct n as [| n]; [| lia].
    destruct h as [| [| h]]; try lia; destruct w as [| [| w]]; try lia;
      reflexivity.
  - exists cm. split; [exact H1 |].
    rewrite !H2 by lia. repeat split; reflexivity.
Defined.

(** ** Labels out of range *)

Lemma list_maxZ_ge (x : list Z) (v : Z) : In v x -> (v <= list_maxZ x)%Z.
Proof.
  induction x as [| a x IH]; simpl; [contradiction |].
  fold (list_maxZ x). intros [-> | Hin]; [lia |].
  specialize (IH Hin). lia.
Qed.

Lemma bincount_raises (x : list Z) (M : nat) (e : exn) :
  bincount x M = Raise e -> e = ValueError.
Proof.
  unfold bincount. destruct (existsb _ x); intros E; [| discriminate].
  injection E as <-. reflexivity.
Qed.

Lemma bincount_ok_length (x : list Z) (M : nat) (ys : list Z) (v : Z) :
  bincount x M = Ok ys -> In v x ->
  (0 <= v)%Z /\ (Z.to_nat v < length ys)%nat.
Proof.
  unfold bincount. destruct (existsb (fun v => (v <? 0)%Z) x) eqn:Hneg;
    intros E Hin; [discriminate |].
  assert (H0 : (0 <= v)%Z).
  { destruct (Z.ltb_spec v 0) as [Hlt | Hge]; [| exact Hge].
    assert (Hex : existsb (fun v => (v <? 0)%Z) x = true).
    { apply existsb_exists. exists v. split; [exact Hin | apply Z.ltb_lt; exact Hlt]. }
    congruence. }
  split; [exact H0 |].
  injection E as <-. rewrite length_map, length_seq.
  destruct x as [| a x']; [contradiction |].
  pose proof (list_maxZ_ge (a :: x') v Hin) as Hle.
  lia.
Qed.

Lemma mapM_raises {A B : Type} (f : A -> result B) (l : list A) (e : exn) :
  (forall x e', f x = Raise e' -> e' = ValueError) ->
  mapM f l = Raise e -> e = ValueError.
Proof.
  intros Hf. induction l as [| x t IH]; simpl; [discriminate |].
  destruct (f x) as [y | e'] eqn:Ex; simpl.
  - destruct (mapM f t) as [ys | e''] eqn:Et; simpl; [discriminate |].
    intros E. injection E as <-. apply IH. reflexivity.
  - intros E. injection E as <-. apply (Hf x). exact Ex.
Qed.

Lemma mapM_ok_nth {A B : Type} (f : A -> result B) (l : list A) (ys : list B)
    (d : A) (d' : B) (n : nat) :
  mapM f l = Ok ys -> (n < length l)%nat ->
  f (nth n l d) = Ok (nth n ys d') /\ In (nth n ys d') ys.
Proof.
  revert ys n. induction l as [| x t IH]; intros ys n E Hn; [simpl in Hn; lia |].
  simpl in E. destruct (f x) as [y |] eqn:Ex; [| discriminate].
  simpl in E. destruct (mapM f t) as [ys' |] eqn:Et; [| discriminate].
  simpl in E. injection E as <-.
  destruct n as [| n]; simpl.
  - split; [exact Ex | left; reflexivity].
  - destruct (IH ys' n eq_refl ltac:(simpl in Hn; lia)) as [H1 H2].
    split; [exact H1 | right; exact H2].
Qed.

(** X4. A label outside [0, C) is refused.  With the shapes right, at most
    1024 classes and int64 labels with |C * label| < 2^20 at every pixel
    (so that every category code stays within (-2^21, 2^21): no code wraps
    around and every histogram is small enough to be allocated),
    [_make_confusion_matrix]
    raises [ValueError] (from the histogram of a negative code, from rows
    of different lengths, or from the final reshape), and so does
    [measure].  This includes a label equal to an [ignore_idx] outside
    [0, C), such as 255: the confusion matrix does not filter. *)
Theorem label_out_of_range_raises (self : Measurement)
    (pred : list (list (list (list Q)))) (target : list (list (list Z)))
    (N C H W : nat) :
  shape4 N C H W pred -> shape3 N H W target -> num_classes self = C ->
  (0 < C)%nat -> (C <= 1024)%nat ->
  (forall n h w, (n < N)%nat -> (h < H)%nat -> (w < W)%nat ->
     (Z.abs (Z.of_nat C * label target n h w) < 2 ^ 20)%Z) ->
  (exists n h w, (n < N)%nat /\ (h < H)%nat /\ (w < W)%nat /\
     (label target n h w < 0 \/ Z.of_nat C <= label target n h w)%Z) ->
  (forall n h w, (n < N)%nat -> (h < H)%nat -> (w < W)%nat ->
     (- 2 ^ 21 < category pred target C n h w < 2 ^ 21)%Z) /\
  _make_confusion_matrix self pred target = Raise ValueError /\
  measure self pred target = Raise ValueError.
Proof.
  intros Hp Ht Hcl HC HC2 Hsmall [n [h [w [Hn [Hh [Hw Hbad]]]]]].
  split.
  { intros n0 h0 w0 Hn0 Hh0 Hw0.
    pose proof (Hsmall n0 h0 w0 Hn0 Hh0 Hw0) as Hs.
    pose proof (predicted_label_range pred n0 h0 w0 HC) as Hpl.
    unfold category. lia. }
  clear HC2 Hsmall.
  assert (HN : (0 < N)%nat) by lia.
  cut (_make_confusion_matrix self pred target = Raise ValueError).
  { intros E. split; [exact E |]. unfold measure. rewrite E. reflexivity. }
  unfold _make_confusion_matrix.
  destruct Hp as [HNp Hp']. destruct Ht as [HNt Ht'].
  rewrite HNp, HNt, Nat.eqb_refl. cbn [negb].
  rewrite (argmax_axis1_ok (conj HNp Hp') HC). cbn [bind].
  rewrite !(reshape_rows_ok _ HN). cbn [bind].
  rewrite concat_tabulate3, (target_flat (conj HNt Ht')), Hcl.
  rewrite broadcast2_tabulate. cbn [bind].
  fold (category pred target C).
  set (cats := tabulate_flat N H W (category pred target C)).
  assert (Hrow : nth n cats [] = codes pred target C H W n).
  { unfold cats, tabulate_flat.
    apply (nth_map_seq (fun n => map (fun hw => category pred target C n (fst hw) (snd hw))
                                     (pixels H W)) [] Hn). }
  assert (Hlen : length cats = N).
  { unfold cats, tabulate_flat. rewrite length_map, length_seq. reflexivity. }
  assert (Hin : In (category pred target C n h w) (codes pred target C H W n)).
  { unfold codes.
    apply (in_map (fun hw => category pred target C n (fst hw) (snd hw))
                  (pixels H W) (h, w)).
    unfold pixels. apply in_prod_iff. rewrite !in_seq. lia. }
  unfold apply_along_axis.
  destruct cats as [| r0 cats'] eqn:Ecats; [simpl in Hlen; lia |].
  rewrite <- Ecats in *. clear Ecats.
  destruct (mapM (fun x => bincount x (C * C)) cats) as [rows | e] eqn:Em.
  - cbn [bind].
    destruct (forallb (fun r => (length r =? length (hd [] rows))%nat) rows) eqn:Hall;
      [| reflexivity].
    destruct (@mapM_ok_nth _ _ _ cats rows [] [] n Em ltac:(lia)) as [Hbc Hinr].
    rewrite Hrow in Hbc.
    destruct (@bincount_ok_length _ _ _ _ Hbc Hin) as [Hnn Hlt].
    rewrite forallb_forall in Hall. specialize (Hall _ Hinr).
    apply Nat.eqb_eq in Hall.
    pose proof (predicted_label_range pred n h w HC) as Hpl.
    unfold category in Hnn, Hlt.
    assert (HL : (C * C < length (hd [] rows))%nat).
    { rewrite <- Hall. destruct Hbad as [Hneg | Hbig]; [nia |].
      assert (Z.of_nat (C * C) <= Z.of_nat C * label target n h w
                                   + predicted_label pred C n h w)%Z by nia.
      lia. }
    unfold reshape_square. cbn [bind].
    destruct (Nat.eqb_spec (N * length (hd [] rows)) (N * C * C)) as [E | _];
      [exfalso; nia | reflexivity].
  - cbn [bind]. f_equal. apply (mapM_raises _ _ (fun x e' => @bincount_raises x (C * C) e') Em).
Qed.

Lemma small_labels_check (target : list (list (list Z))) (N C H W : nat) :
  forallb (fun n => forallb (fun hw =>
             (Z.abs (Z.of_nat C * label target n (fst hw) (snd hw)) <? 2 ^ 20)%Z)
             (pixels H W)) (seq 0 N) = true ->
  forall n h w, (n < N)%nat -> (h < H)%nat -> (w < W)%nat ->
    (Z.abs (Z.of_nat C * label target n h w) < 2 ^ 20)%Z.
Proof.
  intros Hall n h w Hn Hh Hw.
  rewrite forallb_forall in Hall.
  assert (Hin : In n (seq 0 N)) by (apply in_seq; lia).
  specialize (Hall n Hin). rewrite forallb_forall in Hall.
  assert (Hp : In (h, w) (pixels H W)).
  { unfold pixels. apply in_prod_iff. rewrite !in_seq. lia. }
  specialize (Hall (h, w) Hp). apply Z.ltb_lt in Hall. exact Hall.
Qed.

Lemma label_out_of_range_raises_witness :
  measure {| num_classes := 2; ignore_idx := Some 255%Z |}
    [[[[1; 0]; [0; 1]]; [[0; 1]; [0; 0]]]]
    [[[0; 255]; [1; 1]]]%Z = Raise ValueError /\
  _make_confusion_matrix {| num_classes := 2; ignore_idx := None |}
    [[[[1; 0]; [0; 1]]; [[0; 1]; [0; 0]]]]
    [[[0; -1]; [1; 1]]]%Z = Raise ValueError.
Proof.
  split.
  - apply (@label_out_of_range_raises
             {| num_classes := 2; ignore_idx := Some 255%Z |}
             [[[[1; 0]; [0; 1]]; [[0; 1]; [0; 0]]]]
             [[[0; 255]; [1; 1]]]%Z 1 2 2 2).
    + split; [reflexivity |]. repeat constructor.
    + split; [reflexivity |]. repeat constructor.
    + reflexivity.
    + lia.
    + lia.
    + apply small_labels_check. reflexivity.
    + exists 0%nat, 0%nat, 1%nat. repeat split; try lia.
      right. unfold label. simpl. lia.
  - apply (@label_out_of_range_raises
             {| num_classes := 2; ignore_idx := None |}
             [[[[1; 0]; [0; 1]]; [[0; 1]; [0; 0]]]]
             [[[0; -1]; [1; 1]]]%Z 1 2 2 2).
    + split; [reflexivity |]. repeat constructor.
    + split; [reflexivity |]. repeat constructor.
    + reflexivity.
    + lia.
    + lia.
    + apply small_labels_check. reflexivity.
    + exists 0%nat, 0%nat, 1%nat. repeat split; try lia.
      left. unfold label. simpl. lia.
Defined.

(** ** Ranges of the metric readers *)

Lemma miou_ok (self : Measurement) (conf_mat : list (list (list Z))) (N C : nat) :
  shape3 N C C conf_mat -> num_classes self = C ->
  miou self conf_mat
  = Ok (map (fun i => mean_over N (fun n => iou_of conf_mat C n i)) (seq 0 C),
        np_mean (map (fun i => mean_over N (fun n => iou_of conf_mat C n i))
                     (seq 0 C))).
Proof.
  intros Hs HC. unfold miou. rewrite HC.
  rewrite (@mapM_ok_map _ _ _
             (fun i => mean_over N (fun n => iou_of conf_mat C n i))).
  - reflexivity.
  - intros i Hin. apply in_seq in Hin.
    apply batch_mean_iou_ok; [exact Hs | lia].
Qed.

Lemma no_bg_miou_ok_gen (conf_mat : list (list (list Z))) (N C : nat) :
  shape3 N C C conf_mat -> (3 <= C)%nat ->
  no_bg_miou conf_mat = Ok (np_mean [mean_over N (union_iou_at conf_mat C)]).
Proof.
  intros Hs HC. unfold no_bg_miou.
  rewrite !(index2_entries Hs) by lia. cbn [bind].
  rewrite !(sum_col_entries Hs), !(sum_row_entries Hs) by lia. cbn [bind].
  rewrite !map2_map. reflexivity.
Qed.

Lemma mean_over_in_unit (N : nat) (f : nat -> fval) :
  (0 < N)%nat -> (forall n, (n < N)%nat -> in_unit (f n)) ->
  in_unit (mean_over N f).
Proof.
  intros HN Hf. unfold mean_over. apply np_mean_unit.
  - destruct N; [lia | discriminate].
  - rewrite Forall_forall. intros a Ha. apply in_map_iff in Ha.
    destruct Ha as [n [<- Hn]]. apply in_seq in Hn. apply Hf. lia.
Qed.

Lemma mean_from1_in_unit (C : nat) (f : nat -> fval) :
  (2 <= C)%nat -> (forall i, (1 <= i < C)%nat -> in_unit (f i)) ->
  in_unit (mean_from1 C f).
Proof.
  intros HC Hf. unfold mean_from1. apply np_mean_unit.
  - destruct C as [| [| C']]; try lia. discriminate.
  - rewrite Forall_forall. intros a Ha. apply in_map_iff in Ha.
    destruct Ha as [i [<- Hi]]. apply in_seq in Hi. apply Hf. lia.
Qed.

Lemma diag_le_sums (conf_mat : list (list (list Z))) (C n i : nat) :
  nonneg_entries conf_mat -> (i < C)%nat ->
  (0 <= entry conf_mat n i i <= sum_col conf_mat C n i)%Z /\
  (entry conf_mat n i i <= sum_row conf_mat C n i)%Z.
Proof.
  intros Hnn Hi.
  pose proof (Hnn n i i) as H0.
  pose proof (@zsum_ge_term (fun j => entry conf_mat n j i) C i
                (fun j => Hnn n j i) Hi) as Hc.
  pose proof (@zsum_ge_term (fun j => entry conf_mat n i j) C i
                (fun j => Hnn n i j) Hi) as Hr.
  unfold sum_col, sum_row. simpl in Hc, Hr. lia.
Qed.

Lemma precision_of_in_unit (conf_mat : list (list (list Z))) (C n i : nat) :
  nonneg_entries conf_mat -> (i < C)%nat ->
  in_unit (precision_of conf_mat C n i).
Proof.
  intros Hnn Hi. unfold precision_of.
  apply ratio_in_unit; [| exact eps7_pos].
  destruct (diag_le_sums n Hnn Hi) as [H1 _]. exact H1.
Qed.

Lemma recall_of_in_unit (conf_mat : list (list (list Z))) (C n i : nat) :
  nonneg_entries conf_mat -> (i < C)%nat ->
  (0 < sum_row conf_mat C n i)%Z ->
  in_unit (recall_of conf_mat C n i).
Proof.
  intros Hnn Hi Hpos. unfold recall_of.
  destruct (diag_le_sums n Hnn Hi) as [[H0 _] H1].
  rewrite (fdiv_of_Z_pos _ Hpos). simpl.
  assert (Qs : 0 < inject_Z (sum_row conf_mat C n i)).
  { change 0 with (inject_Z 0). rewrite <- Zlt_Qlt. exact Hpos. }
  assert (Q0 : 0 <= inject_Z (entry conf_mat n i i)).
  { change 0 with (inject_Z 0). rewrite <- Zle_Qle. exact H0. }
  assert (Q1 : inject_Z (entry conf_mat n i i) <= inject_Z (sum_row conf_mat C n i))
    by (rewrite <- Zle_Qle; exact H1).
  split.
  - apply Qle_shift_div_l; [exact Qs | lra].
  - apply Qle_shift_div_r; [exact Qs | lra].
Qed.

Lemma union_iou_at_in_unit (conf_mat : list (list (list Z))) (C n : nat) :
  nonneg_entries conf_mat -> (3 <= C)%nat ->
  in_unit (union_iou_at conf_mat C n).
Proof.
  intros Hnn HC. unfold union_iou_at.
  apply ratio_in_unit; [| exact eps8_pos].
  destruct (@diag_le_sums conf_mat C n 1 Hnn ltac:(lia)) as [[A0 A1] A2].
  destruct (@diag_le_sums conf_mat C n 2 Hnn ltac:(lia)) as [[B0 B1] B2].
  lia.
Qed.

Lemma in_unit_fin (a : fval) : in_unit a -> exists q, a = Fin q /\ 0 <= q <= 1.
Proof.
  destruct a as [q | | |]; simpl; try contradiction.
  intros H. exists q. split; [reflexivity | exact H].
Qed.

Lemma add64_exact (a b : Z) :
  (- 2 ^ 63 <= a + b < 2 ^ 63)%Z -> add64 a b = (a + b)%Z.
Proof. intros H. unfold add64. apply wrap64_small. exact H. Qed.

Lemma sub64_exact (a b : Z) :
  (- 2 ^ 63 <= a - b < 2 ^ 63)%Z -> sub64 a b = (a - b)%Z.
Proof. intros H. unfold sub64. apply wrap64_small. exact H. Qed.

Lemma miou_int64_ok (self : Measurement) (conf_mat : list (list (list Z))) (N C : nat) :
  shape3 N C C conf_mat -> num_classes self = C ->
  nonneg_entries conf_mat -> int64_bounded conf_mat N C ->
  miou_int64 self conf_mat
  = Ok (map (fun i => mean_over N (fun n => iou_of conf_mat C n i)) (seq 0 C),
        np_mean (map (fun i => mean_over N (fun n => iou_of conf_mat C n i))
                     (seq 0 C))).
Proof.
  intros Hs HC Hnn Hb. unfold miou_int64. rewrite HC.
  rewrite (@mapM_ok_map _ _ _
             (fun i => mean_over N (fun n => iou_of conf_mat C n i))).
  - reflexivity.
  - intros i Hin. apply in_seq in Hin.
    apply batch_mean_iou_int64_exact; [exact Hs | exact Hnn | exact Hb | lia].
Qed.

Lemma precision_int64_ok (self : Measurement) (conf_mat : list (list (list Z)))
    (N C : nat) :
  shape3 N C C conf_mat -> num_classes self = C ->
  nonneg_entries conf_mat -> int64_bounded conf_mat N C ->
  precision_int64 self conf_mat
  = Ok (mean_from1 C (fun i => mean_over N (fun n => precision_of conf_mat C n i))).
Proof.
  intros Hs HC Hnn Hb. unfold precision_int64. rewrite HC.
  rewrite (@mapM_ok_map _ _ _
             (fun i => map (fun n => precision_of conf_mat C n i) (seq 0 N))).
  - cbn [bind]. unfold mean_from1. rewrite map_map. reflexivity.
  - intros i Hin. apply in_seq in Hin.
    assert (Hi : (i < C)%nat) by lia.
    rewrite (index2_entries Hs Hi Hi). cbn [bind].
    rewrite (sum64_col_entries Hs Hi). cbn [bind].
    rewrite map2_map. f_equal. apply map_ext_in. intros n Hn. apply in_seq in Hn.
    destruct (@bounded_class conf_mat N C n i Hnn Hb ltac:(lia) Hi)
      as [[H0 H1] [H2 [H3 H4]]].
    unfold precision_of.
    rewrite (@wrap64_small (sum_col conf_mat C n i)) by lia. reflexivity.
Qed.

Lemma recall_int64_ok (self : Measurement) (conf_mat : list (list (list Z)))
    (N C : nat) :
  shape3 N C C conf_mat -> num_classes self = C ->
  nonneg_entries conf_mat -> int64_bounded conf_mat N C ->
  recall_int64 self conf_mat
  = Ok (mean_from1 C (fun i => mean_over N (fun n => recall_of conf_mat C n i))).
Proof.
  intros Hs HC Hnn Hb. unfold recall_int64. rewrite HC.
  rewrite (@mapM_ok_map _ _ _
             (fun i => map (fun n => recall_of conf_mat C n i) (seq 0 N))).
  - cbn [bind]. unfold mean_from1. rewrite map_map. reflexivity.
  - intros i Hin. apply in_seq in Hin.
    assert (Hi : (i < C)%nat) by lia.
    rewrite (index2_entries Hs Hi Hi). cbn [bind].
    rewrite (sum64_row_entries Hs Hi). cbn [bind].
    rewrite map2_map. f_equal. apply map_ext_in. intros n Hn. apply in_seq in Hn.
    destruct (@bounded_class conf_mat N C n i Hnn Hb ltac:(lia) Hi)
      as [[H0 H1] [H2 [H3 H4]]].
    unfold recall_of.
    rewrite (@wrap64_small (sum_row conf_mat C n i)) by lia. reflexivity.
Qed.

Lemma no_bg_miou_int64_ok (conf_mat : list (list (list Z))) (N C : nat) :
  shape3 N C C conf_mat -> (3 <= C)%nat ->
  nonneg_entries conf_mat -> int64_bounded conf_mat N C ->
  no_bg_miou_int64 conf_mat
  = Ok (np_mean [mean_over N (union_iou_at conf_mat C)]).
Proof.
  intros Hs HC Hnn Hb. unfold no_bg_miou_int64.
  rewrite !(index2_entries Hs) by lia. cbn [bind].
  rewrite !(sum64_col_entries Hs), !(sum64_row_entries Hs) by lia. cbn [bind].
  rewrite !map2_map. do 2 f_equal. unfold mean_over. f_equal.
  f_equal. apply map_ext_in. intros n Hn. apply in_seq in Hn.
  destruct (@bounded_class conf_mat N C n 1 Hnn Hb ltac:(lia) ltac:(lia))
    as [[A0 A1] [A2 [A3 A4]]].
  destruct (@bounded_class conf_mat N C n 2 Hnn Hb ltac:(lia) ltac:(lia))
    as [[B0 B1] [B2 [B3 B4]]].
  unfold union_iou_at.
  rewrite (@wrap64_small (sum_col conf_mat C n 1)) by lia.
  rewrite (@wrap64_small (sum_row conf_mat C n 1)) by lia.
  rewrite (@wrap64_small (sum_col conf_mat C n 2)) by lia.
  rewrite (@wrap64_small (sum_row conf_mat C n 2)) by lia.
  rewrite (@add64_exact (entry conf_mat n 1 1) (entry conf_mat n 2 2)) by lia.
  rewrite (@add64_exact (sum_col conf_mat C n 1) (sum_row conf_mat C n 1)) by lia.
  rewrite (@sub64_exact (sum_col conf_mat C n 1 + sum_row conf_mat C n 1)) by lia.
  rewrite (@add64_exact (sum_col conf_mat C n 1 + sum_row conf_mat C n 1
                         - entry conf_mat n 1 1)) by lia.
  rewrite (@add64_exact (sum_col conf_mat C n 1 + sum_row conf_mat C n 1
                         - entry conf_mat n 1 1 + sum_col conf_mat C n 2)) by lia.
  rewrite sub64_exact by lia. reflexivity.
Qed.

(** X5. On an int64 confusion matrix of shape (N, C, C) with non-negative
    entries whose row and column sums stay below 2^61, N >= 1 and C >= 2,
    [precision] is a finite value between 0 and 1: no int64 sum wraps
    (so the int64 reader and the exact one agree) and the stabilizer keeps
    every denominator positive. *)
Theorem precision_in_unit (self : Measurement)
    (conf_mat : list (list (list Z))) (N C : nat) :
  shape3 N C C conf_mat -> num_classes self = C ->
  (0 < N)%nat -> (2 <= C)%nat ->
  nonneg_entries conf_mat -> int64_bounded conf_mat N C ->
  exists q,
    precision_int64 self conf_mat = Ok (Fin q) /\
    precision self conf_mat = Ok (Fin q) /\ 0 <= q <= 1.
Proof.
  intros Hs Hcl HN HC Hnn Hb.
  rewrite (precision_int64_ok self Hs Hcl Hnn Hb), (precision_ok self Hs Hcl).
  destruct (in_unit_fin (mean_from1 C
              (fun i => mean_over N (fun n => precision_of conf_mat C n i))))
    as [q [Eq Hq]].
  - apply mean_from1_in_unit; [exact HC |]. intros i Hi.
    apply mean_over_in_unit; [exact HN |]. intros n _.
    apply precision_of_in_unit; [exact Hnn | lia].
  - exists q. rewrite Eq. repeat split; apply Hq.
Qed.

Lemma precision_in_unit_witness :
  exists q,
    precision_int64 {| num_classes := 3; ignore_idx := None |}
      [[[2; 0; 0]; [0; 1; 1]; [0; 0; 0]]]%Z = Ok (Fin q) /\
    precision {| num_classes := 3; ignore_idx := None |}
      [[[2; 0; 0]; [0; 1; 1]; [0; 0; 0]]]%Z = Ok (Fin q) /\ 0 <= q <= 1.
Proof.
  apply (@precision_in_unit {| num_classes := 3; ignore_idx := None |}
           [[[2; 0; 0]; [0; 1; 1]; [0; 0; 0]]]%Z 1 3).
  - split; [reflexivity |]. repeat constructor.
  - reflexivity.
  - lia.
  - lia.
  - apply nonneg_entries_Forall. repeat constructor; lia.
  - apply int64_bounded_small. intros n i Hn Hi.
    destruct n as [| n]; try lia;
      destruct i as [| [| [| i]]]; try lia; reflexivity.
Defined.

(** X6. On such a matrix (int64, non-negative entries, row and column
    sums below 2^61, N >= 1, C >= 2) [recall] is a finite value between 0
    and 1 as soon as every foreground class has a true pixel in every
    batch item (every [sum_row[n,i]] with i >= 1 is positive). *)
Theorem recall_in_unit (self : Measurement)
    (conf_mat : list (list (list Z))) (N C : nat) :
  shape3 N C C conf_mat -> num_classes self = C ->
  (0 < N)%nat -> (2 <= C)%nat ->
  nonneg_entries conf_mat -> int64_bounded conf_mat N C ->
  (forall n i, (n < N)%nat -> (1 <= i < C)%nat ->
     (0 < sum_row conf_mat C n i)%Z) ->
  exists q,
    recall_int64 self conf_mat = Ok (Fin q) /\
    recall self conf_mat = Ok (Fin q) /\ 0 <= q <= 1.
Proof.
  intros Hs Hcl HN HC Hnn Hb Hpos.
  rewrite (recall_int64_ok self Hs Hcl Hnn Hb), (recall_ok self Hs Hcl).
  destruct (in_unit_fin (mean_from1 C
              (fun i => mean_over N (fun n => recall_of conf_mat C n i))))
    as [q [Eq Hq]].
  - apply mean_from1_in_unit; [exact HC |]. intros i Hi.
    apply mean_over_in_unit; [exact HN |]. intros n Hn.
    apply recall_of_in_unit; [exact Hnn | lia | apply Hpos; assumption].
  - exists q. rewrite Eq. repeat split; apply Hq.
Qed.

Lemma recall_in_unit_witness :
  exists q,
    recall_int64 {| num_classes := 3; ignore_idx := None |}
      [[[2; 0; 0]; [0; 1; 1]; [1; 0; 3]]]%Z = Ok (Fin q) /\
    recall {| num_classes := 3; ignore_idx := None |}
      [[[2; 0; 0]; [0; 1; 1]; [1; 0; 3]]]%Z = Ok (Fin q) /\ 0 <= q <= 1.
Proof.
  apply (@recall_in_unit {| num_classes := 3; ignore_idx := None |}
           [[[2; 0; 0]; [0; 1; 1]; [1; 0; 3]]]%Z 1 3).
  - split; [reflexivity |]. repeat constructor.
  - reflexivity.
  - lia.
  - lia.
  - apply nonneg_entries_Forall. repeat constructor; lia.
  - apply int64_bounded_small. intros n i Hn Hi.
    destruct n as [| n]; try lia;
      destruct i as [| [| [| i]]]; try lia; reflexivity.
  - intros n i Hn Hi.
    destruct n as [| n]; [| lia].
    destruct i as [| [| [| i]]]; try lia; vm_compute; reflexivity.
Defined.

(** X7. On an int64 confusion matrix of shape (N, C, C) with
    non-negative entries whose row and column sums stay below 2^61 and
    N >= 1, every per-class value of the list returned by [miou] is a
    finite value between 0 and 1. *)
Theorem iou_list_in_unit (self : Measurement)
    (conf_mat : list (list (list Z))) (N C : nat) :
  shape3 N C C conf_mat -> num_classes self = C ->
  (0 < N)%nat -> nonneg_entries conf_mat -> int64_bounded conf_mat N C ->
  exists iou_list m,
    miou_int64 self conf_mat = Ok (iou_list, m) /\
    miou self conf_mat = Ok (iou_list, m) /\
    Forall in_unit iou_list.
Proof.
  intros Hs Hcl HN Hnn Hb.
  rewrite (miou_int64_ok self Hs Hcl Hnn Hb), (miou_ok self Hs Hcl).
  eexists. eexists. split; [reflexivity |]. split; [reflexivity |].
  rewrite Forall_forall. intros a Ha. apply in_map_iff in Ha.
  destruct Ha as [i [<- Hi]]. apply in_seq in Hi.
  apply mean_over_in_unit; [exact HN |]. intros n _.
  apply iou_of_in_unit; [exact Hnn | lia].
Qed.

Lemma iou_list_in_unit_witness :
  exists iou_list m,
    miou_int64 {| num_classes := 3; ignore_idx := None |}
      [[[2; 0; 0]; [0; 1; 1]; [0; 0; 0]]]%Z = Ok (iou_list, m) /\
    miou {| num_classes := 3; ignore_idx := None |}
      [[[2; 0; 0]; [0; 1; 1]; [0; 0; 0]]]%Z = Ok (iou_list, m) /\
    Forall in_unit iou_list.
Proof.
  apply (@iou_list_in_unit {| num_classes := 3; ignore_idx := None |}
           [[[2; 0; 0]; [0; 1; 1]; [0; 0; 0]]]%Z 1 3).
  - split; [reflexivity |]. repeat constructor.
  - reflexivity.
  - lia.
  - apply nonneg_entries_Forall. repeat constructor; lia.
  - apply int64_bounded_small. intros n i Hn Hi.
    destruct n as [| n]; try lia;
      destruct i as [| [| [| i]]]; try lia; reflexivity.
Defined.

(** X8. [no_bg_miou] does not read [num_classes]: on an int64 matrix of
    shape (N, C, C) with any C >= 3, non-negative entries and row and
    column sums below 2^61, it is the batch mean of the union IoU of
    classes 1 and 2 (the further classes enter through the row and column
    sums only), and with N >= 1 it is a finite value between 0 and 1. *)
Theorem no_bg_miou_more_classes (conf_mat : list (list (list Z))) (N C : nat) :
  shape3 N C C conf_mat -> (3 <= C)%nat ->
  nonneg_entries conf_mat -> int64_bounded conf_mat N C ->
  exists v,
    no_bg_miou_int64 conf_mat = Ok v /\
    no_bg_miou conf_mat = Ok v /\
    feq v (mean_over N (union_iou_at conf_mat C)) /\
    ((0 < N)%nat -> exists q, v = Fin q /\ 0 <= q <= 1).
Proof.
  intros Hs HC Hnn Hb.
  exists (np_mean [mean_over N (union_iou_at conf_mat C)]).
  split; [apply no_bg_miou_int64_ok; assumption |].
  split; [apply no_bg_miou_ok_gen; assumption |].
  split; [apply np_mean_single |].
  intros HN. apply in_unit_fin. apply np_mean_unit; [discriminate |].
  constructor; [| constructor].
  apply mean_over_in_unit; [exact HN |]. intros n _.
  apply union_iou_at_in_unit; assumption.
Qed.

Lemma no_bg_miou_more_classes_witness :
  exists v,
    no_bg_miou_int64 [[[2; 0; 0; 1]; [0; 1; 1; 0]; [0; 0; 3; 0]; [0; 2; 0; 4]]]%Z
    = Ok v /\
    exists q, v = Fin q /\ 0 <= q <= 1.
Proof.
  destruct (@no_bg_miou_more_classes
              [[[2; 0; 0; 1]; [0; 1; 1; 0]; [0; 0; 3; 0]; [0; 2; 0; 4]]]%Z 1 4)
    as [v [H1 [_ [_ H4]]]].
  - split; [reflexivity |]. repeat constructor.
  - lia.
  - apply nonneg_entries_Forall. repeat constructor; lia.
  - apply int64_bounded_small. intros n i Hn Hi.
    destruct n as [| n]; try lia;
      destruct i as [| [| [| [| i]]]]; try lia; reflexivity.
  - exists v. split; [exact H1 |]. apply H4. lia.
Defined.

(** ** Class counts that do not fit *)

Lemma index1_out_of_bounds {A : Type} (r : list A) (t : list (list A)) (i : nat) :
  (length r <= i)%nat -> index1 (r :: t) i = Raise IndexError.
Proof.
  intros Hi. unfold index1. simpl.
  assert (E : nth_error r i = None) by (apply nth_error_None; exact Hi).
  rewrite E. reflexivity.
Qed.

Lemma index2_out_of_bounds (conf_mat : list (list (list Z))) (N C i j : nat) :
  shape3 N C C conf_mat -> (0 < N)%nat -> (C <= i)%nat ->
  index2 conf_mat i j = Raise IndexError.
Proof.
  intros [HN Hall] Hpos Hi. unfold index2.
  destruct conf_mat as [| m0 t]; [simpl in HN; lia |].
  rewrite index1_out_of_bounds; [reflexivity |].
  inversion Hall as [| ? ? [Hm _] _]; subst. lia.
Qed.

Lemma no_bg_miou_index_error (conf_mat : list (list (list Z))) (N C : nat) :
  shape3 N C C conf_mat -> (0 < N)%nat -> (C <= 2)%nat ->
  no_bg_miou conf_mat = Raise IndexError.
Proof.
  intros Hs HN HC. unfold no_bg_miou.
  destruct (Nat.eq_dec C 2) as [-> | Hne].
  - rewrite (index2_entries Hs) by lia. cbn [bind].
    rewrite (@index2_out_of_bounds conf_mat N 2 2 2 Hs HN) by lia.
    reflexivity.
  - rewrite (@index2_out_of_bounds conf_mat N C 1 1 Hs HN) by lia.
    reflexivity.
Qed.

Lemma mapM_first_raise {A B : Type} (f : A -> result B) (l1 l2 : list A)
    (x : A) (e : exn) :
  (forall y, In y l1 -> exists v, f y = Ok v) -> f x = Raise e ->
  mapM f (l1 ++ x :: l2) = Raise e.
Proof.
  intros Hok Hx. induction l1 as [| y l1 IH]; simpl.
  - rewrite Hx. reflexivity.
  - destruct (Hok y (or_introl eq_refl)) as [v ->]. simpl.
    rewrite IH by (intros z Hz; apply Hok; right; exact Hz).
    reflexivity.
Qed.

Lemma seq_split_at (s len k : nat) :
  (k < len)%nat ->
  seq s len = seq s k ++ (s + k)%nat :: seq (S (s + k)) (len - k - 1).
Proof.
  intros Hk. replace len with (k + S (len - k - 1))%nat at 1 by lia.
  rewrite seq_app. reflexivity.
Qed.

(** X9. [no_bg_miou] needs three classes: on a matrix of shape (N, C, C)
    with C <= 2 and N >= 1 it raises [IndexError]. *)
Theorem no_bg_miou_needs_three_classes (conf_mat : list (list (list Z)))
    (N C : nat) :
  shape3 N C C conf_mat -> (0 < N)%nat -> (C <= 2)%nat ->
  no_bg_miou conf_mat = Raise IndexError.
Proof.
  intros Hs HN HC. apply no_bg_miou_index_error with (N := N) (C := C); assumption.
Qed.

Lemma no_bg_miou_needs_three_classes_witness :
  no_bg_miou [[[3; 1]; [0; 2]]; [[1; 0]; [0; 5]]]%Z = Raise IndexError.
Proof.
  apply (@no_bg_miou_needs_three_classes
           [[[3; 1]; [0; 2]]; [[1; 0]; [0; 5]]]%Z 2 2).
  - split; [reflexivity |]. repeat constructor.
  - lia.
  - lia.
Defined.

(** X10. When [num_classes] exceeds the number of classes of the matrix
    (shape (N, C, C), N >= 1, C >= 1), [miou], [precision] and [recall]
    all raise [IndexError] at class [C]. *)
Theorem readers_index_error (self : Measurement)
    (conf_mat : list (list (list Z))) (N C : nat) :
  shape3 N C C conf_mat -> (0 < N)%nat -> (0 < C)%nat ->
  (C < num_classes self)%nat ->
  miou self conf_mat = Raise IndexError /\
  precision self conf_mat = Raise IndexError /\
  recall self conf_mat = Raise IndexError.
Proof.
  intros Hs HN HC HK.
  assert (Hbad : index2 conf_mat C C = Raise IndexError)
    by (apply (@index2_out_of_bounds conf_mat N C C C Hs HN); lia).
  split; [| split].
  - unfold miou.
    rewrite (@seq_split_at 0 (num_classes self) C HK). simpl Nat.add.
    rewrite (@mapM_first_raise _ _ _ _ _ C IndexError); [reflexivity | |].
    + intros i Hi. apply in_seq in Hi. eexists.
      apply batch_mean_iou_ok with (N := N) (C := C); [exact Hs | lia].
    + unfold batch_mean_iou. rewrite Hbad. reflexivity.
  - unfold precision.
    rewrite (@seq_split_at 1 (num_classes self - 1) (C - 1)) by lia.
    replace (1 + (C - 1))%nat with C by lia.
    rewrite (@mapM_first_raise _ _ _ _ _ C IndexError); [reflexivity | |].
    + intros i Hi. apply in_seq in Hi.
      assert (Hi' : (i < C)%nat) by lia.
      rewrite (index2_entries Hs Hi' Hi'). cbn [bind].
      rewrite (sum_col_entries Hs Hi'). cbn [bind]. eexists. reflexivity.
    + rewrite Hbad. reflexivity.
  - unfold recall.
    rewrite (@seq_split_at 1 (num_classes self - 1) (C - 1)) by lia.
    replace (1 + (C - 1))%nat with C by lia.
    rewrite (@mapM_first_raise _ _ _ _ _ C IndexError); [reflexivity | |].
    + intros i Hi. apply in_seq in Hi.
      assert (Hi' : (i < C)%nat) by lia.
      rewrite (index2_entries Hs Hi' Hi'). cbn [bind].
      rewrite (sum_row_entries Hs Hi'). cbn [bind]. eexists. reflexivity.
    + rewrite Hbad. reflexivity.
Qed.

Lemma readers_index_error_witness :
  miou {| num_classes := 3; ignore_idx := None |}
       [[[3; 1]; [0; 2]]]%Z = Raise IndexError /\
  precision {| num_classes := 3; ignore_idx := None |}
       [[[3; 1]; [0; 2]]]%Z = Raise IndexError /\
  recall {| num_classes := 3; ignore_idx := None |}
       [[[3; 1]; [0; 2]]]%Z = Raise IndexError.
Proof.
  apply (@readers_index_error {| num_classes := 3; ignore_idx := None |}
           [[[3; 1]; [0; 2]]]%Z 1 2).
  - split; [reflexivity |]. repeat constructor.
  - lia.
  - lia.
  - simpl. lia.
Defined.

(** ** F1 score: range and propagation *)

Lemma f1score_NaN_l (p : fval) : f1score NaN p = NaN.
Proof. destruct p; reflexivity. Qed.

Lemma f1score_fin_in_unit (r p : Q) :
  0 <= r <= 1 -> 0 <= p <= 1 -> in_unit (f1score (Fin r) (Fin p)).
Proof.
  intros [Hr0 Hr1] [Hp0 Hp1]. unfold f1score. simpl fmul. simpl fadd.
  assert (He : 0 < eps8) by exact eps8_pos.
  assert (Hpos : 0 < r + p + eps8) by lra.
  rewrite (fdiv_pos _ Hpos). simpl.
  assert (Hrp0 : 0 <= r * p) by (apply Qmult_le_0_compat; assumption).
  assert (Hrp1 : r * p <= r * 1).
  { apply Qmult_le_compat_nonneg; split; try assumption. apply Qle_refl. }
  assert (Hrp2 : r * p <= 1 * p).
  { apply Qmult_le_compat_nonneg; split; try assumption. apply Qle_refl. }
  split.
  - apply Qle_shift_div_l; [exact Hpos | lra].
  - apply Qle_shift_div_r; [exact Hpos | lra].
Qed.

(** X11. For recall and precision between 0 and 1, [f1score] is a finite
    value between 0 and 1, and it is 0 when either of them is 0: with both
    at 0 the stabilizer turns 0/0 into 0. *)
Theorem f1score_range (r p : Q) :
  0 <= r <= 1 -> 0 <= p <= 1 ->
  exists q, f1score (Fin r) (Fin p) = Fin q /\ 0 <= q <= 1 /\
            (r == 0 \/ p == 0 -> q == 0).
Proof.
  intros Hr Hp.
  pose proof (f1score_fin_in_unit Hr Hp) as Hu.
  assert (Hpos : 0 < r + p + eps8).
  { pose proof eps8_pos. lra. }
  assert (E : f1score (Fin r) (Fin p) = Fin (2 * r * p / (r + p + eps8))).
  { unfold f1score. simpl fmul. simpl fadd. apply fdiv_pos. exact Hpos. }
  rewrite E in Hu. exists (2 * r * p / (r + p + eps8)).
  split; [exact E |]. split; [exact Hu |].
  intros [Z0 | Z0]; rewrite Z0; unfold Qdiv; ring.
Qed.

Lemma f1score_range_witness :
  exists q, f1score (Fin 0) (Fin 0) = Fin q /\ 0 <= q <= 1 /\ q == 0.
Proof.
  destruct (@f1score_range 0 0) as [q [E [Hq Hz]]].
  - split; [apply Qle_refl | discriminate].
  - split; [apply Qle_refl | discriminate].
  - exists q. split; [exact E |]. split; [exact Hq |].
    apply Hz. left. reflexivity.
Defined.

(** ** Pixel accuracy with [ignore_idx]: range *)

Lemma zsum_map_le {A : Type} (f g : A -> Z) (l : list A) :
  (forall a, In a l -> (f a <= g a)%Z) ->
  (zsum (map f l) <= zsum (map g l))%Z.
Proof.
  induction l as [| a l IH]; intros H; simpl; [lia |].
  fold (zsum (map f l)). fold (zsum (map g l)).
  pose proof (H a (or_introl eq_refl)).
  assert (zsum (map f l) <= zsum (map g l))%Z
    by (apply IH; intros b Hb; apply H; right; exact Hb).
  lia.
Qed.

Lemma filter_andb_length_le {A : Type} (P P' : A -> bool) (l : list A) :
  (length (filter (fun a => P a && P' a) l) <= length (filter P l))%nat.
Proof.
  induction l as [| a l IH]; simpl; [lia |].
  destruct (P a); simpl; [destruct (P' a); simpl; lia | exact IH].
Qed.

Lemma count_kept_correct_le (pred : list (list (list (list Q))))
    (target : list (list (list Z))) (ig : Z) (N C H W : nat) :
  (0 <= count_batch N H W
          (fun n h w => kept target ig n h w && correct pred target C n h w)
     <= count_batch N H W (kept target ig))%Z.
Proof.
  unfold count_batch. split.
  - apply zsum_nonneg. rewrite Forall_forall. intros z Hz.
    apply in_map_iff in Hz. destruct Hz as [n [<- _]].
    apply count_pixels_bounds.
  - apply zsum_map_le. intros n _. unfold count_pixels.
    pose proof (filter_andb_length_le
                  (fun hw => kept target ig n (fst hw) (snd hw))
                  (fun hw => correct pred target C n (fst hw) (snd hw))
                  (pixels H W)).
    lia.
Qed.

Lemma pooled_in_unit (pred : list (list (list (list Q))))
    (target : list (list (list Z))) (ig : Z) (N C H W : nat) :
  (0 < count_batch N H W (kept target ig))%Z ->
  in_unit (pooled_accuracy pred target ig N C H W).
Proof.
  intros Hpos. unfold pooled_accuracy.
  pose proof (count_kept_correct_le pred target ig N C H W) as [H0 H1].
  rewrite (fdiv_of_Z_pos _ Hpos). simpl.
  set (ck := count_batch N H W
               (fun n h w => kept target ig n h w && correct pred target C n h w)) in *.
  set (k := count_batch N H W (kept target ig)) in *.
  assert (Qk : 0 < inject_Z k).
  { change 0 with (inject_Z 0). rewrite <- Zlt_Qlt. exact Hpos. }
  assert (Q0 : 0 <= inject_Z ck).
  { change 0 with (inject_Z 0). rewrite <- Zle_Qle. exact H0. }
  assert (Q1 : inject_Z ck <= inject_Z k) by (rewrite <- Zle_Qle; exact H1).
  split.
  - apply Qle_shift_div_l; [exact Qk | lra].
  - apply Qle_shift_div_r; [exact Qk | lra].
Qed.

Lemma np_mean_single_in_unit (a : fval) : in_unit a -> in_unit (np_mean [a]).
Proof.
  intros Ha. apply np_mean_unit; [discriminate |].
  constructor; [exact Ha | constructor].
Qed.

(** X12. With [ignore_idx] configured and at least one pixel of the batch
    labelled otherwise, [accuracy] is a finite value between 0 and 1, and
    it is 1 when the arg-max equals the label at every kept pixel,
    whatever is predicted at the ignored ones. *)
Theorem accuracy_with_ignore_range (self : Measurement) (ig : Z)
    (pred : list (list (list (list Q)))) (target : list (list (list Z)))
    (N C H W : nat) :
  ignore_idx self = Some ig ->
  shape4 N C H W pred -> shape3 N H W target -> (0 < C)%nat ->
  (exists n h w, (n < N)%nat /\ (h < H)%nat /\ (w < W)%nat /\
     label target n h w <> ig) ->
  exists q,
    accuracy self pred target = Ok (Fin q) /\ 0 <= q <= 1 /\
    ((forall n h w, (n < N)%nat -> (h < H)%nat -> (w < W)%nat ->
        label target n h w <> ig ->
        predicted_label pred C n h w = label target n h w) ->
     q == 1).
Proof.
  intros Hig Hp Ht HC Hex.
  rewrite (@accuracy_ignore_ok self ig pred target N C H W Hig Hp Ht HC).
  destruct (@pooled_some_kept pred target ig N C H W Hex) as [Hpos Epool].
  pose proof (@np_mean_single_in_unit _
                (@pooled_in_unit pred target ig N C H W Hpos)) as Hu.
  rewrite Epool in *.
  destruct (np_mean_single_fin
              (inject_Z (count_batch N H W
                 (fun n h w => kept target ig n h w && correct pred target C n h w))
               / inject_Z (count_batch N H W (kept target ig)))) as [q [Eq Hq]].
  rewrite Eq in *. exists q. split; [reflexivity |]. split; [exact Hu |].
  intros Hall. rewrite Hq.
  assert (E : count_batch N H W
                (fun n h w => kept target ig n h w && correct pred target C n h w)
              = count_batch N H W (kept target ig)).
  { unfold count_batch. f_equal. apply map_ext_in. intros n Hn.
    apply in_seq in Hn. apply count_pixels_ext. intros h w Hh Hw.
    unfold kept, correct.
    destruct (Z.eqb_spec (label target n h w) ig) as [E | E]; [reflexivity |].
    simpl. apply Z.eqb_eq. apply Hall; try assumption. lia. }
  rewrite E. field.
  intros Z0. change 0 with (inject_Z 0) in Z0.
  unfold Qeq in Z0. simpl in Z0. lia.
Qed.

Lemma accuracy_with_ignore_range_witness :
  exists q,
    accuracy {| num_classes := 2; ignore_idx := Some 255%Z |}
      [[[[1; 1]; [1; 1]]; [[0; 0]; [0; 0]]];
       [[[1; 1]; [1; 1]]; [[0; 0]; [0; 0]]]]
      [[[255; 255]; [0; 0]]; [[0; 0]; [255; 0]]]%Z = Ok (Fin q) /\
    0 <= q <= 1 /\ q == 1.
Proof.
  destruct (@accuracy_with_ignore_range
              {| num_classes := 2; ignore_idx := Some 255%Z |} 255%Z
              [[[[1; 1]; [1; 1]]; [[0; 0]; [0; 0]]];
               [[[1; 1]; [1; 1]]; [[0; 0]; [0; 0]]]]
              [[[255; 255]; [0; 0]]; [[0; 0]; [255; 0]]]%Z 2 2 2 2)
    as [q [H1 [H2 H3]]].
  - reflexivity.
  - split; [reflexivity |]. repeat constructor.
  - split; [reflexivity |]. repeat constructor.
  - lia.
  - exists 0%nat, 1%nat, 0%nat. repeat split; try lia. discriminate.
  - exists q. split; [exact H1 |]. split; [exact H2 |]. apply H3.
    intros n h w Hn Hh Hw.
    destruct n as [| [| n]]; try lia;
      destruct h as [| [| h]]; try lia; destruct w as [| [| w]]; try lia;
      unfold label; simpl; intros Hne; try reflexivity; exfalso; apply Hne;
      reflexivity.
Defined.

(** X13. An [ignore_idx] that no label of the batch carries changes
    nothing: for a batch with N >= 1 items of H*W >= 1 pixels, [accuracy]
    with that [ignore_idx] has the value (as an exact rational) of
    [accuracy] without one. *)
Theorem accuracy_ignore_absent (self self' : Measurement) (ig : Z)
    (pred : list (list (list (list Q)))) (target : list (list (list Z)))
    (N C H W : nat) :
  ignore_idx self = Some ig -> ignore_idx self' = None ->
  shape4 N C H W pred -> shape3 N H W target -> (0 < C)%nat ->
  (0 < N)%nat -> (0 < H * W)%nat ->
  (forall n h w, (n < N)%nat -> (h < H)%nat -> (w < W)%nat ->
     label target n h w <> ig) ->
  exists v v',
    accuracy self pred target = Ok v /\
    accuracy self' pred target = Ok v' /\
    feq v v'.
Proof.
  intros Hig Hig' Hp Ht HC HN HHW Habs.
  exists (np_mean [pooled_accuracy pred target ig N C H W]),
         (mean_over N (item_accuracy pred target C H W)).
  split; [apply accuracy_ignore_ok; assumption |].
  split; [apply accuracy_plain_ok; assumption |].
  eapply feq_trans; [apply np_mean_single |].
  assert (Hkept : forall n h w, (n < N)%nat -> (h < H)%nat -> (w < W)%nat ->
                    kept target ig n h w = true).
  { intros n h w Hn Hh Hw. unfold kept. apply negb_true_iff.
    apply Z.eqb_neq. apply Habs; assumption. }
  assert (E : mean_over N (item_accuracy pred target C H W)
              = mean_over N (item_accuracy_kept pred target ig C H W)).
  { unfold mean_over. f_equal. apply map_ext_in. intros n Hn. apply in_seq in Hn.
    unfold item_accuracy, item_accuracy_kept, of_nat.
    rewrite (@count_pixels_all H W (kept target ig n))
      by (intros h w Hh Hw; apply Hkept; try assumption; lia).
    f_equal. f_equal. apply count_pixels_ext. intros h w Hh Hw.
    rewrite Hkept by (try assumption; lia). reflexivity. }
  rewrite E.
  apply item_mean_uniform with (k := Z.of_nat (H * W)); [exact HN | lia |].
  intros n Hn. apply count_pixels_all.
  intros h w Hh Hw. apply Hkept; assumption.
Qed.

Lemma accuracy_ignore_absent_witness :
  exists v v',
    accuracy {| num_classes := 2; ignore_idx := Some 255%Z |}
      [[[[1; 1]; [1; 1]]; [[0; 0]; [0; 0]]];
       [[[1; 1]; [1; 1]]; [[0; 0]; [0; 0]]]]
      [[[0; 1]; [0; 0]]; [[0; 0]; [1; 1]]]%Z = Ok v /\
    accuracy {| num_classes := 2; ignore_idx := None |}
      [[[[1; 1]; [1; 1]]; [[0; 0]; [0; 0]]];
       [[[1; 1]; [1; 1]]; [[0; 0]; [0; 0]]]]
      [[[0; 1]; [0; 0]]; [[0; 0]; [1; 1]]]%Z = Ok v' /\
    feq v v'.
Proof.
  apply (@accuracy_ignore_absent
           {| num_classes := 2; ignore_idx := Some 255%Z |}
           {| num_classes := 2; ignore_idx := None |} 255%Z
           [[[[1; 1]; [1; 1]]; [[0; 0]; [0; 0]]];
            [[[1; 1]; [1; 1]]; [[0; 0]; [0; 0]]]]
           [[[0; 1]; [0; 0]]; [[0; 0]; [1; 1]]]%Z 2 2 2 2).
  - reflexivity.
  - reflexivity.
  - split; [reflexivity |]. repeat constructor.
  - split; [reflexivity |]. repeat constructor.
  - lia.
  - lia.
  - simpl. lia.
  - intros n h w Hn Hh Hw.
    destruct n as [| [| n]]; try lia;
      destruct h as [| [| h]]; try lia; destruct w as [| [| w]]; try lia;
      unfold label; simpl; discriminate.
Defined.

(** ** The orchestrator [measure] *)

Lemma in_firstn_in {A : Type} (n : nat) (l : list A) (x : A) :
  In x (firstn n l) -> In x l.
Proof.
  revert l. induction n as [| n IH]; intros [| a l]; simpl; try contradiction.
  intros [-> | Hin]; [left; reflexivity | right; apply IH; exact Hin].
Qed.

Lemma in_skipn_in {A : Type} (n : nat) (l : list A) (x : A) :
  In x (skipn n l) -> In x l.
Proof.
  revert l. induction n as [| n IH]; intros l; simpl; [auto |].
  destruct l as [| a l]; [contradiction |].
  intros Hin. right. apply IH. exact Hin.
Qed.

Lemma nonneg_conf_mat_of (pred : list (list (list (list Q))))
    (target : list (list (list Z))) (N C H W : nat) :
  nonneg_entries (conf_mat_of pred target N C H W).
Proof.
  apply nonneg_entries_Forall. unfold conf_mat_of.
  rewrite Forall_forall. intros m Hm. apply in_map_iff in Hm.
  destruct Hm as [n [<- _]]. unfold chunks.
  rewrite Forall_forall. intros r Hr. apply in_map_iff in Hr.
  destruct Hr as [i [<- _]].
  rewrite Forall_forall. intros z Hz.
  apply in_firstn_in, in_skipn_in in Hz. unfold histogram in Hz.
  apply in_map_iff in Hz. destruct Hz as [k [<- _]].
  unfold count_eqb. lia.
Qed.

Lemma accuracy_ok_any (self : Measurement)
    (pred : list (list (list (list Q)))) (target : list (list (list Z)))
    (N C H W : nat) :
  shape4 N C H W pred -> shape3 N H W target -> (0 < C)%nat ->
  exists acc, accuracy self pred target = Ok acc.
Proof.
  intros Hp Ht HC. destruct (ignore_idx self) as [ig |] eqn:Hig.
  - eexists. apply (@accuracy_ignore_ok self ig pred target N C H W); assumption.
  - eexists. apply (@accuracy_plain_ok self pred target N C H W); assumption.
Qed.

Lemma measure_ok (self : Measurement)
    (pred : list (list (list (list Q)))) (target : list (list (list Z)))
    (N C H W : nat) (acc : fval) :
  shape4 N C H W pred -> shape3 N H W target ->
  valid_labels target N C H W -> num_classes self = C ->
  (0 < N)%nat -> (3 <= C)%nat ->
  accuracy self pred target = Ok acc ->
  measure self pred target
  = Ok {| m_acc := acc;
          m_miou := np_mean (map (fun i => mean_over N
                      (fun n => iou_of (conf_mat_of pred target N C H W) C n i))
                      (seq 0 C));
          m_iou_list := map (fun i => mean_over N
                      (fun n => iou_of (conf_mat_of pred target N C H W) C n i))
                      (seq 0 C);
          m_precision := mean_from1 C (fun i => mean_over N
                      (fun n => precision_of (conf_mat_of pred target N C H W) C n i));
          m_recall := mean_from1 C (fun i => mean_over N
                      (fun n => recall_of (conf_mat_of pred target N C H W) C n i));
          m_f1score := f1score
                      (mean_from1 C (fun i => mean_over N
                         (fun n => recall_of (conf_mat_of pred target N C H W) C n i)))
                      (mean_from1 C (fun i => mean_over N
                         (fun n => precision_of (conf_mat_of pred target N C H W) C n i)));
          m_cwmiou := np_mean [mean_over N
                        (union_iou_at (conf_mat_of pred target N C H W) C)] |}.
Proof.
  intros Hp Ht Hv Hcl HN HC Hacc.
  pose proof (shape_conf_mat_of pred target N C H W) as Hs.
  unfold measure.
  rewrite (@make_confusion_matrix_ok self pred target N C H W)
    by (try assumption; lia).
  fold (conf_mat_of pred target N C H W). cbn [bind].
  rewrite Hacc. cbn [bind].
  rewrite (miou_ok self Hs Hcl). cbn [bind].
  rewrite (no_bg_miou_ok_gen Hs HC). cbn [bind].
  rewrite (precision_ok self Hs Hcl). cbn [bind].
  rewrite (recall_ok self Hs Hcl). cbn [bind fst snd].
  reflexivity.
Qed.

(** X14. On a valid input with N >= 1 and at least three classes,
    [measure] never raises, whether [ignore_idx] is set or not, and its
    seven results are those of the single readers on the one confusion
    matrix: the F1 score is [f1score] of the reported recall and
    precision, and [iou_list] has one entry per class. *)
Theorem measure_on_valid_input (self : Measurement)
    (pred : list (list (list (list Q)))) (target : list (list (list Z)))
    (N C H W : nat) :
  shape4 N C H W pred -> shape3 N H W target ->
  valid_labels target N C H W -> num_classes self = C ->
  (0 < N)%nat -> (3 <= C)%nat ->
  exists m conf_mat,
    measure self pred target = Ok m /\
    _make_confusion_matrix self pred target = Ok conf_mat /\
    accuracy self pred target = Ok (m_acc m) /\
    miou self conf_mat = Ok (m_iou_list m, m_miou m) /\
    no_bg_miou conf_mat = Ok (m_cwmiou m) /\
    precision self conf_mat = Ok (m_precision m) /\
    recall self conf_mat = Ok (m_recall m) /\
    m_f1score m = f1score (m_recall m) (m_precision m) /\
    length (m_iou_list m) = C.
Proof.
  intros Hp Ht Hv Hcl HN HC.
  destruct (@accuracy_ok_any self pred target N C H W Hp Ht ltac:(lia))
    as [acc Hacc].
  pose proof (shape_conf_mat_of pred target N C H W) as Hs.
  eexists. exists (conf_mat_of pred target N C H W).
  split; [apply (@measure_ok self pred target N C H W acc Hp Ht Hv Hcl HN HC Hacc) |].
  cbn [m_acc m_miou m_iou_list m_precision m_recall m_f1score m_cwmiou].
  split; [apply make_confusion_matrix_ok; try assumption; lia |].
  split; [exact Hacc |].
  split; [apply miou_ok; assumption |].
  split; [apply no_bg_miou_ok_gen; assumption |].
  split; [apply precision_ok; assumption |].
  split; [apply recall_ok; assumption |].
  split; [reflexivity |].
  rewrite length_map, length_seq. reflexivity.
Qed.

Lemma measure_on_valid_input_witness :
  exists m,
    measure {| num_classes := 3; ignore_idx := Some 0%Z |}
      [[[[1; 1]; [0; 1]]; [[0; 0]; [0; 0]]; [[0; 0]; [1; 0]]]]
      [[[0; 1]; [2; 0]]]%Z = Ok m /\
    m_f1score m = f1score (m_recall m) (m_precision m) /\
    length (m_iou_list m) = 3%nat.
Proof.
  destruct (@measure_on_valid_input {| num_classes := 3; ignore_idx := Some 0%Z |}
              [[[[1; 1]; [0; 1]]; [[0; 0]; [0; 0]]; [[0; 0]; [1; 0]]]]
              [[[0; 1]; [2; 0]]]%Z 1 3 2 2)
    as [m [cm [H1 [_ [_ [_ [_ [_ [_ [H8 H9]]]]]]]]]].
  - split; [reflexivity |]. repeat constructor.
  - split; [reflexivity |]. repeat constructor.
  - intros n h w Hn Hh Hw.
    destruct n as [| n]; [| lia].
    destruct h as [| [| h]]; try lia; destruct w as [| [| w]]; try lia;
      unfold label; simpl; lia.
  - reflexivity.
  - lia.
  - lia.
  - exists m. split; [exact H1 |]. split; [exact H8 | exact H9].
Defined.

Lemma nan_or_unit_list (l : list fval) :
  Forall (fun a => a = NaN \/ in_unit a) l -> In NaN l \/ Forall in_unit l.
Proof.
  induction 1 as [| a l Ha _ IH].
  - right. constructor.
  - destruct Ha as [-> | Ha]; [left; left; reflexivity |].
    destruct IH as [Hin | Hall]; [left; right; exact Hin |].
    right. constructor; assumption.
Qed.

Lemma np_mean_nan_or_unit (l : list fval) :
  l <> [] -> Forall (fun a => a = NaN \/ in_unit a) l ->
  np_mean l = NaN \/ in_unit (np_mean l).
Proof.
  intros Hne Hall. destruct (nan_or_unit_list Hall) as [Hin | Hu].
  - left. apply np_mean_NaN. exact Hin.
  - right. apply np_mean_unit; assumption.
Qed.

Lemma recall_of_nan_or_unit (conf_mat : list (list (list Z))) (C n i : nat) :
  nonneg_entries conf_mat -> (i < C)%nat ->
  recall_of conf_mat C n i = NaN \/ in_unit (recall_of conf_mat C n i).
Proof.
  intros Hnn Hi.
  destruct (diag_le_sums n Hnn Hi) as [[H0 _] H1].
  destruct (Z.eq_dec (sum_row conf_mat C n i) 0) as [E | E].
  - left. unfold recall_of. rewrite E.
    replace (entry conf_mat n i i) with 0%Z by lia. reflexivity.
  - right. apply recall_of_in_unit; [exact Hnn | exact Hi | lia].
Qed.

Lemma recall_value_nan_or_unit (conf_mat : list (list (list Z))) (N C : nat) :
  nonneg_entries conf_mat -> (0 < N)%nat -> (2 <= C)%nat ->
  mean_from1 C (fun i => mean_over N (fun n => recall_of conf_mat C n i)) = NaN \/
  in_unit (mean_from1 C (fun i => mean_over N (fun n => recall_of conf_mat C n i))).
Proof.
  intros Hnn HN HC. unfold mean_from1. apply np_mean_nan_or_unit.
  - destruct C as [| [| C']]; try lia. discriminate.
  - rewrite Forall_forall. intros a Ha. apply in_map_iff in Ha.
    destruct Ha as [i [<- Hi]]. apply in_seq in Hi.
    unfold mean_over. apply np_mean_nan_or_unit.
    + destruct N; [lia | discriminate].
    + rewrite Forall_forall. intros b Hb. apply in_map_iff in Hb.
      destruct Hb as [n [<- _]]. apply recall_of_nan_or_unit; [exact Hnn | lia].
Qed.

Lemma accuracy_nan_or_unit (self : Measurement)
    (pred : list (list (list (list Q)))) (target : list (list (list Z)))
    (N C H W : nat) :
  shape4 N C H W pred -> shape3 N H W target -> (0 < C)%nat -> (0 < N)%nat ->
  exists acc, accuracy self pred target = Ok acc /\ (acc = NaN \/ in_unit acc).
Proof.
  intros Hp Ht HC HN. destruct (ignore_idx self) as [ig |] eqn:Hig.
  - exists (np_mean [pooled_accuracy pred target ig N C H W]).
    split; [apply accuracy_ignore_ok; assumption |].
    pose proof (count_kept_correct_le pred target ig N C H W) as [H0 H1].
    destruct (Z.eq_dec (count_batch N H W (kept target ig)) 0) as [E | E].
    + left. unfold pooled_accuracy. rewrite E in *.
      replace (count_batch N H W
                 (fun n h w => kept target ig n h w && correct pred target C n h w))
        with 0%Z by lia.
      reflexivity.
    + right. apply np_mean_single_in_unit. apply pooled_in_unit. lia.
  - exists (mean_over N (item_accuracy pred target C H W)).
    split; [apply accuracy_plain_ok; assumption |].
    destruct (Nat.eq_dec (H * W) 0) as [E | E].
    + left. unfold mean_over. apply np_mean_NaN.
      apply in_map_iff. exists 0%nat. split; [| apply in_seq; lia].
      unfold item_accuracy.
      pose proof (count_pixels_bounds H W (correct pred target C 0)) as Hb.
      rewrite E in *.
      replace (count_pixels H W (correct pred target C 0)) with 0%Z by lia.
      reflexivity.
    + right. apply mean_over_in_unit; [exact HN |]. intros n _.
      apply item_accuracy_in_unit. lia.
Qed.

(** X15. On a valid input with N >= 1 and at least three classes, the
    results of [measure] are confined: every per-class IoU, the mean IoU,
    the precision and the foreground IoU are finite values between 0 and
    1; the accuracy, the recall and the F1 score are each either
    not-a-number or a value between 0 and 1, never an infinity. *)
Theorem measure_ranges (self : Measurement)
    (pred : list (list (list (list Q)))) (target : list (list (list Z)))
    (N C H W : nat) :
  shape4 N C H W pred -> shape3 N H W target ->
  valid_labels target N C H W -> num_classes self = C ->
  (0 < N)%nat -> (3 <= C)%nat ->
  exists m,
    measure self pred target = Ok m /\
    Forall in_unit (m_iou_list m) /\
    in_unit (m_miou m) /\
    in_unit (m_precision m) /\
    in_unit (m_cwmiou m) /\
    (m_acc m = NaN \/ in_unit (m_acc m)) /\
    (m_recall m = NaN \/ in_unit (m_recall m)) /\
    (m_f1score m = NaN \/ in_unit (m_f1score m)).
Proof.
  intros Hp Ht Hv Hcl HN HC.
  destruct (@accuracy_nan_or_unit self pred target N C H W Hp Ht ltac:(lia) HN)
    as [acc [Hacc Hrange]].
  pose proof (nonneg_conf_mat_of pred target N C H W) as Hnn.
  set (cm := conf_mat_of pred target N C H W) in *.
  assert (Hiou : Forall in_unit
            (map (fun i => mean_over N (fun n => iou_of cm C n i)) (seq 0 C))).
  { rewrite Forall_forall. intros a Ha. apply in_map_iff in Ha.
    destruct Ha as [i [<- Hi]]. apply in_seq in Hi.
    apply mean_over_in_unit; [exact HN |]. intros n _.
    apply iou_of_in_unit; [exact Hnn | lia]. }
  assert (Hprec : in_unit (mean_from1 C
            (fun i => mean_over N (fun n => precision_of cm C n i)))).
  { apply mean_from1_in_unit; [lia |]. intros i Hi.
    apply mean_over_in_unit; [exact HN |]. intros n _.
    apply precision_of_in_unit; [exact Hnn | lia]. }
  pose proof (@recall_value_nan_or_unit cm N C Hnn HN ltac:(lia)) as Hrec.
  eexists.
  split; [apply (@measure_ok self pred target N C H W acc Hp Ht Hv Hcl HN HC Hacc) |].
  cbn [m_acc m_miou m_iou_list m_precision m_recall m_f1score m_cwmiou].
  fold cm.
  split; [exact Hiou |].
  split.
  { apply np_mean_unit; [| exact Hiou].
    destruct C as [| C']; [lia | discriminate]. }
  split; [exact Hprec |].
  split.
  { apply np_mean_single_in_unit.
    apply mean_over_in_unit; [exact HN |]. intros n _.
    apply union_iou_at_in_unit; assumption. }
  split; [exact Hrange |].
  split; [exact Hrec |].
  destruct Hrec as [-> | Hru].
  - left. apply f1score_NaN_l.
  - right.
    destruct (in_unit_fin _ Hru) as [r [-> Hr]].
    destruct (in_unit_fin _ Hprec) as [p [-> Hpq]].
    apply f1score_fin_in_unit; assumption.
Qed.

Lemma measure_ranges_witness :
  exists m,
    measure {| num_classes := 3; ignore_idx := None |}
      [[[[1; 1]; [0; 1]]; [[0; 0]; [0; 0]]; [[0; 0]; [1; 0]]]]
      [[[0; 1]; [2; 0]]]%Z = Ok m /\
    in_unit (m_miou m) /\ in_unit (m_precision m) /\ in_unit (m_cwmiou m).
Proof.
  destruct (@measure_ranges {| num_classes := 3; ignore_idx := None |}
              [[[[1; 1]; [0; 1]]; [[0; 0]; [0; 0]]; [[0; 0]; [1; 0]]]]
              [[[0; 1]; [2; 0]]]%Z 1 3 2 2)
    as [m [H1 [_ [H3 [H4 [H5 _]]]]]].
  - split; [reflexivity |]. repeat constructor.
  - split; [reflexivity |]. repeat constructor.
  - intros n h w Hn Hh Hw.
    destruct n as [| n]; [| lia].
    destruct h as [| [| h]]; try lia; destruct w as [| [| w]]; try lia;
      unfold label; simpl; lia.
  - reflexivity.
  - lia.
  - lia.
  - exists m. repeat split; assumption.
Defined.

(** X16. [measure] cannot be used with fewer than three classes: on a
    valid input with N >= 1 and [num_classes] 1 or 2, the confusion matrix,
    the accuracy and the mean IoU are computed and then the foreground IoU
    raises [IndexError]. *)
Theorem measure_needs_three_classes (self : Measurement)
    (pred : list (list (list (list Q)))) (target : list (list (list Z)))
    (N C H W : nat) :
  shape4 N C H W pred -> shape3 N H W target ->
  valid_labels target N C H W -> num_classes self = C ->
  (0 < N)%nat -> (0 < C)%nat -> (C <= 2)%nat ->
  (exists conf_mat acc im,
     _make_confusion_matrix self pred target = Ok conf_mat /\
     accuracy self pred target = Ok acc /\
     miou self conf_mat = Ok im) /\
  measure self pred target = Raise IndexError.
Proof.
  intros Hp Ht Hv Hcl HN HC HC2.
  destruct (@accuracy_ok_any self pred target N C H W Hp Ht HC) as [acc Hacc].
  pose proof (shape_conf_mat_of pred target N C H W) as Hs.
  assert (Hcm : _make_confusion_matrix self pred target
                = Ok (conf_mat_of pred target N C H W))
    by (apply make_confusion_matrix_ok; assumption).
  split.
  - exists (conf_mat_of pred target N C H W), acc. eexists.
    split; [exact Hcm |]. split; [exact Hacc |].
    apply (miou_ok self Hs Hcl).
  - unfold measure. rewrite Hcm. cbn [bind]. rewrite Hacc. cbn [bind].
    rewrite (miou_ok self Hs Hcl). cbn [bind].
    rewrite (@no_bg_miou_index_error _ N C Hs HN HC2). reflexivity.
Qed.

Lemma measure_needs_three_classes_witness :
  measure {| num_classes := 2; ignore_idx := None |}
    [[[[1; 0]; [0; 1]]; [[0; 1]; [0; 0]]]]
    [[[0; 1]; [1; 0]]]%Z = Raise IndexError.
Proof.
  apply (@measure_needs_three_classes {| num_classes := 2; ignore_idx := None |}
           [[[[1; 0]; [0; 1]]; [[0; 1]; [0; 0]]]]
           [[[0; 1]; [1; 0]]]%Z 1 2 2 2).
  - split; [reflexivity |]. repeat constructor.
  - split; [reflexivity |]. repeat constructor.
  - intros n h w Hn Hh Hw.
    destruct n as [| n]; [| lia].
    destruct h as [| [| h]]; try lia; destruct w as [| [| w]]; try lia;
      unfold label; simpl; lia.
  - reflexivity.
  - lia.
  - lia.
  - lia.
Defined.

(** X17. On a valid input with N >= 1 and at least three classes, a
    foreground class that no pixel of some batch item carries makes the
    recall reported by [measure] not-a-number, and the F1 score with it. *)
Theorem measure_recall_nan (self : Measurement)
    (pred : list (list (list (list Q)))) (target : list (list (list Z)))
    (N C H W : nat) :
  shape4 N C H W pred -> shape3 N H W target ->
  valid_labels target N C H W -> num_classes self = C ->
  (0 < N)%nat -> (3 <= C)%nat ->
  (exists n i, (n < N)%nat /\ (1 <= i < C)%nat /\
     forall h w, (h < H)%nat -> (w < W)%nat ->
       label target n h w <> Z.of_nat i) ->
  exists m,
    measure self pred target = Ok m /\
    m_recall m = NaN /\ m_f1score m = NaN.
Proof.
  intros Hp Ht Hv Hcl HN HC [n [i [Hn [Hi Hnone]]]].
  destruct (@accuracy_ok_any self pred target N C H W Hp Ht ltac:(lia))
    as [acc Hacc].
  set (cm := conf_mat_of pred target N C H W).
  assert (Hrec : mean_from1 C (fun i => mean_over N (fun n => recall_of cm C n i))
                 = NaN).
  { unfold mean_from1. apply np_mean_NaN.
    apply in_map_iff. exists i. split; [| apply in_seq; lia].
    unfold mean_over. apply np_mean_NaN.
    apply in_map_iff. exists n. split; [| apply in_seq; lia].
    unfold recall_of, cm.
    rewrite sum_row_conf_mat_of by (try assumption; lia).
    rewrite entry_conf_mat_of by (try assumption; lia).
    rewrite !count_pixels_none; [reflexivity | |];
      intros h w Hh Hw;
      rewrite (proj2 (Z.eqb_neq _ _) (Hnone h w Hh Hw)); reflexivity. }
  eexists.
  split; [apply (@measure_ok self pred target N C H W acc Hp Ht Hv Hcl HN HC Hacc) |].
  cbn [m_recall m_f1score]. fold cm. rewrite Hrec.
  split; [reflexivity | apply f1score_NaN_l].
Qed.

Lemma measure_recall_nan_witness :
  exists m,
    measure {| num_classes := 3; ignore_idx := None |}
      [[[[1; 0]; [0; 1]]; [[0; 1]; [1; 0]]; [[0; 0]; [0; 0]]]]
      [[[0; 1]; [1; 0]]]%Z = Ok m /\
    m_recall m = NaN /\ m_f1score m = NaN.
Proof.
  apply (@measure_recall_nan {| num_classes := 3; ignore_idx := None |}
           [[[[1; 0]; [0; 1]]; [[0; 1]; [1; 0]]; [[0; 0]; [0; 0]]]]
           [[[0; 1]; [1; 0]]]%Z 1 3 2 2).
  - split; [reflexivity |]. repeat constructor.
  - split; [reflexivity |]. repeat constructor.
  - intros n h w Hn Hh Hw.
    destruct n as [| n]; [| lia].
    destruct h as [| [| h]]; try lia; destruct w as [| [| w]]; try lia;
      unfold label; simpl; lia.
  - reflexivity.
  - lia.
  - lia.
  - exists 0%nat, 2%nat. repeat split; try lia.
    intros h w Hh Hw.
    destruct h as [| [| h]]; try lia; destruct w as [| [| w]]; try lia;
      unfold label; simpl; discriminate.
Defined.

(** ** What the results depend on *)

Lemma argmax_axis1_same (pred pred' : list (list (list (list Q))))
    (N C H W : nat) :
  shape4 N C H W pred -> shape4 N C H W pred' -> (0 < C)%nat ->
  (forall n h w, (n < N)%nat -> (h < H)%nat -> (w < W)%nat ->
     predicted_label pred C n h w = predicted_label pred' C n h w) ->
  argmax_axis1 pred = argmax_axis1 pred'.
Proof.
  intros Hp Hp' HC Hsame.
  rewrite (argmax_axis1_ok Hp HC), (argmax_axis1_ok Hp' HC). f_equal.
  unfold tabulate3.
  apply map_ext_in. intros n Hn. apply in_seq in Hn.
  apply map_ext_in. intros h Hh. apply in_seq in Hh.
  apply map_ext_in. intros w Hw. apply in_seq in Hw.
  apply Hsame; lia.
Qed.

Lemma same_argmax_same_results (self : Measurement)
    (pred pred' : list (list (list (list Q)))) (target : list (list (list Z)))
    (N C H W : nat) :
  shape4 N C H W pred -> shape4 N C H W pred' -> (0 < C)%nat ->
  (forall n h w, (n < N)%nat -> (h < H)%nat -> (w < W)%nat ->
     predicted_label pred C n h w = predicted_label pred' C n h w) ->
  _make_confusion_matrix self pred target
  = _make_confusion_matrix self pred' target /\
  accuracy self pred target = accuracy self pred' target /\
  measure self pred target = measure self pred' target.
Proof.
  intros Hp Hp' HC Hsame.
  pose proof (argmax_axis1_same Hp Hp' HC Hsame) as Earg.
  assert (Ecm : _make_confusion_matrix self pred target
                = _make_confusion_matrix self pred' target).
  { unfold _make_confusion_matrix.
    destruct Hp as [HN _]. destruct Hp' as [HN' _].
    rewrite HN, HN', Earg. reflexivity. }
  assert (Eacc : accuracy self pred target = accuracy self pred' target).
  { unfold accuracy. rewrite Earg. reflexivity. }
  split; [exact Ecm |]. split; [exact Eacc |].
  unfold measure. rewrite Ecm, Eacc. reflexivity.
Qed.

(** X18. The results depend on the scores only through their arg-max:
    two prediction tensors of the same shape with the same predicted label
    at every pixel give the same confusion matrix, the same accuracy and
    the same result of [measure], errors included, for any target. *)
Theorem measure_depends_on_argmax_only (self : Measurement)
    (pred pred' : list (list (list (list Q)))) (target : list (list (list Z)))
    (N C H W : nat) :
  shape4 N C H W pred -> shape4 N C H W pred' -> (0 < C)%nat ->
  (forall n h w, (n < N)%nat -> (h < H)%nat -> (w < W)%nat ->
     predicted_label pred C n h w = predicted_label pred' C n h w) ->
  _make_confusion_matrix self pred target
  = _make_confusion_matrix self pred' target /\
  accuracy self pred target = accuracy self pred' target /\
  measure self pred target = measure self pred' target.
Proof.
  intros Hp Hp' HC Hsame.
  apply same_argmax_same_results with (N := N) (C := C) (H := H) (W := W);
    assumption.
Qed.

(** Scores and scores doubled-plus-one have the same arg-max. *)
Lemma measure_depends_on_argmax_only_witness :
  measure {| num_classes := 3; ignore_idx := None |}
    [[[[1; 1]; [0; 1]]; [[0; 0]; [0; 0]]; [[0; 0]; [1 # 2; 0]]]]
    [[[0; 1]; [2; 0]]]%Z
  = measure {| num_classes := 3; ignore_idx := None |}
    [[[[3; 3]; [1; 3]]; [[1; 1]; [1; 1]]; [[1; 1]; [2; 1]]]]
    [[[0; 1]; [2; 0]]]%Z.
Proof.
  apply (@measure_depends_on_argmax_only
           {| num_classes := 3; ignore_idx := None |}
           [[[[1; 1]; [0; 1]]; [[0; 0]; [0; 0]]; [[0; 0]; [1 # 2; 0]]]]
           [[[[3; 3]; [1; 3]]; [[1; 1]; [1; 1]]; [[1; 1]; [2; 1]]]]
           [[[0; 1]; [2; 0]]]%Z 1 3 2 2).
  - split; [reflexivity |]. repeat constructor.
  - split; [reflexivity |]. repeat constructor.
  - lia.
  - intros n h w Hn Hh Hw.
    destruct n as [| n]; [| lia].
    destruct h as [| [| h]]; try lia; destruct w as [| [| w]]; try lia;
      reflexivity.
Defined.

(** X19. Each batch item is handled on its own: in the confusion matrices
    of two valid batches, items that hold the same prediction and the same
    labels have the same matrix, wherever they stand and whatever the
    other items are. *)
Theorem confusion_matrix_per_item (self : Measurement)
    (pred pred' : list (list (list (list Q))))
    (target target' : list (list (list Z)))
    (N N' C H W n n' : nat) :
  shape4 N C H W pred -> shape3 N H W target ->
  valid_labels target N C H W ->
  shape4 N' C H W pred' -> shape3 N' H W target' ->
  valid_labels target' N' C H W ->
  num_classes self = C -> (0 < C)%nat ->
  (n < N)%nat -> (n' < N')%nat ->
  nth n pred [] = nth n' pred' [] ->
  nth n target [] = nth n' target' [] ->
  exists conf_mat conf_mat',
    _make_confusion_matrix self pred target = Ok conf_mat /\
    _make_confusion_matrix self pred' target' = Ok conf_mat' /\
    nth n conf_mat [] = nth n' conf_mat' [].
Proof.
  intros Hp Ht Hv Hp' Ht' Hv' Hcl HC Hn Hn' Epred Etarget.
  exists (conf_mat_of pred target N C H W), (conf_mat_of pred' target' N' C H W).
  split; [apply make_confusion_matrix_ok; try assumption; lia |].
  split; [apply make_confusion_matrix_ok; try assumption; lia |].
  unfold conf_mat_of.
  rewrite (nth_map_seq (fun n => chunks C C (histogram C (codes pred target C H W n)))
             [] Hn).
  rewrite (nth_map_seq (fun n => chunks C C (histogram C (codes pred' target' C H W n)))
             [] Hn').
  do 2 f_equal. unfold codes. apply map_ext. intros hw.
  unfold category, label, predicted_label, score.
  rewrite Epred, Etarget. reflexivity.
Qed.

Lemma confusion_matrix_per_item_witness :
  exists conf_mat conf_mat',
    _make_confusion_matrix {| num_classes := 2; ignore_idx := None |}
      [[[[1; 0]; [0; 1]]; [[0; 1]; [0; 0]]];
       [[[0; 0]; [0; 0]]; [[1; 1]; [1; 1]]]]
      [[[0; 1]; [1; 1]]; [[1; 0]; [1; 1]]]%Z = Ok conf_mat /\
    _make_confusion_matrix {| num_classes := 2; ignore_idx := None |}
      [[[[0; 0]; [0; 0]]; [[1; 1]; [1; 1]]]]
      [[[1; 0]; [1; 1]]]%Z = Ok conf_mat' /\
    nth 1 conf_mat [] = nth 0 conf_mat' [].
Proof.
  apply (@confusion_matrix_per_item {| num_classes := 2; ignore_idx := None |}
           [[[[1; 0]; [0; 1]]; [[0; 1]; [0; 0]]];
            [[[0; 0]; [0; 0]]; [[1; 1]; [1; 1]]]]
           [[[[0; 0]; [0; 0]]; [[1; 1]; [1; 1]]]]
           [[[0; 1]; [1; 1]]; [[1; 0]; [1; 1]]]%Z
           [[[1; 0]; [1; 1]]]%Z 2 1 2 2 2 1 0).
  - split; [reflexivity |]. repeat constructor.
  - split; [reflexivity |]. repeat constructor.
  - intros n h w Hn Hh Hw.
    destruct n as [| [| n]]; try lia;
      destruct h as [| [| h]]; try lia; destruct w as [| [| w]]; try lia;
      unfold label; simpl; lia.
  - split; [reflexivity |]. repeat constructor.
  - split; [reflexivity |]. repeat constructor.
  - intros n h w Hn Hh Hw.
    destruct n as [| n]; try lia;
      destruct h as [| [| h]]; try lia; destruct w as [| [| w]]; try lia;
      unfold label; simpl; lia.
  - reflexivity.
  - lia.
  - lia.
  - lia.
  - reflexivity.
  - reflexivity.
Defined.

Lemma first_max_map (f : Q -> Q) (l : list Q) (j : nat) :
  (forall x y, x <= y <-> f x <= f y) ->
  first_max l j -> first_max (map f l) j.
Proof.
  intros Hf [Hj [Hmax Hfirst]].
  assert (Hnth : forall k, (k < length l)%nat -> nth k (map f l) 0 = f (nth k l 0)).
  { intros k Hk. rewrite (nth_indep _ 0 (f 0)) by (rewrite length_map; exact Hk).
    apply map_nth. }
  repeat split.
  - rewrite length_map. exact Hj.
  - intros k Hk. rewrite length_map in Hk.
    rewrite !Hnth by assumption. apply (proj1 (Hf _ _)). apply Hmax. exact Hk.
  - intros k Hk. rewrite !Hnth by lia.
    apply Qnot_le_lt. intros Hle. apply (proj2 (Hf _ _)) in Hle.
    apply (Qlt_not_le _ _ (Hfirst k Hk)). exact Hle.
Qed.

Lemma first_max_index_map (f : Q -> Q) (l : list Q) :
  (forall x y, x <= y <-> f x <= f y) -> l <> [] ->
  first_max_index (map f l) = first_max_index l.
Proof.
  intros Hf Hne.
  rewrite <- (argmax_is_first_max_index Hne).
  apply first_max_index_unique. apply first_max_map; [exact Hf |].
  apply argmax_first_max. exact Hne.
Qed.

Lemma shape4_map (f : Q -> Q) (pred : list (list (list (list Q)))) (N C H W : nat) :
  shape4 N C H W pred ->
  shape4 N C H W (map (map (map (map f))) pred).
Proof.
  intros [HN Hall]. split; [rewrite length_map; exact HN |].
  rewrite Forall_forall in *. intros p Hp. apply in_map_iff in Hp.
  destruct Hp as [p0 [<- Hp0]]. destruct (Hall p0 Hp0) as [HC Hch].
  split; [rewrite length_map; exact HC |].
  rewrite Forall_forall in *. intros ch Hc. apply in_map_iff in Hc.
  destruct Hc as [ch0 [<- Hc0]]. destruct (Hch ch0 Hc0) as [HH Hrows].
  split; [rewrite length_map; exact HH |].
  rewrite Forall_forall in *. intros r Hr. apply in_map_iff in Hr.
  destruct Hr as [r0 [<- Hr0]]. rewrite length_map. apply Hrows. exact Hr0.
Qed.

Lemma score_map (f : Q -> Q) (pred : list (list (list (list Q))))
    (N C H W n c h w : nat) :
  shape4 N C H W pred ->
  (n < N)%nat -> (c < C)%nat -> (h < H)%nat -> (w < W)%nat ->
  score (map (map (map (map f))) pred) n c h w = f (score pred n c h w).
Proof.
  intros [HN Hall] Hn Hc Hh Hw. unfold score.
  rewrite Forall_forall in Hall.
  assert (Hp : shape3 C H W (nth n pred [])) by (apply Hall; apply nth_In; lia).
  destruct Hp as [HC Hch]. rewrite Forall_forall in Hch.
  assert (Hs : shape2 H W (nth c (nth n pred []) []))
    by (apply Hch; apply nth_In; lia).
  destruct Hs as [HH Hrows]. rewrite Forall_forall in Hrows.
  assert (Hr : length (nth h (nth c (nth n pred []) []) []) = W)
    by (apply Hrows; apply nth_In; lia).
  change (@nil (list (list Q))) with (map (map (map f)) []) at 1.
  rewrite map_nth.
  change (@nil (list Q)) with (map (map f) []) at 1.
  rewrite map_nth.
  change (@nil Q) with (map f []) at 1.
  rewrite map_nth.
  rewrite (nth_indep _ 0 (f 0)) by (rewrite length_map, Hr; exact Hw).
  apply map_nth.
Qed.

(** X20. Applying one order-preserving function to every score (a
    positive rescaling, a shift, any [f] with [x <= y] iff [f x <= f y])
    changes nothing: the confusion matrix, the accuracy and the result of
    [measure] are those of the original scores. *)
Theorem measure_invariant_under_monotone_scores (self : Measurement)
    (f : Q -> Q)
    (pred : list (list (list (list Q)))) (target : list (list (list Z)))
    (N C H W : nat) :
  (forall x y, x <= y <-> f x <= f y) ->
  shape4 N C H W pred -> (0 < C)%nat ->
  _make_confusion_matrix self (map (map (map (map f))) pred) target
  = _make_confusion_matrix self pred target /\
  accuracy self (map (map (map (map f))) pred) target
  = accuracy self pred target /\
  measure self (map (map (map (map f))) pred) target
  = measure self pred target.
Proof.
  intros Hf Hp HC.
  apply same_argmax_same_results with (N := N) (C := C) (H := H) (W := W);
    [apply shape4_map; exact Hp | exact Hp | exact HC |].
  intros n h w Hn Hh Hw. unfold predicted_label. f_equal.
  rewrite (map_ext_in _ (fun c => f (score pred n c h w)))
    by (intros c Hc; apply in_seq in Hc;
        apply (@score_map f pred N C H W); try assumption; lia).
  rewrite <- (map_map (fun c => score pred n c h w) f).
  apply first_max_index_map; [exact Hf |].
  intros E. apply (f_equal (@length _)) in E.
  rewrite length_map, length_seq in E. simpl in E. lia.
Qed.

Lemma measure_invariant_under_monotone_scores_witness :
  measure {| num_classes := 3; ignore_idx := None |}
    (map (map (map (map (fun x => 2 * x + 1))))
       [[[[1; 1]; [0; 1]]; [[0; 0]; [0; 0]]; [[0; 0]; [1 # 2; 0]]]])
    [[[0; 1]; [2; 0]]]%Z
  = measure {| num_classes := 3; ignore_idx := None |}
    [[[[1; 1]; [0; 1]]; [[0; 0]; [0; 0]]; [[0; 0]; [1 # 2; 0]]]]
    [[[0; 1]; [2; 0]]]%Z.
Proof.
  apply (@measure_invariant_under_monotone_scores
           {| num_classes := 3; ignore_idx := None |} (fun x => 2 * x + 1)
           [[[[1; 1]; [0; 1]]; [[0; 0]; [0; 0]]; [[0; 0]; [1 # 2; 0]]]]
           [[[0; 1]; [2; 0]]]%Z 1 3 2 2).
  - intros x y. split; intros Hxy; lra.
  - split; [reflexivity |]. repeat constructor.
  - lia.
Defined.



(** An empty batch is refused: the batch sizes agree, so the assertion
    passes, and then [_make_confusion_matrix], and with it [measure],
    raises [ValueError] (the reshape to (0, -1) cannot infer the missing
    dimension), whatever the configuration. *)
Example empty_batch_raises (self : Measurement) :
  _make_confusion_matrix self [] [] = Raise ValueError /\
  measure self [] [] = Raise ValueError.
Proof.
  split; reflexivity.
Qed.
